(** * Maps Area Insights: personalization, validation and caching

  A shallow embedding of the backend of the maps-area-insights
  application (services/personalizationService.js,
  controllers/areaInsightsController.js,
  controllers/userPreferencesController.js,
  services/firebaseService.js, services/googlePlacesService.js)
  together with the properties its specification states about it.

  Scores are real numbers (the review term uses the natural
  logarithm); coordinates are doubles, written as the rationals they
  are, and their products are rounded as products of doubles; counts,
  price levels, hours and timestamps are integers. *)

From Stdlib Require Import ZArith QArith Qabs Qround Reals Psatz.
From stdpp Require Import gmap strings list sorting pretty.

Local Open Scope string_scope.

(** ** JavaScript idioms shared by the services *)

Module Js.

(** [a || b] on an optional number: [undefined] and [0] both select
    the right operand. *)
Definition or_Z (a : option Z) (b : Z) : Z :=
  match a with
  | Some v => if (v =? 0)%Z then b else v
  | None => b
  end.

Definition or_N (a : option N) (b : N) : N :=
  match a with
  | Some v => if (v =? 0)%N then b else v
  | None => b
  end.

Definition or_Q (a : option Q) (b : Q) : Q :=
  match a with
  | Some v => if Qeq_bool v 0 then b else v
  | None => b
  end.

(** The integer that an array index is made of a number: its
    fraction is dropped. *)
Definition truncate (q : Q) : Z := Z.quot (Qnum q) (Z.pos (Qden q)).

(** On reals the two cases coincide in value whenever the default is
    [0], which is the only use the services make of it. *)
Definition or_R0 (a : option R) : R :=
  match a with
  | Some v => v
  | None => 0%R
  end.

(** [a || b] on an optional string: [undefined] and the empty string
    are falsy. *)
Definition or_string (a : option string) (b : string) : string :=
  match a with
  | Some "" => b
  | Some s => s
  | None => b
  end.

(** [Array.prototype.includes] on an array of strings. *)
Definition includes (l : list string) (x : string) : bool :=
  bool_decide (x ∈ l).

(** [array.slice(start, end)] on integers: a negative index counts
    from the end, and both indices are clamped to the array. *)
Definition slice {A} (array : list A) (start finish : Z) : list A :=
  let len := Z.of_nat (length array) in
  let clamp (k : Z) :=
    if (k <? 0)%Z then Z.max (len + k) 0 else Z.min k len in
  take (Z.to_nat (clamp finish - clamp start))
       (drop (Z.to_nat (clamp start)) array).

(** A number is a double (binary64); a finite one is written as the
    rational it is.  [double x] is the double that an arithmetic
    operation returns when its exact result is [x]: the nearest
    number with a significand of 53 bits (fewer below [2^-1022], where
    the spacing is [2^-1074]), a tie going to the even significand.
    Results beyond the largest finite double are not modelled. *)

(** [floor (log2 |x|)], for [x] other than 0. *)
Definition binade (x : Q) : Z :=
  let k := (Z.log2 (Z.abs (Qnum x)) - Z.log2 (Z.pos (Qden x)))%Z in
  if Qle_bool (2 ^ k) (Qabs x) then k else (k - 1)%Z.

Definition roundHalfEven (x : Q) : Z :=
  let f := Qfloor x in
  match ((x - inject_Z f) ?= (1 # 2))%Q with
  | Lt => f
  | Gt => (f + 1)%Z
  | Eq => if Z.even f then f else (f + 1)%Z
  end.

Definition double (x : Q) : Q :=
  if Qeq_bool x 0 then 0
  else
    let e := Z.max (binade x - 52) (-1074) in
    Qred (inject_Z (roundHalfEven (x / 2 ^ e)) * 2 ^ e).

(** [a * b] on two doubles. *)
Definition times (a b : Q) : Q := double (a * b).

(** [Math.round]: the nearest integer, halves rounded up; on a double
    the result is exact. *)
Definition Math_round (q : Q) : Z := Qfloor (q + (1 # 2)).

(** The outcome of a call that may throw (or of a promise that may
    reject). *)
Inductive Outcome (A : Type) : Type :=
| Returned (a : A)
| Thrown (message : string).
Arguments Returned {A} a.
Arguments Thrown {A} message.

(** Comparisons of real numbers, as tests. *)
#[export] Instance Rlt_decision (x y : R) : Decision (x < y)%R := Rlt_dec x y.
#[export] Instance Rgt_decision (x y : R) : Decision (x > y)%R := Rgt_dec x y.
#[export] Instance Rle_decision (x y : R) : Decision (x <= y)%R := Rle_dec x y.
#[export] Instance R_eq_decision : EqDecision R := Req_dec_T.

(** [Array.prototype.sort(compareFn)]: the sort is stable, and an
    element moves behind another one exactly when the comparator
    is positive on the pair.  Elements are inserted from the back of
    the array, so that an element meets only elements that followed
    it in the input. *)
Section Sort.
Context {A : Type} (compareFn : A -> A -> R).

Fixpoint sort_insert (x : A) (l : list A) : list A :=
  match l with
  | [] => [x]
  | y :: l' =>
      if decide (compareFn x y > 0)%R then y :: sort_insert x l'
      else x :: y :: l'
  end.

Definition sort (l : list A) : list A := foldr sort_insert [] l.
End Sort.

End Js.

(** ** config/firebase.js: the document store, as the services use it

    A collection is a finite map from document ids to documents.  Each
    call reaches the backend in some state of health; a failing
    backend makes the call throw.  A document id is a non-empty
    string. *)

Module Firestore.
Import Js.

Inductive Health :=
| Healthy
| Failing (message : string).

(** The Firestore client is not part of the sources.  What the
    services need of it, besides its calls, is the message of the
    error that [doc(id)] throws for an empty document path; it is
    taken as a parameter. *)
Class Client := { invalidPathMessage : string }.

Section Collection.
Context {client : Client} {D : Type}.

Definition reach {A} (health : Health) (id : string) (result : A) : Outcome A :=
  match health with
  | Failing message => Thrown message
  | Healthy =>
      if decide (id = "") then Thrown invalidPathMessage
      else Returned result
  end.

(** [collection.doc(id).get()]: [None] when [doc.exists] is false. *)
Definition get (health : Health) (collection : gmap string D) (id : string)
  : Outcome (option D) :=
  reach health id (collection !! id).

(** [collection.doc(id).set(data)] *)
Definition set (health : Health) (collection : gmap string D) (id : string)
    (data : D) : Outcome (gmap string D) :=
  reach health id (<[id := data]> collection).

(** [doc.ref.delete()] *)
Definition delete (health : Health) (collection : gmap string D) (id : string)
  : Outcome (gmap string D) :=
  reach health id (base.delete id collection).

End Collection.

(** The value of a field of a stored document. *)
Inductive Value :=
| VString (s : string)
| VStrings (items : list string)
| VBool (b : bool)
| VNumber (n : Z)
| VDate (millis : Z).

(** Truthiness of a field read from an object; [None] is [undefined]. *)
Definition truthy (v : option Value) : bool :=
  match v with
  | None => false
  | Some (VString s) => negb (bool_decide (s = ""))
  | Some (VBool b) => b
  | Some (VNumber n) => negb (n =? 0)%Z
  | Some (VStrings _) | Some (VDate _) => true
  end.

(** [{ ...a, ...b }]: the fields of [b] override those of [a]. *)
Definition spread (a b : gmap string Value) : gmap string Value := b ∪ a.

Section Merge.
Context {client : Client}.

(** [collection.doc(id).set(data, { merge: true })]: the fields of
    [data] replace the stored ones, the other stored fields stay. *)
Definition set_merge (health : Health)
    (collection : gmap string (gmap string Value)) (id : string)
    (data : gmap string Value) : Outcome (gmap string (gmap string Value)) :=
  reach health id (<[id := spread (default ∅ (collection !! id)) data]> collection).

End Merge.

End Firestore.

(** ** services/personalizationService.js: the engine *)

Module PersonalizationService.
Import Js.

(** A place as the places provider returns it; only the fields the
    engine reads. *)
Record Place := {
  place_id : string;
  rating : option R;
  user_ratings_total : option N;
  price_level : option Z;
  types : list string;
  business_status : option string
}.

(** The view of a preference record the engine reads.  The record
    comes from the store, where a field can hold any value.
    [interests] is [Some] of the tags when the field is an array, and
    [None] when it is anything else, so that it has no [forEach].
    [maxResults] is the number the field holds, [None] when the record
    has no such field.  The four other fields are only compared with
    strings and used as keys of the tables below, which are read at
    their own keys. *)
Record Preferences := {
  interests : option (list string);
  ageGroup : string;
  preferredEnvironment : string;
  priceRange : string;
  timePreference : string;
  maxResults : option Q
}.

(** [context.currentTime], when present, is a [Date]; the engine only
    asks for its hour of the day. *)
Record Date := { getHours : Z }.

Record Context := { currentTime : option Date }.

Record AgeGroupPrefs := {
  priorityTypes : list string;
  ag_timePreference : string;
  ag_priceRange : string
}.

Record ScoredPlace := {
  place : Place;
  personalizedScore : R;
  matchingInterests : list string;
  ageGroupMatch : bool
}.

Definition defaultPreferences : Preferences :=
  {| interests := Some ["restaurant"; "tourist_attraction"; "shopping_mall"];
     ageGroup := "adult";
     preferredEnvironment := "mixed";
     priceRange := "medium";
     timePreference := "flexible";
     maxResults := None |}.

Definition interestMapping : gmap string (list string) :=
  list_to_map
    [ ("food", ["restaurant"; "cafe"; "bakery"; "meal_takeaway"; "meal_delivery"]);
      ("nightlife", ["night_club"; "bar"; "liquor_store"]);
      ("culture", ["museum"; "art_gallery"; "library"; "university"]);
      ("history", ["tourist_attraction"; "museum"; "cemetery"; "place_of_worship"]);
      ("shopping", ["shopping_mall"; "store"; "clothing_store"; "electronics_store"]);
      ("entertainment", ["amusement_park"; "movie_theater"; "bowling_alley"; "casino"]);
      ("nature", ["park"; "zoo"; "aquarium"; "campground"]);
      ("fitness", ["gym"; "spa"; "stadium"]);
      ("business", ["bank"; "post_office"; "city_hall"; "courthouse"]);
      ("health", ["hospital"; "pharmacy"; "doctor"; "dentist"]);
      ("travel", ["lodging"; "travel_agency"; "gas_station"; "airport"]);
      ("services", ["car_repair"; "laundry"; "hair_care"; "beauty_salon"]) ].

Definition adultPrefs : AgeGroupPrefs :=
  {| priorityTypes := ["restaurant"; "museum"; "tourist_attraction"; "park"];
     ag_timePreference := "flexible";
     ag_priceRange := "medium" |}.

Definition ageGroupPreferences : gmap string AgeGroupPrefs :=
  list_to_map
    [ ("young",
       {| priorityTypes := ["night_club"; "bar"; "amusement_park"; "shopping_mall"];
          ag_timePreference := "evening";
          ag_priceRange := "budget" |});
      ("adult", adultPrefs);
      ("senior",
       {| priorityTypes := ["museum"; "park"; "restaurant"; "library"];
          ag_timePreference := "morning";
          ag_priceRange := "comfortable" |});
      ("family",
       {| priorityTypes := ["park"; "zoo"; "amusement_park"; "restaurant"];
          ag_timePreference := "daytime";
          ag_priceRange := "family-friendly" |}) ].

(** [types.add(type)] on a [Set] that is later turned into an array:
    insertion order, first occurrence kept. *)
Definition set_add (acc : list string) (t : string) : list string :=
  if includes acc t then acc else acc ++ [t].

Definition mappedTypes (interest : string) : list string :=
  match interestMapping !! interest with
  | Some ts => ts
  | None => [interest]
  end.

Definition getRelevantPlaceTypes (interests : list string) : list string :=
  foldl (fun acc interest => foldl set_add acc (mappedTypes interest))
        [] interests.

Definition priceMapping : gmap string Z :=
  list_to_map
    [ ("budget", 0%Z); ("low", 1%Z); ("medium", 2%Z);
      ("comfortable", 3%Z); ("luxury", 4%Z) ].

Definition getPriceLevelScore (priceLevel : Z) (userPriceRange : string) : Z :=
  let preferredLevel := or_Z (priceMapping !! userPriceRange) 2 in
  let difference := Z.abs (priceLevel - preferredLevel) in
  Z.max 0 (2 - difference).

Definition getEnvironmentScore (place : Place) (preferredEnvironment : string) : Z :=
  let reviewCount := or_N (user_ratings_total place) 0 in
  if decide (preferredEnvironment = "quiet") then
    if (reviewCount <? 100)%N then 2 else 0
  else if decide (preferredEnvironment = "busy") then
    if (500 <? reviewCount)%N then 2 else 0
  else if decide (preferredEnvironment = "trending") then
    if match rating place with
       | Some r => bool_decide (r > 4)%R
       | None => false
       end && (200 <? reviewCount)%N
    then 3 else 0
  else if decide (preferredEnvironment = "family-friendly") then
    if includes (types place) "park" || includes (types place) "zoo"
       || includes (types place) "amusement_park"
    then 2 else 0
  else 1.

Definition getTimeScore (place : Place) (currentTime : Date)
    (timePreference : string) : R :=
  let hour := getHours currentTime in
  if decide (timePreference = "morning") then
    if (6 <=? hour)%Z && (hour <? 12)%Z then 1 else 0
  else if decide (timePreference = "afternoon") then
    if (12 <=? hour)%Z && (hour <? 17)%Z then 1 else 0
  else if decide (timePreference = "evening") then
    if (17 <=? hour)%Z && (hour <? 22)%Z then 1 else 0
  else if decide (timePreference = "night") then
    if (22 <=? hour)%Z || (hour <? 6)%Z then 1 else 0
  else (1 / 2)%R.

(** The callback of [places.map]: the score is accumulated term by
    term. *)
Definition scorePlace (relevantTypes : list string)
    (ageGroupPrefs : AgeGroupPrefs) (userPreferences : Preferences)
    (context : Context) (place : Place) : ScoredPlace :=
  let score := 0%R in
  let rating := or_R0 (rating place) in
  let reviewCount := or_N (user_ratings_total place) 0 in
  let score := (score + rating * 2)%R in
  let score := (score + Rmin (ln (IZR (Z.of_N reviewCount) + 1)) 5)%R in
  let matchingTypes := List.filter (includes relevantTypes) (types place) in
  let score := (score + INR (length matchingTypes) * 3)%R in
  let ageGroupMatches :=
    List.filter (includes (priorityTypes ageGroupPrefs)) (types place) in
  let score := (score + INR (length ageGroupMatches) * 2)%R in
  let score :=
    match price_level place with
    | Some priceLevel =>
        (score + IZR (getPriceLevelScore priceLevel (priceRange userPreferences)))%R
    | None => score
    end in
  let score :=
    (score + IZR (getEnvironmentScore place (preferredEnvironment userPreferences)))%R in
  let score :=
    match currentTime context with
    | Some now =>
        (score + getTimeScore place now (timePreference userPreferences))%R
    | None => score
    end in
  let score :=
    if decide (business_status place = Some "OPERATIONAL") then (score + 1)%R
    else score in
  {| place := place;
     personalizedScore := score;
     matchingInterests := matchingTypes;
     ageGroupMatch := (0 <? length ageGroupMatches)%nat |}.

Definition byScoreDescending (a b : ScoredPlace) : R :=
  (personalizedScore b - personalizedScore a)%R.

(** What [personalizePlaces] returns: the places it scored, from the
    [try] block, or input places as they came, from the [catch]
    block. *)
Inductive Personalized :=
| Ranked (places : list ScoredPlace)
| Unscored (places : list Place).

(** [personalizePlaces(places, userPreferences, context)].  The places
    are those of the provider, each with its [types].  The [try] block
    throws when [getRelevantPlaceTypes] is handed interests that are
    not an array; the [catch] block then returns the first 15 input
    places. *)
Definition personalizePlaces (places : list Place)
    (userPreferences : Preferences) (context : Context) : Personalized :=
  let attempt : option (list ScoredPlace) :=
    match interests userPreferences with
    | None => None
    | Some interests =>
        let relevantTypes := getRelevantPlaceTypes interests in
        let ageGroupPrefs :=
          default adultPrefs (ageGroupPreferences !! ageGroup userPreferences) in
        let scoredPlaces :=
          map (scorePlace relevantTypes ageGroupPrefs userPreferences context)
              places in
        Some (slice
                (sort byScoreDescending
                      (filter (fun p => (personalizedScore p > 2)%R) scoredPlaces))
                0 (truncate (or_Q (maxResults userPreferences) 15)))
    end in
  match attempt with
  | Some ranked => Ranked ranked
  | None => Unscored (slice places 0 15)
  end.

Definition primaryTypes : list string :=
  [ "restaurant"; "tourist_attraction"; "shopping_mall"; "museum";
    "park"; "night_club"; "bar"; "cafe"; "amusement_park" ].

(** The [for ... of] loop with its early [return]. *)
Fixpoint firstIncluded (candidates types : list string) : option string :=
  match candidates with
  | [] => None
  | type :: rest =>
      if includes types type then Some type else firstIncluded rest types
  end.

Definition getPrimaryPlaceType (types : list string) : string :=
  match firstIncluded primaryTypes types with
  | Some type => type
  | None => or_string (head types) "establishment"
  end.

End PersonalizationService.

(** ** services/googlePlacesService.js *)

Module GooglePlacesService.
Import Js.
Export PersonalizationService.

(** Coordinates are doubles. *)
Record Coords := { lat : Q; lng : Q }.

(** What one [axios.get] on the nearby-search endpoint comes back
    with: the request fails (network error, timeout), or the provider
    answers with a status, possibly a result array and possibly an
    error message. *)
Inductive HttpOutcome :=
| RequestFailed (message : string)
| Answered (status : string) (results : option (list Place))
           (error_message : option string).

(** The provider, as seen from the service: a reply for each request
    (location, type, radius). *)
Definition Provider := Coords -> option string -> Z -> HttpOutcome.

Definition searchNearbyPlaces (provider : Provider) (coords : Coords)
    (type : option string) (radius : Z) : Outcome (list Place) :=
  let attempt :=
    match provider coords type radius with
    | RequestFailed message => Thrown message
    | Answered status results error_message =>
        if bool_decide (status ≠ "OK") && bool_decide (status ≠ "ZERO_RESULTS")
        then Thrown ("Google Places API error: " ++ status ++ " - "
                       ++ or_string error_message "Unknown error")
        else Returned (default [] results)
    end in
  match attempt with
  | Returned places => Returned places
  | Thrown message => Thrown ("Failed to search nearby places: " ++ message)
  end.

(** [Promise.allSettled]: every promise is waited for, and each one
    is reported as fulfilled with its value or rejected with its
    reason; the whole never rejects. *)
Inductive Settled (A : Type) : Type :=
| Fulfilled (value : A)
| Rejected (reason : string).
Arguments Fulfilled {A} value.
Arguments Rejected {A} reason.

Definition settle {A} (o : Outcome A) : Settled A :=
  match o with
  | Returned v => Fulfilled v
  | Thrown reason => Rejected reason
  end.

Definition allSettled {A} (promises : list (Outcome A)) : list (Settled A) :=
  map settle promises.

Record AreaData := {
  landmarks : list Place;
  restaurants : list Place;
  attractions : list Place;
  entertainment : list Place;
  shopping : list Place;
  coordinates : Coords;
  searchRadius : Z
}.

Definition processResult (result : Settled (list Place)) : list Place :=
  match result with
  | Fulfilled value => take 10 value
  | Rejected _ => []
  end.

Definition categoryTypes : list string :=
  ["establishment"; "restaurant"; "tourist_attraction"; "night_club";
   "shopping_mall"].

Definition getAreaInsights (provider : Provider) (defaultRadius : Z)
    (coords : Coords) : Outcome AreaData :=
  match allSettled
          (map (fun type =>
                  searchNearbyPlaces provider coords (Some type) defaultRadius)
               categoryTypes)
  with
  | [landmarks; restaurants; attractions; entertainment; shopping] =>
      Returned
        {| landmarks := processResult landmarks;
           restaurants := processResult restaurants;
           attractions := processResult attractions;
           entertainment := processResult entertainment;
           shopping := processResult shopping;
           coordinates := coords;
           searchRadius := defaultRadius |}
  | _ => Thrown "Failed to get area insights: destructuring"
  end.

End GooglePlacesService.

(** ** controllers/areaInsightsController.js *)

Module AreaInsightsController.
Import Js.
Export PersonalizationService.

(** A parsed JSON request body. *)
#[warnings="-register-all"]
Inductive Json :=
| JNull
| JBool (b : bool)
| JNumber (q : Q)
| JString (s : string)
| JArray (items : list Json)
| JObject (fields : list (string * Json)).

(** [!v] is the negation of this; [None] stands for [undefined]. *)
Definition truthy (v : option Json) : bool :=
  match v with
  | None | Some JNull => false
  | Some (JBool b) => b
  | Some (JNumber q) => negb (Qeq_bool q 0)
  | Some (JString s) => negb (bool_decide (s = ""))
  | Some (JArray _) | Some (JObject _) => true
  end.

Fixpoint assoc (fields : list (string * Json)) (key : string) : option Json :=
  match fields with
  | [] => None
  | (k, v) :: rest => if decide (k = key) then Some v else assoc rest key
  end.

(** [v.key] for the keys the controller reads ([coords], [lat],
    [lng]): only an object can carry them. *)
Definition prop (v : option Json) (key : string) : option Json :=
  match v with
  | Some (JObject fields) => assoc fields key
  | _ => None
  end.

(** [typeof v === 'number'] *)
Definition isNumber (v : option Json) : bool :=
  match v with
  | Some (JNumber _) => true
  | _ => false
  end.

Definition Qltb (a b : Q) : bool := negb (Qle_bool b a).

(** [v < bound] and [v > bound] for a value already known to be a
    number. *)
Definition lessThan (v : option Json) (bound : Q) : bool :=
  match v with
  | Some (JNumber q) => Qltb q bound
  | _ => false
  end.

Definition greaterThan (v : option Json) (bound : Q) : bool :=
  match v with
  | Some (JNumber q) => Qltb bound q
  | _ => false
  end.

Record Validation := { isValid : bool; message : option string }.

Definition invalid (msg : string) : Validation :=
  {| isValid := false; message := Some msg |}.

Definition validateRequest (body : option Json) : Validation :=
  if negb (truthy body) then invalid "Request body is required"
  else
    let coords := prop body "coords" in
    if negb (truthy coords) then invalid "Coordinates are required"
    else if negb (isNumber (prop coords "lat"))
            || negb (isNumber (prop coords "lng"))
    then invalid "Coordinates must be valid numbers"
    else if lessThan (prop coords "lat") (-90)
            || greaterThan (prop coords "lat") 90
    then invalid "Latitude must be between -90 and 90"
    else if lessThan (prop coords "lng") (-180)
            || greaterThan (prop coords "lng") 180
    then invalid "Longitude must be between -180 and 180"
    else {| isValid := true; message := None |}.

Definition calculateHourlyActivity (hour : Z) (places : list Place) : Z :=
  let baseActivity := 30%Z in
  let baseActivity :=
    if (9 <=? hour)%Z && (hour <=? 21)%Z then (baseActivity + 40)%Z
    else baseActivity in
  let baseActivity :=
    if (12 <=? hour)%Z && (hour <=? 14)%Z then (baseActivity + 20)%Z
    else baseActivity in
  let baseActivity :=
    if (18 <=? hour)%Z && (hour <=? 20)%Z then (baseActivity + 30)%Z
    else baseActivity in
  let hasRestaurants :=
    existsb (fun p => includes (types p) "restaurant") places in
  let hasNightlife :=
    existsb (fun p => includes (types p) "night_club"
                      || includes (types p) "bar") places in
  let baseActivity :=
    if hasRestaurants
       && ((hour =? 12)%Z || (hour =? 13)%Z
           || (18 <=? hour)%Z && (hour <=? 20)%Z)
    then (baseActivity + 15)%Z else baseActivity in
  let baseActivity :=
    if hasNightlife && (21 <=? hour)%Z then (baseActivity + 25)%Z
    else baseActivity in
  Z.min 100 (Z.max 10 baseActivity).

Record HourlyActivity := { hour : Z; activityLevel : Z }.

(** [Array.from({ length: 24 }, (_, hour) => ...)]: the callback runs
    on the indices 0 to 23 in order. *)
Definition generateHourlyActivity (places : list Place) : list HourlyActivity :=
  map (fun index : nat =>
         {| hour := Z.of_nat index;
            activityLevel := calculateHourlyActivity (Z.of_nat index) places |})
      (seq 0 24).

End AreaInsightsController.

(** ** services/personalizationService.js: stored preferences *)

Module PreferenceStore.
Import Js Firestore.

Section WithClient.
Context {client : Client}.

(** [this.defaultPreferences], built once when the service is
    constructed. *)
Definition defaultPreferences (constructedAt : Z) : gmap string Value :=
  list_to_map
    [ ("interests", VStrings ["restaurant"; "tourist_attraction"; "shopping_mall"]);
      ("ageGroup", VString "adult");
      ("activityTypes", VStrings ["sightseeing"; "dining"; "shopping"]);
      ("preferredEnvironment", VString "mixed");
      ("priceRange", VString "medium");
      ("timePreference", VString "flexible");
      ("groupSize", VString "small");
      ("accessibilityNeeds", VBool false);
      ("createdAt", VDate constructedAt);
      ("updatedAt", VDate constructedAt) ].

(** [a || b] on a field of a document. *)
Definition or_value (a : option Value) (b : Value) : Value :=
  match a with
  | Some v => if truthy a then v else b
  | None => b
  end.

Definition getUserPreferences (constructedAt : Z) (health : Health) (now : Z)
    (store : gmap string (gmap string Value)) (userId : option string)
  : gmap string Value :=
  let attempt :=
    match userId with
    | None | Some "" => Returned (defaultPreferences constructedAt)
    | Some userId =>
        match Firestore.get health store userId with
        | Thrown message => Thrown message
        | Returned None => Returned (defaultPreferences constructedAt)
        | Returned (Some preferences) =>
            Returned
              (<["updatedAt" := or_value (preferences !! "updatedAt") (VDate now)]>
                 (spread (defaultPreferences constructedAt) preferences))
        end
    end in
  match attempt with
  | Returned preferences => preferences
  | Thrown _ => defaultPreferences constructedAt
  end.

Definition saveUserPreferences (constructedAt : Z) (health : Health) (now : Z)
    (store : gmap string (gmap string Value)) (userId : string)
    (preferences : gmap string Value)
  : Outcome (gmap string Value) * gmap string (gmap string Value) :=
  let preferencesToSave :=
    <["createdAt" := or_value (preferences !! "createdAt") (VDate now)]>
      (<["updatedAt" := VDate now]>
         (<["userId" := VString userId]>
            (spread (defaultPreferences constructedAt) preferences))) in
  match Firestore.set_merge health store userId preferencesToSave with
  | Returned store' => (Returned preferencesToSave, store')
  | Thrown message =>
      (Thrown ("Failed to save user preferences: " ++ message), store)
  end.

End WithClient.

End PreferenceStore.

(** ** controllers/userPreferencesController.js *)

Module UserPreferencesController.
Import Js Firestore.

Section WithClient.
Context {client : Client}.

Definition getAvailableInterests : list string :=
  ["food"; "nightlife"; "culture"; "history"; "shopping"; "entertainment";
   "nature"; "fitness"; "business"; "health"; "travel"; "services"].

Definition getAvailableAgeGroups : list string :=
  ["young"; "adult"; "senior"; "family"].

Definition validEnvironments : list string :=
  ["quiet"; "busy"; "trending"; "family-friendly"; "mixed"].

Definition validPriceRanges : list string :=
  ["budget"; "low"; "medium"; "comfortable"; "luxury"].

(** [options.includes(value)] for a field value: only a string can be
    one of the options. *)
Definition oneOf (options : list string) (v : option Value) : bool :=
  match v with
  | Some (VString s) => includes options s
  | _ => false
  end.

(** The result of [validatePreferences]: [None] when the data is
    valid, the message otherwise (the lists interpolated into the
    messages are left out). *)
Definition validatePreferences (preferences : option (gmap string Value))
  : option string :=
  match preferences with
  | None => Some "Preferences data is required"
  | Some preferences =>
      if match preferences !! "interests" with
         | Some (VStrings interests) =>
             negb (forallb (includes getAvailableInterests) interests)
         | _ => false
         end
      then Some "Invalid interests"
      else if truthy (preferences !! "ageGroup")
              && negb (oneOf getAvailableAgeGroups (preferences !! "ageGroup"))
      then Some "Invalid age group"
      else if truthy (preferences !! "preferredEnvironment")
              && negb (oneOf validEnvironments (preferences !! "preferredEnvironment"))
      then Some "Invalid preferred environment"
      else if truthy (preferences !! "priceRange")
              && negb (oneOf validPriceRanges (preferences !! "priceRange"))
      then Some "Invalid price range"
      else None
  end.

Inductive Response :=
| Status200 (userId : string) (preferences : gmap string Value)
| Status400 (code : string)
| Status500 (message : string).

(** The clock readings and backend health met by one update request,
    in the order the handler meets them. *)
Record UpdateEnv := {
  constructedAt : Z;
  readHealth : Health;
  readAt : Z;
  mergedAt : Z;
  writeHealth : Health;
  savedAt : Z
}.

Definition updateUserPreferences (env : UpdateEnv)
    (store : gmap string (gmap string Value))
    (userId : option string) (preferences : option (gmap string Value))
  : Response * gmap string (gmap string Value) :=
  match userId with
  | None | Some "" => (Status400 "MISSING_USER_ID", store)
  | Some userId =>
      match validatePreferences preferences, preferences with
      | Some _, _ | _, None => (Status400 "VALIDATION_ERROR", store)
      | None, Some preferences =>
          let existingPreferences :=
            PreferenceStore.getUserPreferences
              (constructedAt env) (readHealth env) (readAt env) store (Some userId) in
          let mergedPreferences :=
            <["updatedAt" := VDate (mergedAt env)]>
              (spread existingPreferences preferences) in
          match PreferenceStore.saveUserPreferences
                  (constructedAt env) (writeHealth env) (savedAt env)
                  store userId mergedPreferences
          with
          | (Returned savedPreferences, store') =>
              (Status200 userId savedPreferences, store')
          | (Thrown message, store') => (Status500 message, store')
          end
      end
  end.

End WithClient.

End UserPreferencesController.

(** ** services/firebaseService.js: the area cache *)

Module FirebaseService.
Import Js Firestore.
Export GooglePlacesService.

Section WithClient.
Context {client : Client}.

(** [Number.prototype.toString] on a number with a finite decimal
    expansion: sign, integer part and, when there is one, the
    fractional digits. *)
Fixpoint fractionDigits (fuel : nat) (remainder denominator : Z) : string :=
  match fuel with
  | O => ""
  | S fuel =>
      if (remainder =? 0)%Z then ""
      else pretty (remainder * 10 / denominator)%Z
           ++ fractionDigits fuel (remainder * 10 mod denominator)%Z denominator
  end.

Definition numberToString (q : Q) : string :=
  let numerator := Z.abs (Qnum q) in
  let denominator := Z.pos (Qden q) in
  let fraction := (numerator mod denominator)%Z in
  (if (Qnum q <? 0)%Z then "-" else "")
    ++ pretty (numerator / denominator)%Z
    ++ (if (fraction =? 0)%Z then ""
        else "." ++ fractionDigits 20 fraction denominator).

(** [generateCacheKey(coords, radius)].  The product
    [coords.lat * 1000] is a product of doubles.  The quotient of the
    rounded product by 1000 is the double nearest to a number of at
    most three decimals, which [toString] prints with these decimals
    (for coordinates of at most twelve integer digits, as all
    validated ones are), so that the quotient is written exactly. *)
Definition generateCacheKey (coords : Coords) (radius : Z) : string :=
  let lat := (inject_Z (Math_round (times (lat coords) 1000)) / 1000)%Q in
  let lng := (inject_Z (Math_round (times (lng coords) 1000)) / 1000)%Q in
  numberToString lat ++ "_" ++ numberToString lng ++ "_" ++ pretty radius.

Definition defaultRadius : Z := 3000.

Record CacheEntry := {
  areaData : AreaData;
  cachedAt : Z;
  accessCount : Z;
  lastAccessed : Z
}.

(** [this.cacheTTL], in hours: [CACHE_TTL_HOURS] when it parses to a
    non-zero number, 24 otherwise. *)
Definition cacheTTL (CACHE_TTL_HOURS : option Z) : Z := or_Z CACHE_TTL_HOURS 24.

(** What one lookup meets: the backend health at the read and at the
    delete, and the clock. *)
Record LookupEnv := {
  readHealth : Health;
  now : Z;
  deleteHealth : Health
}.

(** The promise returned by [getCachedAreaData], with the collection
    as the call leaves it. [None] is [null]. *)
Definition getCachedAreaData (cacheTTL : Z) (env : LookupEnv)
    (cache : gmap string CacheEntry) (cacheKey : string)
  : Outcome (option AreaData) * gmap string CacheEntry :=
  let attempt :=
    match Firestore.get (readHealth env) cache cacheKey with
    | Thrown message => (Thrown message, cache)
    | Returned None => (Returned None, cache)
    | Returned (Some data) =>
        let cacheAge := (now env - cachedAt data)%Z in
        let maxAge := (cacheTTL * 60 * 60 * 1000)%Z in
        if (cacheAge >? maxAge)%Z then
          match Firestore.delete (deleteHealth env) cache cacheKey with
          | Thrown message => (Thrown message, cache)
          | Returned cache' => (Returned None, cache')
          end
        else (Returned (Some (areaData data)), cache)
    end in
  match attempt with
  | (Thrown _, cache') => (Returned None, cache')
  | settled => settled
  end.

(** What one write meets. *)
Record WriteEnv := {
  cachedAtNow : Z;
  lastAccessedNow : Z;
  writeHealth : Health
}.

Definition cacheAreaData (env : WriteEnv) (cache : gmap string CacheEntry)
    (cacheKey : string) (areaData : AreaData)
  : Outcome unit * gmap string CacheEntry :=
  let cacheEntry :=
    {| areaData := areaData;
       cachedAt := cachedAtNow env;
       accessCount := 1;
       lastAccessed := lastAccessedNow env |} in
  match Firestore.set (writeHealth env) cache cacheKey cacheEntry with
  | Returned cache' => (Returned tt, cache')
  | Thrown _ => (Returned tt, cache)
  end.

End WithClient.

End FirebaseService.

(** ** utils/helpers: array and control-flow utilities *)

Module Utils.
Import Js.

(** [removeDuplicates(array, property)]: [key] reads the property; the
    [Set] of keys seen so far is threaded through the [filter]
    callback. *)
Section RemoveDuplicates.
Context {A K : Type} `{EqDecision K} (key : A → K).

Fixpoint removeDuplicatesFrom (seen : list K) (array : list A) : list A :=
  match array with
  | [] => []
  | item :: rest =>
      if decide (key item ∈ seen) then removeDuplicatesFrom seen rest
      else item :: removeDuplicatesFrom (key item :: seen) rest
  end.

Definition removeDuplicates (array : list A) : list A :=
  removeDuplicatesFrom [] array.
End RemoveDuplicates.

Record Pagination := {
  currentPage : Z;
  totalPages : Z;
  totalItems : Z;
  itemsPerPage : Z;
  hasNextPage : bool;
  hasPreviousPage : bool
}.

(** [paginate(array, page, limit)] for a page size that is a positive
    integer; [Math.ceil] of the quotient of two integers is the
    negated floor of the negated quotient. *)
Definition paginate {A} (array : list A) (page : Z) (limit : positive)
  : list A * Pagination :=
  let offset := ((page - 1) * Z.pos limit)%Z in
  let totalItems := Z.of_nat (length array) in
  let totalPages := (- (- totalItems / Z.pos limit))%Z in
  let items := slice array offset (offset + Z.pos limit) in
  (items,
   {| currentPage := page;
      totalPages := totalPages;
      totalItems := totalItems;
      itemsPerPage := Z.pos limit;
      hasNextPage := (page <? totalPages)%Z;
      hasPreviousPage := (1 <? page)%Z |}).

(** [normalizePlaceTypes] *)
Definition typeMapping : gmap string string :=
  list_to_map
    [ ("meal_delivery", "restaurant"); ("meal_takeaway", "restaurant");
      ("food", "restaurant"); ("point_of_interest", "attraction");
      ("establishment", "general") ].

Definition normalizePlaceTypes (types : list string) : list string :=
  map (fun type => or_string (typeMapping !! type) type) types.

(** [retryWithBackoff(fn, maxRetries, baseDelay)].  [fn attempt] is
    the outcome of the call of [fn] made at the given attempt (counted
    from 1).  The result records what the promise settles to, the
    delays waited for, in order, and the number of calls made.  A
    rejection carries the error thrown, [None] standing for the
    [undefined] that is thrown when the loop never ran. *)
Inductive Settlement (A : Type) : Type :=
| Resolved (value : A)
| RejectedWith (error : option string).
Arguments Resolved {A} value.
Arguments RejectedWith {A} error.

Record Retry (A : Type) := {
  settlement : Settlement A;
  delays : list Z;
  calls : nat
}.
Arguments settlement {A}.
Arguments delays {A}.
Arguments calls {A}.

(** The [for] loop from [attempt] on, with [remaining] iterations
    left. *)
Fixpoint retryLoop {A} (fn : nat → Outcome A) (maxRetries : nat) (baseDelay : Z)
    (remaining attempt : nat) (lastError : option string) : Retry A :=
  match remaining with
  | O => {| settlement := RejectedWith lastError; delays := []; calls := 0 |}
  | S remaining =>
      match fn attempt with
      | Returned value =>
          {| settlement := Resolved value; delays := []; calls := 1 |}
      | Thrown error =>
          if decide (attempt = maxRetries) then
            {| settlement := RejectedWith (Some error); delays := []; calls := 1 |}
          else
            let delay := (baseDelay * 2 ^ (Z.of_nat attempt - 1))%Z in
            let later :=
              retryLoop fn maxRetries baseDelay remaining (S attempt) (Some error) in
            {| settlement := settlement later;
               delays := delay :: delays later;
               calls := S (calls later) |}
      end
  end.

Definition retryWithBackoff {A} (fn : nat → Outcome A) (maxRetries : nat)
    (baseDelay : Z) : Retry A :=
  retryLoop fn maxRetries baseDelay maxRetries 1 None.

(** [shuffleArray(array)]: [randoms k] is the value of the call of
    [Math.random()] number [k], a number from 0 (included) to 1
    (excluded), so that [j] is an index of the array; [i] runs from the
    last index down to 1.  The exchange of two elements is written for
    indices of the array. *)
Definition swap {A} (array : list A) (i j : nat) : list A :=
  match array !! i, array !! j with
  | Some x, Some y => <[j := x]> (<[i := y]> array)
  | _, _ => array
  end.

Fixpoint shuffleFrom {A} (shuffled : list A) (i : nat) (randoms : nat → Q)
    (drawn : nat) : list A :=
  match i with
  | O => shuffled
  | S i' =>
      let j := Z.to_nat (Qfloor (randoms drawn * inject_Z (Z.of_nat i + 1))) in
      shuffleFrom (swap shuffled i j) i' randoms (S drawn)
  end.

(** The pairs of positions [(i, j)] that the loop exchanges, in
    order, for an array of [i + 1] items. *)
Fixpoint exchanges (i : nat) (randoms : nat → Q) (drawn : nat) : list (nat * nat) :=
  match i with
  | O => []
  | S i' =>
      (i, Z.to_nat (Qfloor (randoms drawn * inject_Z (Z.of_nat i + 1))))
        :: exchanges i' randoms (S drawn)
  end.

Definition shuffleArray {A} (array : list A) (randoms : nat → Q) : list A :=
  shuffleFrom array (length array - 1) randoms 0.

End Utils.

(** ** controllers/userPreferencesController.js: the other handlers *)

Module PreferenceHandlers.
Import Js Firestore.

Section WithClient.
Context {client : Client}.


(** [GET /api/user/preferences/:userId]: the preferences and
    [metadata.isDefault]. *)
Inductive GetResponse :=
| GetMissingUserId
| GetOk (preferences : gmap string Value) (isDefault : bool).

Definition getUserPreferences (constructedAt : Z) (health : Health) (now : Z)
    (store : gmap string (gmap string Value)) (userId : option string)
  : GetResponse :=
  match userId with
  | None | Some "" => GetMissingUserId
  | Some _ =>
      let preferences :=
        PreferenceStore.getUserPreferences constructedAt health now store userId in
      GetOk preferences (negb (truthy (preferences !! "userId")))
  end.

(** [POST /api/user/preferences]: [userId] is the one of the body, or
    a fresh identifier when the body has none. *)
Inductive SaveResponse :=
| SaveInvalid (message : string)
| SaveCreated (userId : string) (preferences : gmap string Value)
| SaveFailed (message : string).

Definition saveUserPreferences (constructedAt : Z) (health : Health) (now : Z)
    (uuid : string) (store : gmap string (gmap string Value))
    (userId : option string) (preferences : option (gmap string Value))
  : SaveResponse * gmap string (gmap string Value) :=
  match UserPreferencesController.validatePreferences preferences, preferences with
  | Some message, _ => (SaveInvalid message, store)
  | None, None => (SaveInvalid "Preferences data is required", store)
  | None, Some preferences =>
      let userId := default uuid userId in
      match PreferenceStore.saveUserPreferences
              constructedAt health now store userId preferences
      with
      | (Returned savedPreferences, store') =>
          (SaveCreated userId savedPreferences, store')
      | (Thrown message, store') => (SaveFailed message, store')
      end
  end.

(** [DELETE /api/user/preferences/:userId] *)
Inductive DeleteResponse :=
| DeleteMissingUserId
| DeleteOk
| DeleteFailed (message : string).

Definition deleteUserPreferences (health : Health)
    (store : gmap string (gmap string Value)) (userId : option string)
  : DeleteResponse * gmap string (gmap string Value) :=
  match userId with
  | None | Some "" => (DeleteMissingUserId, store)
  | Some userId =>
      match Firestore.delete health store userId with
      | Returned store' => (DeleteOk, store')
      | Thrown message => (DeleteFailed message, store)
      end
  end.

End WithClient.

End PreferenceHandlers.

(** ** services/firebaseService.js: maintenance and statistics *)

Module CacheMaintenance.
Import Js Firestore.
Export FirebaseService.

Section WithClient.
Context {client : Client}.

(** [updateCacheAccess(cacheKey)].  The object handed to
    [docRef.update] is
    [{ accessCount: admin.firestore.FieldValue.increment(1), ... }],
    and the module binds no [admin] (it requires [getDb] and
    [Collections] from the configuration, and [uuid]): evaluating the
    argument throws a [ReferenceError] inside the [try], after
    [getDb()] and [doc(cacheKey)] and before the store is asked
    anything.  The [catch] logs the error and the promise resolves. *)
Definition updateCacheAccess (health : Health)
    (cache : gmap string CacheEntry) (cacheKey : string)
  : Outcome unit * gmap string CacheEntry :=
  let attempt : Outcome (gmap string CacheEntry) :=
    match reach health cacheKey tt with
    | Thrown message => Thrown message
    | Returned _ => Thrown "admin is not defined"
    end in
  match attempt with
  | Returned cache' => (Returned tt, cache')
  | Thrown _ => (Returned tt, cache)
  end.

(** [cleanupExpiredCache()]: the query for the entries cached before
    the cut-off, the batch that deletes them, committed when it is not
    empty, and the number of entries deleted; [0] when the query or the
    commit fails. *)
Definition cleanupExpiredCache (cacheTTL : Z) (queryHealth commitHealth : Health)
    (now : Z) (cache : gmap string CacheEntry)
  : Outcome nat * gmap string CacheEntry :=
  let maxAge := (cacheTTL * 60 * 60 * 1000)%Z in
  let cutoffTime := (now - maxAge)%Z in
  let attempt :=
    match queryHealth with
    | Failing message => (Thrown message, cache)
    | Healthy =>
        let snapshot :=
          filter (fun doc : string * CacheEntry => (cachedAt doc.2 < cutoffTime)%Z)
                 cache in
        let deleteCount := size snapshot in
        if (0 <? deleteCount)%nat then
          match commitHealth with
          | Healthy => (Returned deleteCount, cache ∖ snapshot)
          | Failing message => (Thrown message, cache)
          end
        else (Returned deleteCount, cache)
    end in
  match attempt with
  | (Thrown _, cache') => (Returned 0%nat, cache')
  | settled => settled
  end.

(** What the cache service can do to the cache collection. *)
Inductive CacheStep : relation (gmap string CacheEntry) :=
| step_lookup (cacheTTL : Z) (env : LookupEnv) (cacheKey : string) cache :
    CacheStep cache (getCachedAreaData cacheTTL env cache cacheKey).2
| step_write (env : WriteEnv) (cacheKey : string) (areaData : AreaData) cache :
    CacheStep cache (cacheAreaData env cache cacheKey areaData).2
| step_touch (health : Health) (cacheKey : string) cache :
    CacheStep cache (updateCacheAccess health cache cacheKey).2
| step_cleanup (cacheTTL : Z) (queryHealth commitHealth : Health) (now : Z) cache :
    CacheStep cache
      (cleanupExpiredCache cacheTTL queryHealth commitHealth now cache).2.

(** A record of the popular-areas collection. *)
Record PopularArea := {
  pa_coordinates : Coords;
  searchCount : Z;
  lastSearched : Z;
  averageUserInterests : list string;
  pa_createdAt : Z
}.

(** [trackPopularArea(coords, searchData)].  For an area that has a
    record, the object handed to [docRef.update] starts with
    [searchCount: admin.firestore.FieldValue.increment(1)], whose
    evaluation throws as in [updateCacheAccess]; the [catch] logs the
    error.  [userInterests] is [searchData.userInterests]. *)
Definition trackPopularArea (readHealth writeHealth : Health)
    (lastSearchedNow createdAtNow : Z)
    (areas : gmap string PopularArea) (coords : Coords)
    (userInterests : option (list string))
  : Outcome unit * gmap string PopularArea :=
  let areaId := generateCacheKey coords 1000 in
  let popularAreaData :=
    {| pa_coordinates := coords;
       searchCount := 1;
       lastSearched := lastSearchedNow;
       averageUserInterests := default [] userInterests;
       pa_createdAt := createdAtNow |} in
  let attempt :=
    match Firestore.get readHealth areas areaId with
    | Thrown message => Thrown message
    | Returned (Some existingData) => Thrown "admin is not defined"
    | Returned None => Firestore.set writeHealth areas areaId popularAreaData
    end in
  match attempt with
  | Returned areas' => (Returned tt, areas')
  | Thrown _ => (Returned tt, areas)
  end.

End WithClient.

End CacheMaintenance.

(** ** services/personalizationService.js: the recommendations summary *)

Module Recommendations.
Import Js.
Export PersonalizationService.
Local Open Scope list_scope.

Record PersonalizationFactors := {
  pf_interests : option (list string);
  pf_ageGroup : string;
  pf_preferredEnvironment : string;
  pf_priceRange : string
}.

(** The summary without [generatedAt], the time of the call as an ISO
    string. *)
Record RecommendationsSummary := {
  totalRecommendations : nat;
  topRecommendations : list ScoredPlace;
  categorizedRecommendations : gmap string (list ScoredPlace);
  personalizationFactors : PersonalizationFactors
}.

(** The callback of [topPlaces.forEach]: the category of the primary
    type is created empty when it is missing, and the place is pushed
    on it. *)
Definition categorize (categories : gmap string (list ScoredPlace))
    (scored : ScoredPlace) : gmap string (list ScoredPlace) :=
  let primaryType := getPrimaryPlaceType (types (place scored)) in
  let categories :=
    if decide (is_Some (categories !! primaryType)) then categories
    else <[primaryType := []]> categories in
  alter (fun members => members ++ [scored]) primaryType categories.

Definition generateRecommendationsSummary (personalizedPlaces : list ScoredPlace)
    (userPreferences : Preferences) : RecommendationsSummary :=
  let topPlaces := take 5 personalizedPlaces in
  let categories := foldl categorize ∅ topPlaces in
  {| totalRecommendations := length personalizedPlaces;
     topRecommendations := topPlaces;
     categorizedRecommendations := categories;
     personalizationFactors :=
       {| pf_interests := interests userPreferences;
          pf_ageGroup := ageGroup userPreferences;
          pf_preferredEnvironment := preferredEnvironment userPreferences;
          pf_priceRange := priceRange userPreferences |} |}.

End Recommendations.

(** ** controllers/areaInsightsController.js: the figures of the answer *)

Module AreaFigures.
Import Js.
Export AreaInsightsController.

(** [calculatePriceDistribution(places)].  The counters of the levels
    0 to 4, keyed by level, and the counter [unknown]. *)
Record PriceDistribution := {
  byLevel : gmap Z nat;
  unknown : nat
}.

Definition emptyDistribution : PriceDistribution :=
  {| byLevel := list_to_map [(0, 0%nat); (1, 0%nat); (2, 0%nat); (3, 0%nat);
                             (4, 0%nat)]%Z;
     unknown := 0 |}.

(** The callback of [places.forEach]; [distribution[priceLevel]++]
    reads the counter and stores its successor. *)
Definition countPriceLevel (distribution : PriceDistribution) (place : Place)
  : PriceDistribution :=
  match price_level place with
  | Some priceLevel =>
      if (0 <=? priceLevel)%Z && (priceLevel <=? 4)%Z then
        {| byLevel :=
             <[priceLevel := S (default 0%nat (byLevel distribution !! priceLevel))]>
               (byLevel distribution);
           unknown := unknown distribution |}
      else
        {| byLevel := byLevel distribution;
           unknown := S (unknown distribution) |}
  | None =>
      {| byLevel := byLevel distribution;
         unknown := S (unknown distribution) |}
  end.

Definition calculatePriceDistribution (places : list Place) : PriceDistribution :=
  foldl countPriceLevel emptyDistribution places.

Definition getCurrentCrowdLevel (hour : Z) : string :=
  let activity := calculateHourlyActivity hour [] in
  if (activity <? 30)%Z then "Low"
  else if (activity <? 60)%Z then "Moderate"
  else if (activity <? 80)%Z then "High"
  else "Very High".

Record CrowdLevel := { cl_hour : Z; level : string }.

(** [getPredictedCrowdLevels()], with the hour of the clock it reads;
    [%] is the remainder of the truncated division. *)
Definition getPredictedCrowdLevels (currentHour : Z) : list CrowdLevel :=
  map (fun i : nat =>
         let hour := Z.rem (currentHour + Z.of_nat i + 1) 24 in
         {| cl_hour := hour; level := getCurrentCrowdLevel hour |})
      (seq 0 6).

End AreaFigures.

(** ** services/googlePlacesService.js: filtered places *)

Module PlacesFilters.
Import Js.
Export GooglePlacesService.

(** The filtering criteria; [None] is a criterion that was not
    given, [openOnly] is false when it was not given. *)
Record Filters := {
  minRating : option R;
  minReviews : option N;
  openOnly : bool;
  f_types : option (list string);
  maxPriceLevel : option Z
}.

(** The callback of [places.filter].  A criterion that is 0 is falsy,
    and a comparison with a field the place does not have is false. *)
Definition keepPlace (filters : Filters) (place : Place) : bool :=
  if match minRating filters with
     | Some minimum =>
         negb (bool_decide (minimum = 0%R))
         && match rating place with
            | Some r => bool_decide (r < minimum)%R
            | None => false
            end
     | None => false
     end
  then false
  else if match minReviews filters with
          | Some minimum =>
              negb (minimum =? 0)%N
              && match user_ratings_total place with
                 | Some n => (n <? minimum)%N
                 | None => false
                 end
          | None => false
          end
  then false
  else if openOnly filters
          && negb (bool_decide (business_status place = Some "OPERATIONAL"))
  then false
  else if match f_types filters with
          | Some wanted =>
              (0 <? length wanted)%nat
              && negb (existsb (includes (types place)) wanted)
          | None => false
          end
  then false
  else if match maxPriceLevel filters with
          | Some maximum =>
              negb (maximum =? 0)%Z
              && match price_level place with
                 | Some level => (maximum <? level)%Z
                 | None => false
                 end
          | None => false
          end
  then false
  else true.

(** [(a.rating || 0) * Math.log(a.user_ratings_total || 1)] *)
Definition popularity (place : Place) : R :=
  (or_R0 (rating place)
   * ln (IZR (Z.of_N (or_N (user_ratings_total place) 1))))%R.

Definition byPopularity (a b : Place) : R := (popularity b - popularity a)%R.

Definition getFilteredPlaces (provider : Provider) (defaultRadius : Z)
    (coords : Coords) (filters : Filters) : Outcome (list Place) :=
  let attempt :=
    match searchNearbyPlaces provider coords None defaultRadius with
    | Thrown message => Thrown message
    | Returned places =>
        Returned (sort byPopularity (List.filter (keepPlace filters) places))
    end in
  match attempt with
  | Returned places => Returned places
  | Thrown message => Thrown ("Failed to get filtered places: " ++ message)
  end.

End PlacesFilters.

(** ** controllers/areaInsightsController.js: where the area data come from *)

Module AreaInsightsHandler.
Import Js Firestore.
Export CacheMaintenance AreaInsightsController.

Section WithClient.
Context {client : Client}.

(** What one request meets: the cache TTL of the cache service, the
    store at the lookup, at the write and at the access update, the
    places provider and the search radius of the places service. *)
Record RequestEnv := {
  ttl : Z;
  atLookup : LookupEnv;
  atWrite : WriteEnv;
  atAccessUpdate : Health;
  provider : Provider;
  searchRadiusOfService : Z
}.

(** [const { coords } = req.body], for a body that passed the
    validation. *)
Definition coordsOf (body : option Json) : option Coords :=
  match prop (prop body "coords") "lat", prop (prop body "coords") "lng" with
  | Some (JNumber lat), Some (JNumber lng) => Some {| lat := lat; lng := lng |}
  | _, _ => None
  end.

(** How far [getAreaInsights(req, res)] has come when [areaData] and
    [fromCache] have their values. *)
Inductive Loaded :=
| BadRequest (message : option string)
| AreaLoaded (areaData : AreaData) (fromCache : bool)
| InternalServerError (message : string).

(** [getAreaInsights(req, res)] from the validation of the body to
    the values of [areaData] and [fromCache], with the cache
    collection as this part of the handler leaves it.  A body that
    passed the validation has numeric coordinates, so that the second
    branch is not taken. *)
Definition loadAreaData (env : RequestEnv) (cache : gmap string CacheEntry)
    (body : option Json) : Loaded * gmap string CacheEntry :=
  let validation := validateRequest body in
  if negb (isValid validation) then (BadRequest (message validation), cache)
  else
    match coordsOf body with
    | None => (InternalServerError "coords", cache)
    | Some coords =>
        let cacheKey := generateCacheKey coords defaultRadius in
        match getCachedAreaData (ttl env) (atLookup env) cache cacheKey with
        | (Thrown message, cache) => (InternalServerError message, cache)
        | (Returned (Some areaData), cache) =>
            match updateCacheAccess (atAccessUpdate env) cache cacheKey with
            | (Thrown message, cache) => (InternalServerError message, cache)
            | (Returned _, cache) => (AreaLoaded areaData true, cache)
            end
        | (Returned None, cache) =>
            match GooglePlacesService.getAreaInsights
                    (provider env) (searchRadiusOfService env) coords with
            | Thrown message => (InternalServerError message, cache)
            | Returned areaData =>
                match cacheAreaData (atWrite env) cache cacheKey areaData with
                | (Thrown message, cache) => (InternalServerError message, cache)
                | (Returned _, cache) => (AreaLoaded areaData false, cache)
                end
            end
        end
    end.

End WithClient.

End AreaInsightsHandler.

(** ** utils/helpers: the period of the day *)

Module TimePeriods.
Import Js.
Export PersonalizationService.

Definition getTimePeriod (hour : Z) : string :=
  if (5 <=? hour)%Z && (hour <? 12)%Z then "morning"
  else if (12 <=? hour)%Z && (hour <? 17)%Z then "afternoon"
  else if (17 <=? hour)%Z && (hour <? 21)%Z then "evening"
  else "night".

End TimePeriods.

(** ** The specification's own formulas

    Definitions that follow the words of the specification, to be
    compared with the functions above. *)

Module Specification.
Import Js PersonalizationService.

(** "priceRange maps to index 0..4 (budget=0 ... luxury=4)" *)
Definition preferredLevelIndex (priceRange : string) : option Z :=
  if decide (priceRange = "budget") then Some 0%Z
  else if decide (priceRange = "low") then Some 1%Z
  else if decide (priceRange = "medium") then Some 2%Z
  else if decide (priceRange = "comfortable") then Some 3%Z
  else if decide (priceRange = "luxury") then Some 4%Z
  else None.

(** "max(0, 2 - |priceLevel - preferredLevelIndex|)" *)
Definition priceLevelScore (priceLevel : Z) (priceRange : string) : option Z :=
  index ← preferredLevelIndex priceRange;
  Some (Z.max 0 (2 - Z.abs (priceLevel - index))).

(** "the first tag of the fixed ordered priority list that occurs in
    the place's tags" *)
Definition firstPriorityTag (tags : list string) (tag : string) : Prop :=
  ∃ i : nat,
    primaryTypes !! i = Some tag ∧ tag ∈ tags ∧
    ∀ (j : nat) (earlier : string),
      (j < i)%nat → primaryTypes !! j = Some earlier → earlier ∉ tags.

(** "map each of the user's declared interests through a fixed
    interest→category-tag table ...; union the results into a
    relevantTags set.  Unmapped interest strings pass through
    unchanged as literal tags." *)
Definition relevantTag (interests : list string) (tag : string) : Prop :=
  Exists (fun interest => tag ∈ default [interest] (interestMapping !! interest))
         interests.

#[export] Instance relevantTag_dec (interests : list string) (tag : string) :
  Decision (relevantTag interests tag) := Exists_dec _ _.

(** "the age-group priority tags": those of the user's age group, and
    those of [adult] for an age group outside the table. *)
Definition priorityTags (ageGroup : string) : list string :=
  priorityTypes (default adultPrefs (ageGroupPreferences !! ageGroup)).

(** "the price-level score when the place has a price level":
    "contributes 0 if place has no price level".  A price range
    outside the five of the table has no index and gives no term. *)
Definition priceTerm (place : Place) (priceRange : string) : option Z :=
  match price_level place with
  | Some priceLevel => priceLevelScore priceLevel priceRange
  | None => Some 0%Z
  end.

(** "quiet→2 if reviewCount<100 else 0; busy→2 if reviewCount>500 else
    0; trending→3 if rating>4.0 AND reviewCount>200 else 0;
    family-friendly→2 if place has a family-oriented tag else 0;
    mixed/other→flat 1", an absent review count being 0 and an absent
    rating not above 4.0.  The specification does not name the
    family-oriented tags; they are the three the engine looks for. *)
Definition familyTags : list string := ["park"; "zoo"; "amusement_park"].

Definition environmentScore (place : Place) (environment : string) : Z :=
  let reviewCount := default 0%N (user_ratings_total place) in
  if decide (environment = "quiet") then
    if decide (reviewCount < 100)%N then 2 else 0
  else if decide (environment = "busy") then
    if decide (500 < reviewCount)%N then 2 else 0
  else if decide (environment = "trending") then
    match rating place with
    | Some r => if decide ((r > 4)%R ∧ (200 < reviewCount)%N) then 3 else 0
    | None => 0
    end
  else if decide (environment = "family-friendly") then
    if decide (Exists (fun tag => tag ∈ types place) familyTags) then 2 else 0
  else 1.

(** "1 if current hour falls within the matching named window
    (morning 6–12, afternoon 12–17, evening 17–22, night 22–6), else
    0; flexible→flat 0.5".  A window ends before its last hour; the
    window of the night goes through midnight.  A preference that
    names no window gets the flat 0.5 of [flexible]. *)
Definition window (preference : string) : option (Z * Z) :=
  if decide (preference = "morning") then Some (6, 12)%Z
  else if decide (preference = "afternoon") then Some (12, 17)%Z
  else if decide (preference = "evening") then Some (17, 22)%Z
  else if decide (preference = "night") then Some (22, 6)%Z
  else None.

Definition within (w : Z * Z) (hour : Z) : bool :=
  if (w.1 <=? w.2)%Z then (w.1 <=? hour)%Z && (hour <? w.2)%Z
  else (w.1 <=? hour)%Z || (hour <? w.2)%Z.

Definition timeScore (hour : Z) (preference : string) : R :=
  match window preference with
  | Some w => if within w hour then 1 else 0
  | None => 1 / 2
  end.

(** The terms of the score that come before the environment, time and
    operating terms, for a user with the given interests: "rating*2",
    "min(ln(reviewCount + 1), 5)", "3 per tag" of the place among the
    relevant tags, "2 per tag" among the priority tags, and the price
    term.  The tags of a place are taken as it lists them. *)
Definition baseScore (place : Place) (interests : list string)
    (preferences : Preferences) : option R :=
  price ← priceTerm place (priceRange preferences);
  Some (default 0 (rating place) * 2
        + Rmin (ln (IZR (Z.of_N (default 0%N (user_ratings_total place))) + 1)) 5
        + 3 * INR (length (filter (relevantTag interests) (types place)))
        + 2 * INR (length (filter (fun tag => tag ∈ priorityTags (ageGroup preferences))
                                  (types place)))
        + IZR price)%R.

(** The score of a place for a user at a given time, as a sum. *)
Definition score (place : Place) (interests : list string)
    (preferences : Preferences) (now : Date) : option R :=
  base ← baseScore place interests preferences;
  Some (base
        + IZR (environmentScore place (preferredEnvironment preferences))
        + timeScore (getHours now) (timePreference preferences)
        + (if decide (business_status place = Some "OPERATIONAL") then 1 else 0))%R.

(** "the same rounding cell": the coordinates that rounding to three
    decimals sends to the grid point [n / 1000], that is, those whose
    thousandfold, a product of doubles, lies from [n - 0.5]
    (included) to [n + 0.5] (excluded). *)
Definition inCell (n : Z) (x : Q) : Prop :=
  (inject_Z n - (1 # 2) <= times x 1000)%Q
  ∧ (times x 1000 < inject_Z n + (1 # 2))%Q.

(** A preference record as [saveUserPreferences] writes it: it
    carries its user id, a creation date and every field of the
    default record. *)
Definition recordFields : list string :=
  ["interests"; "ageGroup"; "activityTypes"; "preferredEnvironment";
   "priceRange"; "timePreference"; "groupSize"; "accessibilityNeeds";
   "createdAt"; "updatedAt"].

Definition storedRecord (userId : string)
    (record : gmap string Firestore.Value) : Prop :=
  record !! "userId" = Some (Firestore.VString userId)
  ∧ Firestore.truthy (record !! "createdAt") = true
  ∧ Forall (fun field => is_Some (record !! field)) recordFields.

End Specification.

(** ** Sample data *)

Module Samples.
Import Js Firestore PersonalizationService GooglePlacesService.
Import AreaInsightsController.

(** The request body [{ coords: { lat, lng } }]. *)
Definition coordsBody (lat lng : Json) : option Json :=
  Some (JObject [("coords", JObject [("lat", lat); ("lng", lng)])]).

(** An area in which the provider found nothing. *)
Definition emptyArea : AreaData :=
  {| landmarks := []; restaurants := []; attractions := [];
     entertainment := []; shopping := [];
     coordinates := {| lat := double (407128 # 10000);
                       lng := double (-740060 # 10000) |};
     searchRadius := 3000 |}.

(** A client, for the concrete inputs below. *)
Definition sampleClient : Client :=
  {| invalidPathMessage := "invalid document path" |}.

(** A stored record of a user interested in food. *)
Definition aliceRecord : gmap string Value :=
  <["userId" := VString "alice"]>
    (<["interests" := VStrings ["food"]]> (PreferenceStore.defaultPreferences 0)).

End Samples.

(** * Properties *)

(** ** The price-level score *)

Module PriceLevelFacts.
Import Js PersonalizationService.

Lemma priceMapping_lookup (priceRange : string) :
  priceMapping !! priceRange = Specification.preferredLevelIndex priceRange.
Proof.
  unfold Specification.preferredLevelIndex, priceMapping.
  repeat case_decide; subst; try reflexivity.
  cbn [list_to_map foldr uncurry fst snd].
  by rewrite !lookup_insert_ne, lookup_empty by done.
Qed.


(** The index of [budget] is [0], which [||] replaces by the default
    [2]: a budget user is scored as a medium one. *)
Lemma getPriceLevelScore_budget (priceLevel : Z) :
  getPriceLevelScore priceLevel "budget" = getPriceLevelScore priceLevel "medium".
Proof. reflexivity. Qed.

(** A range outside the table is scored against the default level. *)
Lemma getPriceLevelScore_unknown (priceLevel : Z) (priceRange : string) :
  Specification.preferredLevelIndex priceRange = None →
  getPriceLevelScore priceLevel priceRange = Z.max 0 (2 - Z.abs (priceLevel - 2)).
Proof.
  intros Hidx. unfold getPriceLevelScore. by rewrite priceMapping_lookup, Hidx.
Qed.

(** C3: the price-level score of a place of price level 0 for a user
    whose price range is [budget] is 0, where the formula
    max(0, 2 - |priceLevel - preferredLevelIndex|) with budget at index
    0 gives 2; for every price level from 0 to 4 the function returns
    for [budget] the value of the formula at index 2. *)
Theorem getPriceLevelScore_budget_diverges :
  getPriceLevelScore 0 "budget" = 0%Z
  ∧ Specification.priceLevelScore 0 "budget" = Some 2%Z
  ∧ Forall (fun priceLevel =>
              getPriceLevelScore priceLevel "budget"
              = Z.max 0 (2 - Z.abs (priceLevel - 2)))
           [0; 1; 2; 3; 4]%Z.
Proof.
  split; [reflexivity | split; [reflexivity |]].
  repeat constructor.
Qed.

End PriceLevelFacts.

(** ** The primary category of a place *)

Module PrimaryTypeFacts.
Import Js PersonalizationService.

Lemma includes_true (l : list string) (x : string) :
  includes l x = true ↔ x ∈ l.
Proof. unfold includes. apply bool_decide_eq_true. Qed.

Lemma includes_false (l : list string) (x : string) :
  includes l x = false ↔ x ∉ l.
Proof. unfold includes. apply bool_decide_eq_false. Qed.

Lemma firstIncluded_Some (candidates types : list string) (tag : string) :
  firstIncluded candidates types = Some tag ↔
  ∃ i : nat,
    candidates !! i = Some tag ∧ tag ∈ types ∧
    ∀ (j : nat) (earlier : string),
      (j < i)%nat → candidates !! j = Some earlier → earlier ∉ types.
Proof.
  induction candidates as [|c candidates IH]; cbn.
  - split; [done | by intros (i & Hi & _)].
  - destruct (includes types c) eqn:Hc.
    + apply includes_true in Hc. split.
      * intros [= <-]. exists 0%nat. repeat split; [done |]. intros; lia.
      * intros (i & Hi & Hin & Hfirst). destruct i as [|i].
        -- by injection Hi as <-.
        -- exfalso. by apply (Hfirst 0%nat c); [lia | |].
    + apply includes_false in Hc. rewrite IH. split.
      * intros (i & Hi & Hin & Hfirst). exists (S i). repeat split; [done.. |].
        intros [|j] earlier Hj Hlook; cbn in Hlook.
        -- by injection Hlook as <-.
        -- apply (Hfirst j); [lia | done].
      * intros (i & Hi & Hin & Hfirst). destruct i as [|i]; cbn in Hi.
        -- injection Hi as ->. done.
        -- exists i. repeat split; [done.. |].
           intros j earlier Hj Hlook. apply (Hfirst (S j)); [lia | done].
Qed.

Lemma firstIncluded_None (candidates types : list string) :
  firstIncluded candidates types = None ↔
  ∀ tag, tag ∈ candidates → tag ∉ types.
Proof.
  induction candidates as [|c candidates IH]; cbn.
  - split; [intros _ tag Hin; by apply elem_of_nil in Hin | done].
  - destruct (includes types c) eqn:Hc.
    + apply includes_true in Hc. split; [done |].
      intros Hnone. exfalso. apply (Hnone c); [left | done].
    + apply includes_false in Hc. rewrite IH. split.
      * intros Hnone tag [-> | Hin]%elem_of_cons; [done | by apply Hnone].
      * intros Hnone tag Hin. apply Hnone. by right.
Qed.

(** C9, as the function has it: the first tag of the priority list
    that occurs among the place's tags is returned; when none occurs,
    the place's first tag is returned if there is one and it is not
    the empty string, and ["establishment"] otherwise. *)
Theorem getPrimaryPlaceType_spec (types : list string) :
  (∀ tag, Specification.firstPriorityTag types tag →
          getPrimaryPlaceType types = tag)
  ∧ ((∀ tag, tag ∈ primaryTypes → tag ∉ types) →
     getPrimaryPlaceType types
     = match types with
       | first :: _ => if decide (first = "") then "establishment" else first
       | [] => "establishment"
       end).
Proof.
  split.
  - intros tag Hfirst. apply firstIncluded_Some in Hfirst.
    unfold getPrimaryPlaceType. by rewrite Hfirst.
  - intros Hnone. apply firstIncluded_None in Hnone.
    unfold getPrimaryPlaceType. rewrite Hnone.
    destruct types as [|first rest]; [reflexivity |]. cbn.
    destruct first; [by rewrite decide_True | by rewrite decide_False].
Qed.

(** C9, the claim as stated fails on the empty tag list: the function
    answers ["establishment"], not ["general"]. *)
Lemma getPrimaryPlaceType_empty_not_general :
  getPrimaryPlaceType [] = "establishment"
  ∧ getPrimaryPlaceType [] ≠ "general".
Proof. split; [reflexivity | discriminate]. Qed.

End PrimaryTypeFacts.

(** ** Request validation and the hourly activity curve *)

Module AreaInsightsFacts.
Import Js AreaInsightsController Samples.

Lemma Qltb_false (a b : Q) : Qltb a b = false ↔ (b <= a)%Q.
Proof.
  unfold Qltb. rewrite negb_false_iff. apply Qle_bool_iff.
Qed.

Lemma prop_number_object (v : option Json) (key : string) (q : Q) :
  prop v key = Some (JNumber q) → truthy v = true.
Proof. by destruct v as [[]|]. Qed.

(** The accepted bodies are exactly those whose [coords] carry a
    numeric [lat] and a numeric [lng] within the bounds. *)
Lemma validateRequest_valid_iff (body : option Json) :
  isValid (validateRequest body) = true ↔
  ∃ lat lng : Q,
    prop (prop body "coords") "lat" = Some (JNumber lat)
    ∧ prop (prop body "coords") "lng" = Some (JNumber lng)
    ∧ (-90 <= lat)%Q ∧ (lat <= 90)%Q
    ∧ (-180 <= lng)%Q ∧ (lng <= 180)%Q.
Proof.
  unfold validateRequest. split.
  - destruct (truthy body); [|done]. cbn [negb].
    destruct (truthy (prop body "coords")); [|done]. cbn [negb].
    destruct (prop (prop body "coords") "lat") as [[| |lat| | |]|]; try done.
    destruct (prop (prop body "coords") "lng") as [[| |lng| | |]|]; try done.
    cbn [isNumber negb orb lessThan greaterThan].
    destruct (Qltb lat (-90)) eqn:H1; [done |].
    destruct (Qltb 90 lat) eqn:H2; [done |].
    destruct (Qltb lng (-180)) eqn:H3; [done |].
    destruct (Qltb 180 lng) eqn:H4; [done |].
    intros _. exists lat, lng. by rewrite Qltb_false in H1, H2, H3, H4.
  - intros (lat & lng & Hlat & Hlng & H1 & H2 & H3 & H4).
    assert (Hcoords : truthy (prop body "coords") = true)
      by (by eapply prop_number_object).
    assert (Hbody : truthy body = true).
    { destruct body as [[]|]; try done. }
    rewrite Hbody, Hcoords, Hlat, Hlng.
    cbn [isNumber negb orb lessThan greaterThan].
    apply Qltb_false in H1, H2, H3, H4. by rewrite H1, H2, H3, H4.
Qed.

Lemma validateRequest_message (body : option Json) :
  isValid (validateRequest body) = false →
  is_Some (message (validateRequest body)).
Proof.
  unfold validateRequest, invalid.
  repeat (match goal with |- context [if ?b then _ else _] => destruct b end);
    cbn; eauto. done.
Qed.

(** C8: a request body is accepted exactly when its coordinates are
    numbers with latitude in [-90, 90] and longitude in [-180, 180];
    every other body is answered with a validation message; latitude
    90.0001 is rejected, (90, 180) is accepted, a body without
    coordinates and a body with a non-numeric latitude are
    rejected. *)
Theorem validateRequest_bounds :
  (∀ body : option Json,
     isValid (validateRequest body) = true ↔
     ∃ lat lng : Q,
       prop (prop body "coords") "lat" = Some (JNumber lat)
       ∧ prop (prop body "coords") "lng" = Some (JNumber lng)
       ∧ (-90 <= lat)%Q ∧ (lat <= 90)%Q
       ∧ (-180 <= lng)%Q ∧ (lng <= 180)%Q)
  ∧ (∀ body : option Json,
       isValid (validateRequest body) = false ∧
         is_Some (message (validateRequest body))
       ∨ validateRequest body = {| isValid := true; message := None |})
  ∧ validateRequest (coordsBody (JNumber (900001 # 10000)) (JNumber 0))
    = invalid "Latitude must be between -90 and 90"
  ∧ validateRequest (coordsBody (JNumber 90) (JNumber 180))
    = {| isValid := true; message := None |}
  ∧ validateRequest (Some (JObject [])) = invalid "Coordinates are required"
  ∧ validateRequest None = invalid "Request body is required"
  ∧ validateRequest (coordsBody (JString "51.5") (JNumber 0))
    = invalid "Coordinates must be valid numbers".
Proof.
  split; [exact validateRequest_valid_iff |].
  split; [| by repeat split].
  intros body. destruct (isValid (validateRequest body)) eqn:Hvalid.
  - right. revert Hvalid. unfold validateRequest, invalid.
    repeat (match goal with |- context [if ?b then _ else _] => destruct b end);
      cbn; done.
  - left. split; [done |]. by apply validateRequest_message.
Qed.

Lemma calculateHourlyActivity_range (hour : Z) (places : list Place) :
  (10 ≤ calculateHourlyActivity hour places ≤ 100)%Z.
Proof. unfold calculateHourlyActivity. lia. Qed.

(** C10: for every list of places the hourly activity curve has 24
    entries, its hours are 0, 1, ..., 23 in this order, and every
    activity level lies between 10 and 100. *)
Theorem generateHourlyActivity_shape (places : list Place) :
  length (generateHourlyActivity places) = 24%nat
  ∧ map hour (generateHourlyActivity places)
    = [0; 1; 2; 3; 4; 5; 6; 7; 8; 9; 10; 11; 12; 13; 14; 15; 16; 17; 18;
       19; 20; 21; 22; 23]%Z
  ∧ Forall (fun entry => (10 ≤ activityLevel entry ≤ 100)%Z)
           (generateHourlyActivity places).
Proof.
  split; [reflexivity | split; [reflexivity |]].
  unfold generateHourlyActivity. apply Forall_fmap, Forall_forall.
  intros index _. apply calculateHourlyActivity_range.
Qed.

End AreaInsightsFacts.

(** ** The category fan-out *)

Module PlacesLookupFacts.
Import Js GooglePlacesService.

(** A search is fulfilled exactly when the provider answers with
    status [OK] or [ZERO_RESULTS]; its value is the provider's result
    array, or the empty array when the answer carries none. *)
Lemma searchNearbyPlaces_Returned (provider : Provider) (coords : Coords)
    (type : option string) (radius : Z) (places : list Place) :
  searchNearbyPlaces provider coords type radius = Returned places ↔
  ∃ status results error_message,
    provider coords type radius = Answered status results error_message
    ∧ (status = "OK" ∨ status = "ZERO_RESULTS")
    ∧ places = default [] results.
Proof.
  unfold searchNearbyPlaces.
  destruct (provider coords type radius) as [msg|status results err].
  - split; [done | by intros (? & ? & ? & ? & _)].
  - destruct (decide (status = "OK")) as [->|Hok].
    + cbn. split.
      * intros [= <-]. eauto 10.
      * by intros (? & ? & ? & [= <- <- <-] & _ & ->).
    + destruct (decide (status = "ZERO_RESULTS")) as [->|Hzero].
      * cbn. split.
        -- intros [= <-]. eauto 10.
        -- by intros (? & ? & ? & [= <- <- <-] & _ & ->).
      * rewrite !bool_decide_eq_true_2 by done. cbn. split; [done |].
        intros (? & ? & ? & [= <- <- <-] & [?|?] & _); done.
Qed.

Lemma processResult_settle (outcome : Outcome (list Place)) :
  processResult (settle outcome)
  = match outcome with
    | Returned places => take 10 places
    | Thrown _ => []
    end.
Proof. by destruct outcome. Qed.

(** C6: whatever the provider does on the five category searches, the
    bundle is returned; the list of a category whose search failed is
    empty; the list of a category whose search succeeded is the first
    ten places of the provider's answer, in the provider's order. *)
Theorem getAreaInsights_partial_failure (provider : Provider)
    (defaultRadius : Z) (coords : Coords) :
  ∃ data : AreaData,
    getAreaInsights provider defaultRadius coords = Returned data
    ∧ Forall
        (fun category : (AreaData → list Place) * string =>
           match searchNearbyPlaces provider coords (Some category.2) defaultRadius with
           | Returned places =>
               category.1 data = take 10 places
               ∧ (length (category.1 data) ≤ 10)%nat
               ∧ category.1 data `prefix_of` places
           | Thrown _ => category.1 data = []
           end)
        [ (landmarks, "establishment"); (restaurants, "restaurant");
          (attractions, "tourist_attraction"); (entertainment, "night_club");
          (shopping, "shopping_mall") ].
Proof.
  eexists. split; [reflexivity |].
  repeat apply Forall_cons_2; [.. | apply Forall_nil_2];
    cbn [fst snd landmarks restaurants attractions entertainment shopping];
    rewrite processResult_settle;
    (destruct (searchNearbyPlaces _ _ _ _) as [places|reason]; [| reflexivity]);
    (split; [reflexivity | split; [rewrite length_take; lia |]]);
    apply prefix_take.
Qed.

End PlacesLookupFacts.

(** ** The cache key *)

Module CacheKeyFacts.
Import Js GooglePlacesService FirebaseService.

Lemma Math_round_half_open (n : Z) (q : Q) :
  (inject_Z n - (1 # 2) <= q)%Q → (q < inject_Z n + (1 # 2))%Q →
  Math_round q = n.
Proof.
  unfold Math_round. intros Hlo Hhi.
  pose proof (Qfloor_le (q + (1 # 2))) as Hfl.
  pose proof (Qlt_floor (q + (1 # 2))) as Hlt.
  set (f := Qfloor (q + (1 # 2))) in *.
  rewrite inject_Z_plus in Hlt. change (inject_Z 1) with 1%Q in Hlt.
  assert (inject_Z f < inject_Z (n + 1))%Q as Hup
    by (rewrite inject_Z_plus; change (inject_Z 1) with 1%Q; lra).
  assert (inject_Z n < inject_Z (f + 1))%Q as Hdown
    by (rewrite inject_Z_plus; change (inject_Z 1) with 1%Q; lra).
  rewrite <- Zlt_Qlt in Hup, Hdown. lia.
Qed.

Lemma Math_round_cell (n : Z) (x : Q) :
  Specification.inCell n x → Math_round (times x 1000) = n.
Proof. intros [Hlo Hhi]. by apply Math_round_half_open. Qed.

Lemma generateCacheKey_rounded (coords : Coords) (radius : Z) (n m : Z) :
  Math_round (times (lat coords) 1000) = n →
  Math_round (times (lng coords) 1000) = m →
  generateCacheKey coords radius
  = numberToString (inject_Z n / 1000) ++ "_"
    ++ numberToString (inject_Z m / 1000) ++ "_" ++ pretty radius.
Proof. unfold generateCacheKey. by intros -> ->. Qed.

(** The products are products of doubles: the double written
    [0.0045] is less than 45/10000, its thousandfold is the double
    4.5, and it is keyed with 0.005. *)
Lemma generateCacheKey_product_of_doubles :
  (double (45 # 10000) < 45 # 10000)%Q
  ∧ (times (double (45 # 10000)) 1000 == 45 # 10)%Q
  ∧ generateCacheKey {| lat := double (45 # 10000); lng := 0 |} 3000
    = "0.005_0_3000".
Proof.
  split; [by vm_compute |]. split; [by vm_compute |]. by vm_compute.
Qed.

(** C7, as the function has it: two coordinates whose latitudes lie in
    the same rounding cell and whose longitudes lie in the same
    rounding cell get, for the same radius, the same key, which is
    made of the two grid points of the cells and the radius: the key
    depends on the coordinate only through its rounding to three
    decimals, and on the radius. *)
Theorem generateCacheKey_same_cell (c1 c2 : Coords) (radius : Z) (n m : Z) :
  Specification.inCell n (lat c1) → Specification.inCell n (lat c2) →
  Specification.inCell m (lng c1) → Specification.inCell m (lng c2) →
  generateCacheKey c1 radius = generateCacheKey c2 radius
  ∧ generateCacheKey c1 radius
    = numberToString (inject_Z n / 1000) ++ "_"
      ++ numberToString (inject_Z m / 1000) ++ "_" ++ pretty radius.
Proof.
  intros Hlat1 Hlat2 Hlng1 Hlng2.
  rewrite (generateCacheKey_rounded c1 radius n m)
    by (by apply Math_round_cell).
  rewrite (generateCacheKey_rounded c2 radius n m)
    by (by apply Math_round_cell).
  done.
Qed.

Lemma generateCacheKey_same_cell_witness :
  generateCacheKey
    {| lat := double (407128 # 10000); lng := double (-740060 # 10000) |} 3000
  = generateCacheKey
      {| lat := double (407131 # 10000); lng := double (-740062 # 10000) |} 3000
  ∧ generateCacheKey
      {| lat := double (407128 # 10000); lng := double (-740060 # 10000) |} 3000
    = "40.713_-74.006_3000".
Proof.
  assert (numberToString (inject_Z 40713 / 1000) ++ "_"
          ++ numberToString (inject_Z (-74006) / 1000) ++ "_" ++ pretty 3000%Z
          = "40.713_-74.006_3000") as <- by (by vm_compute).
  apply (generateCacheKey_same_cell
           {| lat := double (407128 # 10000); lng := double (-740060 # 10000) |}
           {| lat := double (407131 # 10000); lng := double (-740062 # 10000) |}
           3000 40713 (-74006));
    unfold Specification.inCell; cbn [lat lng]; split; vm_compute; congruence.
Defined.

(** C7, the claim as stated fails: the doubles written [0.0004] and
    [0.0006] differ by less than 0.0005 and lie on the two sides of a
    cell boundary; their keys differ. *)
Lemma generateCacheKey_close_but_distinct :
  ∃ (c1 c2 : Coords) (radius : Z),
    (Qabs (lat c1 - lat c2) < 5 # 10000)%Q
    ∧ (Qabs (lng c1 - lng c2) < 5 # 10000)%Q
    ∧ generateCacheKey c1 radius = "0_0_3000"
    ∧ generateCacheKey c2 radius = "0.001_0_3000"
    ∧ generateCacheKey c1 radius ≠ generateCacheKey c2 radius.
Proof.
  exists {| lat := double (4 # 10000); lng := 0 |},
         {| lat := double (6 # 10000); lng := 0 |}, 3000%Z.
  split; [by vm_compute |]. split; [by vm_compute |].
  assert (generateCacheKey {| lat := double (4 # 10000); lng := 0 |} 3000
          = "0_0_3000") as -> by (by vm_compute).
  assert (generateCacheKey {| lat := double (6 # 10000); lng := 0 |} 3000
          = "0.001_0_3000") as -> by (by vm_compute).
  split; [reflexivity |]. split; [reflexivity |]. discriminate.
Qed.

Lemma generateCacheKey_nonempty (coords : Coords) (radius : Z) :
  generateCacheKey coords radius ≠ "".
Proof.
  unfold generateCacheKey.
  generalize (numberToString
                (inject_Z (Math_round (times (lng coords) 1000)) / 1000)
                ++ "_" ++ pretty radius).
  generalize (numberToString
                (inject_Z (Math_round (times (lat coords) 1000)) / 1000)).
  intros [|c s] rest; discriminate.
Qed.

End CacheKeyFacts.

(** ** The area cache *)

Module CacheFacts.
Import Js Firestore GooglePlacesService FirebaseService Samples.

Section WithClient.
Context {client : Client}.

Lemma reach_healthy {A} (id : string) (result : A) :
  id ≠ "" → reach Healthy id result = Returned result.
Proof. intros Hid. unfold reach. by rewrite decide_False. Qed.

(** A lookup never rejects, and it only ever removes the entry it
    looked up. *)
Lemma getCachedAreaData_settles (ttl : Z) (env : LookupEnv)
    (cache : gmap string CacheEntry) (cacheKey : string) :
  ∃ result,
    getCachedAreaData ttl env cache cacheKey = (Returned result, cache)
    ∨ getCachedAreaData ttl env cache cacheKey
      = (Returned None, base.delete cacheKey cache).
Proof.
  unfold getCachedAreaData, Firestore.get, Firestore.delete, reach.
  destruct (readHealth env); [| by eexists; left].
  destruct (decide (cacheKey = "")); [by eexists; left |].
  destruct (cache !! cacheKey) as [entry|]; [| by eexists; left].
  destruct (_ >? _)%Z; [| by eexists; left].
  destruct (deleteHealth env); [by exists None; right | by eexists; left].
Qed.

Lemma getCachedAreaData_healthy_read (ttl : Z) (env : LookupEnv)
    (cache : gmap string CacheEntry) (cacheKey : string) (entry : CacheEntry) :
  cacheKey ≠ "" → readHealth env = Healthy → cache !! cacheKey = Some entry →
  getCachedAreaData ttl env cache cacheKey
  = if (now env - cachedAt entry >? ttl * 60 * 60 * 1000)%Z
    then match deleteHealth env with
         | Healthy => (Returned None, base.delete cacheKey cache)
         | Failing _ => (Returned None, cache)
         end
    else (Returned (Some (areaData entry)), cache).
Proof.
  intros Hid Hread Hentry.
  unfold getCachedAreaData, Firestore.get, Firestore.delete.
  rewrite Hread, (reach_healthy _ _ Hid), Hentry.
  destruct (_ >? _)%Z; [| reflexivity].
  destruct (deleteHealth env); [| reflexivity].
  by rewrite (reach_healthy _ _ Hid).
Qed.

Lemma getCachedAreaData_missing (ttl : Z) (env : LookupEnv)
    (cache : gmap string CacheEntry) (cacheKey : string) :
  cache !! cacheKey = None →
  getCachedAreaData ttl env cache cacheKey = (Returned None, cache).
Proof.
  intros Hentry. unfold getCachedAreaData, Firestore.get, reach.
  destruct (readHealth env); [| reflexivity].
  destruct (decide (cacheKey = "")); [reflexivity |]. by rewrite Hentry.
Qed.

Lemma cacheAreaData_healthy (env : WriteEnv) (cache : gmap string CacheEntry)
    (cacheKey : string) (payload : AreaData) :
  cacheKey ≠ "" → writeHealth env = Healthy →
  cacheAreaData env cache cacheKey payload
  = (Returned tt,
     <[cacheKey := {| areaData := payload;
                      cachedAt := cachedAtNow env;
                      accessCount := 1;
                      lastAccessed := lastAccessedNow env |}]> cache).
Proof.
  intros Hid Hwrite. unfold cacheAreaData, Firestore.set.
  by rewrite Hwrite, (reach_healthy _ _ Hid).
Qed.

(** C5: for a cache key (a non-empty document id) a lookup always
    settles with a value; when the store can be read, it returns a
    payload exactly when the key has an entry whose age is at most the
    TTL, and that payload is the stored one; an entry older than the
    TTL is deleted and [null] is returned; when the store cannot be
    read, [null] is returned and nothing changes; and a lookup that
    follows a successful write before the TTL has passed returns the
    payload written. *)
Theorem getCachedAreaData_contract (ttl : Z) (env : LookupEnv)
    (cache : gmap string CacheEntry) (cacheKey : string) :
  cacheKey ≠ "" →
  (∃ result cache',
     getCachedAreaData ttl env cache cacheKey = (Returned result, cache'))
  ∧ (readHealth env = Healthy →
     ∀ payload : AreaData,
       (getCachedAreaData ttl env cache cacheKey).1 = Returned (Some payload) ↔
       ∃ entry : CacheEntry,
         cache !! cacheKey = Some entry ∧ areaData entry = payload
         ∧ (now env - cachedAt entry ≤ ttl * 60 * 60 * 1000)%Z)
  ∧ (readHealth env = Healthy → deleteHealth env = Healthy →
     ∀ entry : CacheEntry,
       cache !! cacheKey = Some entry →
       (now env - cachedAt entry > ttl * 60 * 60 * 1000)%Z →
       getCachedAreaData ttl env cache cacheKey
       = (Returned None, base.delete cacheKey cache))
  ∧ (∀ message : string,
       readHealth env = Failing message →
       getCachedAreaData ttl env cache cacheKey = (Returned None, cache))
  ∧ (∀ (write : WriteEnv) (payload : AreaData),
       writeHealth write = Healthy → readHealth env = Healthy →
       (now env - cachedAtNow write ≤ ttl * 60 * 60 * 1000)%Z →
       (getCachedAreaData ttl env
          (cacheAreaData write cache cacheKey payload).2 cacheKey).1
       = Returned (Some payload)).
Proof.
  intros Hid. repeat split.
  - destruct (getCachedAreaData_settles ttl env cache cacheKey)
      as [result [-> | ->]]; eauto.
  - destruct (cache !! cacheKey) as [entry|] eqn:Hentry.
    + rewrite (getCachedAreaData_healthy_read _ _ _ _ entry) by done.
      destruct (Z.gtb_spec (now env - cachedAt entry) (ttl * 60 * 60 * 1000)).
      * by destruct (deleteHealth env).
      * intros [= <-]. exists entry. repeat split; [lia].
    + by rewrite getCachedAreaData_missing.
  - intros (entry & Hentry & <- & Hage).
    rewrite (getCachedAreaData_healthy_read _ _ _ _ entry) by done.
    destruct (Z.gtb_spec (now env - cachedAt entry) (ttl * 60 * 60 * 1000));
      [lia | reflexivity].
  - intros Hread Hdelete entry Hentry Hage.
    rewrite (getCachedAreaData_healthy_read _ _ _ _ entry), Hdelete by done.
    destruct (Z.gtb_spec (now env - cachedAt entry) (ttl * 60 * 60 * 1000));
      [reflexivity | lia].
  - intros message Hread. unfold getCachedAreaData, Firestore.get, reach.
    by rewrite Hread.
  - intros write payload Hwrite Hread Hage.
    rewrite cacheAreaData_healthy by done. cbn [snd].
    erewrite getCachedAreaData_healthy_read;
      [| done | done | apply lookup_insert_eq].
    cbn [cachedAt areaData].
    destruct (Z.gtb_spec (now env - cachedAtNow write) (ttl * 60 * 60 * 1000));
      [lia | reflexivity].
Qed.

End WithClient.

(** The theorems above at concrete inputs, for a sample client. *)

#[local] Existing Instance Samples.sampleClient.

Lemma getCachedAreaData_contract_witness :
  (getCachedAreaData 24
     {| readHealth := Healthy; now := 1000; deleteHealth := Healthy |}
     (cacheAreaData
        {| cachedAtNow := 0; lastAccessedNow := 0; writeHealth := Healthy |}
        ∅ "40.713_-74.006_3000" emptyArea).2
     "40.713_-74.006_3000").1
  = Returned (Some emptyArea).
Proof.
  refine (proj2 (proj2 (proj2 (proj2
    (getCachedAreaData_contract 24
       {| readHealth := Healthy; now := 1000; deleteHealth := Healthy |}
       ∅ "40.713_-74.006_3000" _))))
    {| cachedAtNow := 0; lastAccessedNow := 0; writeHealth := Healthy |}
    emptyArea eq_refl eq_refl _).
  - discriminate.
  - cbn. lia.
Defined.

End CacheFacts.

(** ** Stored preferences *)

Module PreferenceFacts.
Import Js Firestore PreferenceStore UserPreferencesController Samples.
Import Specification.

Section WithClient.
Context {client : Client}.

Lemma defaultPreferences_fields (constructedAt : Z) (field : string) :
  is_Some (defaultPreferences constructedAt !! field) ↔ field ∈ recordFields.
Proof.
  rewrite <- elem_of_dom. unfold defaultPreferences.
  by rewrite dom_list_to_map_L, elem_of_list_to_set.
Qed.

Lemma storedRecord_field (userId : string) (record : gmap string Value)
    (constructedAt : Z) (field : string) :
  storedRecord userId record →
  record !! field = None → defaultPreferences constructedAt !! field = None.
Proof.
  intros (_ & _ & Hfields) Hnone.
  destruct (defaultPreferences constructedAt !! field) eqn:Hdefault; [| done].
  assert (field ∈ recordFields) as Hin
    by (apply (defaultPreferences_fields constructedAt); eauto).
  rewrite Forall_forall in Hfields. apply Hfields in Hin.
  rewrite Hnone in Hin. by destruct Hin.
Qed.

Lemma or_value_truthy (a : option Value) (v b : Value) :
  a = Some v → truthy a = true → or_value a b = v.
Proof. intros -> Htruthy. unfold or_value. by rewrite Htruthy. Qed.

Lemma validatePreferences_ageGroup (group : string) :
  group ∈ getAvailableAgeGroups →
  validatePreferences (Some {["ageGroup" := VString group]}) = None.
Proof.
  intros Hgroup. unfold validatePreferences.
  rewrite !lookup_singleton_ne, lookup_singleton_eq by done.
  cbn [truthy andb]. unfold oneOf, includes.
  rewrite (bool_decide_eq_true_2 (group ∈ getAvailableAgeGroups)) by done.
  cbn [negb andb]. by rewrite andb_false_r.
Qed.

(** What a read of an existing record returns when the store answers. *)
Lemma getUserPreferences_existing (constructedAt : Z) (now : Z)
    (store : gmap string (gmap string Value)) (userId : string)
    (record : gmap string Value) :
  userId ≠ "" → store !! userId = Some record →
  getUserPreferences constructedAt Healthy now store (Some userId)
  = <["updatedAt" := or_value (record !! "updatedAt") (VDate now)]>
      (spread (defaultPreferences constructedAt) record).
Proof.
  intros Hid Hrecord. unfold getUserPreferences, Firestore.get, reach.
  destruct userId; [done |]. by rewrite decide_False, Hrecord.
Qed.

Lemma saveUserPreferences_healthy (constructedAt : Z) (now : Z)
    (store : gmap string (gmap string Value)) (userId : string)
    (preferences : gmap string Value) :
  userId ≠ "" →
  saveUserPreferences constructedAt Healthy now store userId preferences
  = let preferencesToSave :=
      <["createdAt" := or_value (preferences !! "createdAt") (VDate now)]>
        (<["updatedAt" := VDate now]>
           (<["userId" := VString userId]>
              (spread (defaultPreferences constructedAt) preferences))) in
    (Returned preferencesToSave,
     <[userId := spread (default ∅ (store !! userId)) preferencesToSave]> store).
Proof.
  intros Hid. unfold saveUserPreferences, set_merge, reach.
  by rewrite decide_False.
Qed.

(** The record an update with the single field [ageGroup] hands to the
    store, field by field. *)
Lemma update_ageGroup_record (constructedAt readAt mergedAt savedAt : Z)
    (userId group : string) (existing : gmap string Value) :
  storedRecord userId existing →
  <["createdAt" :=
      or_value
        ((<["updatedAt" := VDate mergedAt]>
            (spread
               (<["updatedAt" := or_value (existing !! "updatedAt") (VDate readAt)]>
                  (spread (defaultPreferences constructedAt) existing))
               {["ageGroup" := VString group]})) !! "createdAt")
        (VDate savedAt)]>
    (<["updatedAt" := VDate savedAt]>
       (<["userId" := VString userId]>
          (spread (defaultPreferences constructedAt)
             (<["updatedAt" := VDate mergedAt]>
                (spread
                   (<["updatedAt" := or_value (existing !! "updatedAt") (VDate readAt)]>
                      (spread (defaultPreferences constructedAt) existing))
                   {["ageGroup" := VString group]})))))
  = <["ageGroup" := VString group]> (<["updatedAt" := VDate savedAt]> existing).
Proof.
  intros Hstored. pose proof Hstored as (Huser & Hcreated & Hfields).
  destruct (existing !! "createdAt") as [created|] eqn:Hcreated'; [| done].
  unfold spread.
  set (read := <["updatedAt" := or_value (existing !! "updatedAt") (VDate readAt)]>
                 (existing ∪ defaultPreferences constructedAt)).
  set (merged := <["updatedAt" := VDate mergedAt]>
                   ({["ageGroup" := VString group]} ∪ read)).
  assert (Hmerged : ∀ field, field ≠ "updatedAt" → field ≠ "ageGroup" →
            merged !! field
            = match existing !! field with
              | Some v => Some v
              | None => defaultPreferences constructedAt !! field
              end).
  { intros field Hupdated Hage. subst merged read.
    rewrite lookup_insert_ne, lookup_union, lookup_singleton_ne by done.
    rewrite lookup_insert_ne, lookup_union by done.
    destruct (existing !! field);
      by destruct (defaultPreferences constructedAt !! field). }
  rewrite Hmerged, Hcreated' by done.
  rewrite (or_value_truthy _ created) by done.
  apply map_eq. intros field.
  destruct (decide (field = "createdAt")) as [->|];
    [by rewrite lookup_insert_eq, !lookup_insert_ne, Hcreated' by done |].
  rewrite (lookup_insert_ne _ "createdAt") by done.
  destruct (decide (field = "updatedAt")) as [->|];
    [by rewrite lookup_insert_eq, lookup_insert_ne, lookup_insert_eq by done |].
  rewrite (lookup_insert_ne _ "updatedAt") by done.
  destruct (decide (field = "userId")) as [->|];
    [by rewrite lookup_insert_eq, !lookup_insert_ne, Huser by done |].
  rewrite (lookup_insert_ne _ "userId") by done.
  rewrite lookup_union.
  destruct (decide (field = "ageGroup")) as [->|].
  { subst merged. rewrite lookup_insert_ne, lookup_union by done.
    rewrite lookup_singleton_eq, lookup_insert_eq.
    by destruct (read !! "ageGroup"),
                (defaultPreferences constructedAt !! "ageGroup"). }
  rewrite Hmerged, !lookup_insert_ne by done.
  destruct (existing !! field) eqn:Hfield.
  - by destruct (defaultPreferences constructedAt !! field).
  - rewrite (storedRecord_field _ _ _ _ Hstored Hfield). done.
Qed.

(** C4: when the user has a stored preference record and the store
    answers, an update that supplies only a valid [ageGroup] succeeds;
    the record stored afterwards, which is also the record returned, is
    the existing record with [ageGroup] replaced by the supplied value
    and [updatedAt] by the time of the save; its [interests], and every
    field other than [ageGroup] and [updatedAt], are those of the
    existing record; and the records of the other users are left as
    they were. *)
Theorem updateUserPreferences_ageGroup_only (env : UpdateEnv)
    (store : gmap string (gmap string Value)) (userId : string)
    (existing : gmap string Value) (group : string) :
  userId ≠ "" →
  readHealth env = Healthy → writeHealth env = Healthy →
  store !! userId = Some existing →
  storedRecord userId existing →
  group ∈ getAvailableAgeGroups →
  ∃ saved : gmap string Value,
    updateUserPreferences env store (Some userId)
      (Some {["ageGroup" := VString group]})
    = (Status200 userId saved, <[userId := saved]> store)
    ∧ saved
      = <["ageGroup" := VString group]>
          (<["updatedAt" := VDate (savedAt env)]> existing)
    ∧ saved !! "interests" = existing !! "interests"
    ∧ saved !! "ageGroup" = Some (VString group)
    ∧ saved !! "updatedAt" = Some (VDate (savedAt env))
    ∧ (∀ field : string,
         field ≠ "ageGroup" → field ≠ "updatedAt" →
         saved !! field = existing !! field)
    ∧ (∀ other : string,
         other ≠ userId → <[userId := saved]> store !! other = store !! other).
Proof.
  intros Hid Hread Hwrite Hexisting Hstored Hgroup.
  exists (<["ageGroup" := VString group]>
            (<["updatedAt" := VDate (savedAt env)]> existing)).
  split; [| repeat split].
  - unfold updateUserPreferences.
    destruct userId as [|c rest]; [by destruct Hid |].
    rewrite validatePreferences_ageGroup by done.
    rewrite Hread, Hwrite.
    rewrite (getUserPreferences_existing _ _ _ _ existing) by done.
    rewrite saveUserPreferences_healthy by done. cbv zeta.
    rewrite (update_ageGroup_record _ _ _ _ (String c rest)) by done.
    rewrite Hexisting. cbn [default from_option Datatypes.id]. do 2 f_equal.
    unfold spread. apply map_eq. intros field.
    rewrite lookup_union.
    destruct (decide (field = "ageGroup")) as [->|];
      [rewrite lookup_insert_eq; by destruct (existing !! "ageGroup") |].
    rewrite lookup_insert_ne by done.
    destruct (decide (field = "updatedAt")) as [->|];
      [rewrite lookup_insert_eq; by destruct (existing !! "updatedAt") |].
    rewrite lookup_insert_ne by done. by destruct (existing !! field).
  - by rewrite !lookup_insert_ne.
  - by rewrite lookup_insert_eq.
  - by rewrite lookup_insert_ne, lookup_insert_eq.
  - intros field Hage Hupdated. by rewrite !lookup_insert_ne.
  - intros other Hother. by rewrite lookup_insert_ne.
Qed.

End WithClient.

(** The theorems above at concrete inputs, for a sample client. *)

#[local] Existing Instance Samples.sampleClient.

Lemma updateUserPreferences_ageGroup_only_witness :
  ∃ saved : gmap string Value,
    updateUserPreferences
      {| constructedAt := 0; readHealth := Healthy; readAt := 10;
         mergedAt := 11; writeHealth := Healthy; savedAt := 12 |}
      {["alice" := aliceRecord]} (Some "alice")
      (Some {["ageGroup" := VString "senior"]})
    = (Status200 "alice" saved, <["alice" := saved]> {["alice" := aliceRecord]})
    ∧ saved !! "interests" = Some (VStrings ["food"]).
Proof.
  destruct (updateUserPreferences_ageGroup_only
              {| constructedAt := 0; readHealth := Healthy; readAt := 10;
                 mergedAt := 11; writeHealth := Healthy; savedAt := 12 |}
              {["alice" := aliceRecord]} "alice" aliceRecord "senior")
    as (saved & Hrun & _ & Hinterests & _).
  - discriminate.
  - reflexivity.
  - reflexivity.
  - apply lookup_singleton_eq.
  - split; [reflexivity | split; [reflexivity |]].
    repeat constructor; by eexists.
  - unfold getAvailableAgeGroups. rewrite !elem_of_cons. auto.
  - exists saved. split; [exact Hrun |]. by rewrite Hinterests.
Defined.

End PreferenceFacts.

(** ** The stable sort *)

Module SortFacts.
Import Js.

Section Descending.
Context {A : Type} (key : A → R) (compareFn : A → A → R).
Hypothesis compareFn_positive :
  ∀ a b, (compareFn a b > 0)%R ↔ (key a < key b)%R.

Lemma sort_insert_perm (x : A) (l : list A) :
  sort_insert compareFn x l ≡ₚ x :: l.
Proof.
  induction l as [|y l IH]; cbn; [done |].
  case_decide; [| done]. by rewrite IH, Permutation_swap.
Qed.

Lemma sort_cons (x : A) (l : list A) :
  sort compareFn (x :: l) = sort_insert compareFn x (sort compareFn l).
Proof. reflexivity. Qed.

Lemma sort_perm (l : list A) : sort compareFn l ≡ₚ l.
Proof.
  induction l as [|x l IH]; [done |].
  by rewrite sort_cons, sort_insert_perm, IH.
Qed.

Lemma sort_insert_sorted (x : A) (l : list A) :
  StronglySorted (fun a b => (key a >= key b)%R) l →
  StronglySorted (fun a b => (key a >= key b)%R) (sort_insert compareFn x l).
Proof.
  induction 1 as [|y l Hsorted IH Hy]; cbn.
  - by repeat constructor.
  - case_decide as Hcmp.
    + apply compareFn_positive in Hcmp. constructor; [done |].
      rewrite sort_insert_perm. constructor; [lra | done].
    + rewrite compareFn_positive in Hcmp.
      constructor; [by constructor |]. constructor; [lra |].
      eapply Forall_impl; [exact Hy |]. cbn. intros z Hz. lra.
Qed.

Lemma sort_sorted (l : list A) :
  StronglySorted (fun a b => (key a >= key b)%R) (sort compareFn l).
Proof.
  induction l as [|x l IH]; [constructor |].
  rewrite sort_cons. by apply sort_insert_sorted.
Qed.



End Descending.


End SortFacts.

(** ** The relevant types of a list of interests *)

Module RelevantTypesFacts.
Import Js PersonalizationService.
Local Open Scope list_scope.

Lemma elem_of_set_add (acc : list string) (t x : string) :
  x ∈ set_add acc t ↔ x ∈ acc ∨ x = t.
Proof.
  unfold set_add, includes. case_bool_decide as Hin.
  - split; [by left |]. by intros [? | ->].
  - rewrite elem_of_app, list_elem_of_singleton. done.
Qed.

Lemma NoDup_set_add (acc : list string) (t : string) :
  NoDup acc → NoDup (set_add acc t).
Proof.
  intros Hacc. unfold set_add, includes. case_bool_decide as Hin; [done |].
  apply NoDup_app. split; [done |]. split; [| apply NoDup_singleton].
  intros x Hx ->%list_elem_of_singleton. done.
Qed.

Lemma foldl_set_add (ts acc : list string) :
  (NoDup acc → NoDup (foldl set_add acc ts))
  ∧ ∀ x, x ∈ foldl set_add acc ts ↔ x ∈ acc ∨ x ∈ ts.
Proof.
  revert acc. induction ts as [|t ts IH]; intros acc; cbn [foldl].
  - split; [done |]. intros x. rewrite elem_of_nil. tauto.
  - destruct (IH (set_add acc t)) as [IHdup IHin]. split.
    + intros Hacc. by apply IHdup, NoDup_set_add.
    + intros x. rewrite IHin, elem_of_set_add, elem_of_cons. tauto.
Qed.

Lemma foldl_mappedTypes (interests acc : list string) :
  (NoDup acc →
   NoDup (foldl (fun acc interest => foldl set_add acc (mappedTypes interest))
                acc interests))
  ∧ ∀ x,
      x ∈ foldl (fun acc interest => foldl set_add acc (mappedTypes interest))
                acc interests
      ↔ x ∈ acc ∨ ∃ interest, interest ∈ interests ∧ x ∈ mappedTypes interest.
Proof.
  revert acc. induction interests as [|interest interests IH]; intros acc;
    cbn [foldl].
  - split; [done |]. intros x. split; [by left |].
    intros [? | (? & []%elem_of_nil & _)]. done.
  - destruct (IH (foldl set_add acc (mappedTypes interest))) as [IHdup IHin].
    destruct (foldl_set_add (mappedTypes interest) acc) as [Hdup Hin].
    split; [by intros ?; apply IHdup, Hdup |].
    intros x. rewrite IHin, Hin. split.
    + intros [[? | ?] | (other & ? & ?)]; [by left | right ..].
      * exists interest. split; [by left | done].
      * exists other. split; [by right | done].
    + intros [? | (other & [-> | ?]%elem_of_cons & ?)];
        [by left; left | by left; right | right; by exists other].
Qed.

Lemma elem_of_getRelevantPlaceTypes (interests : list string) (t : string) :
  t ∈ getRelevantPlaceTypes interests
  ↔ ∃ interest, interest ∈ interests ∧ t ∈ mappedTypes interest.
Proof.
  unfold getRelevantPlaceTypes.
  rewrite (proj2 (foldl_mappedTypes interests [])), elem_of_nil. tauto.
Qed.

End RelevantTypesFacts.

(** ** The personalization engine *)

Module EngineFacts.
Import Js PersonalizationService SortFacts RelevantTypesFacts.


Lemma filter_none {A} (P : A → Prop) `{!∀ x, Decision (P x)} (l : list A) :
  (∀ x, ¬ P x) → filter P l = [].
Proof.
  intros Hnone. induction l as [|x l IH]; [done |].
  by rewrite filter_cons_False.
Qed.





























End EngineFacts.


(** ** Array and control-flow utilities *)

Module UtilsFacts.
Import Js Utils.
Local Open Scope nat_scope.

Section RemoveDuplicates.
Context {A K : Type} `{EqDecision K} (key : A → K).

Lemma removeDuplicatesFrom_sublist (seen : list K) (array : list A) :
  removeDuplicatesFrom key seen array `sublist_of` array.
Proof.
  revert seen. induction array as [|item rest IH]; intros seen; cbn; [done |].
  case_decide; [by apply sublist_cons | by apply sublist_skip].
Qed.

Lemma removeDuplicatesFrom_fresh (seen : list K) (array : list A) (x : A) :
  x ∈ removeDuplicatesFrom key seen array → key x ∉ seen.
Proof.
  revert seen. induction array as [|item rest IH]; intros seen; cbn.
  - by intros ?%elem_of_nil.
  - case_decide as Hseen; [apply IH |].
    intros [-> | Hin]%elem_of_cons; [done |].
    apply IH in Hin. by apply not_elem_of_cons in Hin as [_ ?].
Qed.

(** For each key, the result holds the first item of the array with
    that key, unless the key was seen before. *)
Lemma removeDuplicatesFrom_per_key (seen : list K) (array : list A) (k : K) :
  filter (fun item => key item = k) (removeDuplicatesFrom key seen array)
  = if decide (k ∈ seen) then []
    else take 1 (filter (fun item => key item = k) array).
Proof.
  revert seen. induction array as [|item rest IH]; intros seen;
    cbn [removeDuplicatesFrom].
  - by case_decide.
  - rewrite (filter_cons _ item). destruct (decide (key item ∈ seen)) as [Hseen|Hseen].
    + rewrite IH. destruct (decide (k ∈ seen)) as [|Hk]; [done |].
      by rewrite decide_False by congruence.
    + rewrite filter_cons, IH. destruct (decide (key item = k)) as [<-|Hne].
      * rewrite decide_True by left. by rewrite decide_False.
      * destruct (decide (k ∈ seen)) as [Hk|Hk].
        -- by rewrite decide_True by by right.
        -- rewrite decide_False; [done |].
           by intros [?|?]%elem_of_cons.
Qed.

Lemma removeDuplicatesFrom_NoDup (seen : list K) (array : list A) :
  NoDup (map key (removeDuplicatesFrom key seen array)).
Proof.
  revert seen. induction array as [|item rest IH]; intros seen; cbn.
  - constructor.
  - case_decide; [apply IH |]. cbn. constructor; [| apply IH].
    intros (x & Hkey & Hin)%list_elem_of_fmap.
    apply removeDuplicatesFrom_fresh in Hin. apply Hin, elem_of_cons.
    left. congruence.
Qed.

Lemma removeDuplicatesFrom_unchanged (seen : list K) (array : list A) :
  NoDup (map key array) → (∀ x, x ∈ array → key x ∉ seen) →
  removeDuplicatesFrom key seen array = array.
Proof.
  revert seen. induction array as [|item rest IH]; intros seen Hnodup Hfresh;
    cbn; [done |].
  apply NoDup_cons in Hnodup as [Hitem Hnodup].
  rewrite decide_False by (apply Hfresh; by left). f_equal.
  apply IH; [done |]. intros x Hin [Heq|Hseen]%elem_of_cons.
  - apply Hitem. rewrite <- Heq. by apply list_elem_of_fmap_2.
  - by apply (Hfresh x); [right |].
Qed.

(** [removeDuplicates] keeps, in the order of the array, the first
    item of each key: its result is a sub-list of the array without two
    items of the same key, it holds for each key exactly the first item
    of the array with that key, and removing duplicates once more
    changes nothing. *)
Theorem removeDuplicates_first_of_each_key (array : list A) :
  removeDuplicates key array `sublist_of` array
  ∧ NoDup (map key (removeDuplicates key array))
  ∧ (∀ k : K,
       filter (fun item => key item = k) (removeDuplicates key array)
       = take 1 (filter (fun item => key item = k) array))
  ∧ removeDuplicates key (removeDuplicates key array)
    = removeDuplicates key array.
Proof.
  unfold removeDuplicates. split; [apply removeDuplicatesFrom_sublist |].
  split; [apply removeDuplicatesFrom_NoDup |]. split.
  - intros k. rewrite removeDuplicatesFrom_per_key. by rewrite decide_False
      by apply not_elem_of_nil.
  - apply removeDuplicatesFrom_unchanged; [apply removeDuplicatesFrom_NoDup |].
    intros x _. apply not_elem_of_nil.
Qed.
End RemoveDuplicates.


(** A page from 1 on is the chunk of [limit] items that starts at
    [(page - 1) * limit]. *)
Lemma paginate_items {A} (array : list A) (page : nat) (limit : positive) :
  (paginate array (Z.of_nat (S page)) limit).1
  = take (Pos.to_nat limit) (drop (page * Pos.to_nat limit) array).
Proof.
  unfold paginate, slice. cbn [fst].
  set (len := Z.of_nat (length array)).
  set (offset := ((Z.of_nat (S page) - 1) * Z.pos limit)%Z).
  assert (offset = Z.of_nat (page * Pos.to_nat limit)) as Hoffset by (subst offset; lia).
  assert (0 ≤ offset)%Z as Hge by lia.
  destruct (Z.ltb_spec offset 0) as [|_]; [lia |].
  destruct (Z.ltb_spec (offset + Z.pos limit) 0) as [|_]; [lia |].
  destruct (decide (offset ≤ len)%Z) as [Hin|Hout].
  - rewrite (Z.min_l offset) by done.
    replace (Z.to_nat offset) with (page * Pos.to_nat limit)%nat by lia.
    set (rest := drop (page * Pos.to_nat limit) array).
    assert (length rest = Z.to_nat (len - offset)) as Hrest
      by (subst rest len; rewrite length_drop; lia).
    destruct (decide (offset + Z.pos limit ≤ len)%Z).
    + rewrite Z.min_l by done. f_equal. lia.
    + rewrite Z.min_r by lia. rewrite !take_ge; [done | lia | lia].
  - rewrite (Z.min_r offset) by lia. rewrite Z.min_r by lia.
    replace (Z.to_nat (len - len)) with 0%nat by lia. cbn [take].
    rewrite (drop_ge array (page * _)) by (subst len; lia). by rewrite take_nil.
Qed.

Lemma chunks_concat {A} (array : list A) (n pages : nat) :
  concat (map (fun page => take n (drop (page * n) array)) (seq 0 pages))
  = take (pages * n) array.
Proof.
  induction pages as [|pages IH]; [done |].
  rewrite seq_S, map_app, concat_app, IH. cbn [map concat plus].
  rewrite app_nil_r, take_take_drop. f_equal. lia.
Qed.

Lemma totalPages_bounds {A} (array : list A) (limit : positive) :
  let pages := totalPages (paginate array 1 limit).2 in
  (0 ≤ pages)%Z
  ∧ (Z.of_nat (length array) ≤ pages * Z.pos limit)%Z
  ∧ ((pages - 1) * Z.pos limit < Z.of_nat (length array)
     ∨ pages = 0%Z ∧ length array = 0%nat)%Z.
Proof.
  cbn. set (len := Z.of_nat (length array)).
  pose proof (Z.div_mod (- len) (Z.pos limit)) as Hdiv.
  pose proof (Z.mod_pos_bound (- len) (Z.pos limit)) as Hmod.
  assert (0 ≤ len)%Z by (subst len; lia).
  destruct (decide (len = 0)%Z) as [Hzero|Hpos].
  - rewrite Hzero in *. cbn. split; [done |]. split; [lia |]. right. split; [done |].
    subst len. lia.
  - nia.
Qed.

(** The pages 1 to [totalPages] of [paginate], in order, put together
    give the array back; no page has more than [limit] items; each of
    these pages has at least one item, a page after the last one is
    empty; and [hasNextPage] is set exactly on the pages before the
    last one. *)
Theorem paginate_pages {A} (array : list A) (limit : positive) :
  concat (map (fun page : nat => (paginate array (Z.of_nat page) limit).1)
              (seq 1 (Z.to_nat (totalPages (paginate array 1 limit).2))))
  = array
  ∧ (∀ page : nat,
       (length (paginate array (Z.of_nat (S page)) limit).1 ≤ Pos.to_nat limit)%nat
       ∧ ((Z.of_nat (S page) ≤ totalPages (paginate array 1 limit).2)%Z ↔
          (paginate array (Z.of_nat (S page)) limit).1 ≠ []))
  ∧ (∀ page : Z,
       hasNextPage (paginate array page limit).2 = true ↔
       (page < totalPages (paginate array 1 limit).2)%Z).
Proof.
  pose proof (totalPages_bounds array limit) as (Hnonneg & Hupper & Hlower).
  cbv zeta in Hnonneg, Hupper, Hlower.
  set (pages := totalPages (paginate array 1 limit).2) in *.
  split; [| split].
  - rewrite <- (fmap_S_seq 0), <- list_fmap_compose.
    erewrite (list_fmap_ext _ (fun page => take _ (drop (page * _) array)));
      [| intros ? page _; apply paginate_items].
    rewrite chunks_concat. apply take_ge. lia.
  - intros page. rewrite paginate_items. split; [rewrite length_take; lia |].
    rewrite <- length_zero_iff_nil, length_take, length_drop. split; nia.
  - intros page. cbn. apply Z.ltb_lt.
Qed.

Lemma typeMapping_lookup (type : string) :
  typeMapping !! type
  = if decide (type = "meal_delivery") then Some "restaurant"
    else if decide (type = "meal_takeaway") then Some "restaurant"
    else if decide (type = "food") then Some "restaurant"
    else if decide (type = "point_of_interest") then Some "attraction"
    else if decide (type = "establishment") then Some "general"
    else None.
Proof.
  unfold typeMapping. repeat case_decide; subst; try reflexivity.
  cbn [list_to_map foldr uncurry fst snd].
  by rewrite !lookup_insert_ne, lookup_empty by done.
Qed.

(** [normalizePlaceTypes] keeps the number and the order of the types,
    leaves a type outside its table as it is, and normalizing twice is
    normalizing once: no normalized name is itself renamed. *)
Theorem normalizePlaceTypes_idempotent (types : list string) :
  length (normalizePlaceTypes types) = length types
  ∧ (∀ (i : nat) (type : string),
       types !! i = Some type → typeMapping !! type = None →
       normalizePlaceTypes types !! i = Some type)
  ∧ normalizePlaceTypes (normalizePlaceTypes types) = normalizePlaceTypes types.
Proof.
  unfold normalizePlaceTypes. split; [apply length_map | split].
  - intros i type Hi Hnone. rewrite list_lookup_fmap, Hi.
    change (Some (or_string (typeMapping !! type) type) = Some type).
    by rewrite Hnone.
  - rewrite <- list_fmap_compose. apply list_fmap_ext. intros _ type _.
    unfold compose. rewrite (typeMapping_lookup type).
    repeat case_decide; subst; try reflexivity.
    cbn [or_string]. destruct type; [done |].
    rewrite typeMapping_lookup. by repeat (rewrite decide_False by done).
Qed.


(** The delays waited for before the attempts [first + 1] to
    [first + count]. *)
Lemma retryLoop_success {A} (fn : nat → Outcome A) (maxRetries : nat)
    (baseDelay : Z) (value : A) (count : nat) :
  ∀ (attempt remaining : nat) (lastError : option string),
    attempt + count < attempt + remaining →
    attempt + count ≤ maxRetries →
    (∀ a, attempt ≤ a < attempt + count → ∃ error, fn a = Thrown error) →
    fn (attempt + count) = Returned value →
    retryLoop fn maxRetries baseDelay remaining attempt lastError
    = {| settlement := Resolved value;
         delays := map (fun a : nat => (baseDelay * 2 ^ (Z.of_nat a - 1))%Z)
                       (seq attempt count);
         calls := S count |}.
Proof.
  induction count as [|count IH]; intros attempt remaining lastError Hfuel Hmax Hfail Hok.
  - destruct remaining as [|remaining]; [lia |]. cbn.
    rewrite Nat.add_0_r in Hok. by rewrite Hok.
  - destruct remaining as [|remaining]; [lia |]. cbn.
    destruct (Hfail attempt) as [error Herror]; [lia |]. rewrite Herror.
    rewrite decide_False by lia.
    rewrite (IH (S attempt) remaining (Some error)); [done | lia | lia | |].
    + intros a Ha. apply Hfail. lia.
    + by replace (S attempt + count) with (attempt + S count) by lia.
Qed.

Lemma retryLoop_failure {A} (fn : nat → Outcome A) (maxRetries : nat)
    (baseDelay : Z) (count : nat) :
  ∀ (attempt remaining : nat) (lastError : option string) (error : string),
    attempt + count < attempt + remaining →
    attempt + count = maxRetries →
    (∀ a, attempt ≤ a < attempt + count → ∃ earlier, fn a = Thrown earlier) →
    fn maxRetries = Thrown error →
    retryLoop fn maxRetries baseDelay remaining attempt lastError
    = {| settlement := RejectedWith (Some error);
         delays := map (fun a : nat => (baseDelay * 2 ^ (Z.of_nat a - 1))%Z)
                       (seq attempt count);
         calls := S count |}.
Proof.
  induction count as [|count IH];
    intros attempt remaining lastError error Hfuel Hmax Hfail Hlast.
  - destruct remaining as [|remaining]; [lia |]. cbn.
    rewrite Nat.add_0_r in Hmax. subst attempt. rewrite Hlast.
    by rewrite decide_True.
  - destruct remaining as [|remaining]; [lia |]. cbn.
    destruct (Hfail attempt) as [earlier Hearlier]; [lia |]. rewrite Hearlier.
    rewrite decide_False by lia.
    rewrite (IH (S attempt) remaining (Some earlier) error); [done | lia | lia | | done].
    intros a Ha. apply Hfail. lia.
Qed.

Lemma retryLoop_calls {A} (fn : nat → Outcome A) (maxRetries : nat)
    (baseDelay : Z) (remaining attempt : nat) (lastError : option string) :
  calls (retryLoop fn maxRetries baseDelay remaining attempt lastError) ≤ remaining.
Proof.
  revert attempt lastError.
  induction remaining as [|remaining IH]; intros attempt lastError; cbn; [lia |].
  destruct (fn attempt) as [value|error]; cbn; [lia |].
  case_decide; cbn; [lia |].
  specialize (IH (S attempt) (Some error)). lia.
Qed.

(** [retryWithBackoff] calls [fn] at most [maxRetries] times.  When
    the first call of [fn] that succeeds is call number [k], with [k]
    at most [maxRetries], the promise resolves to its value after [k]
    calls, having waited [baseDelay], [2 * baseDelay], ... before the
    calls 2 to [k].  When the first [maxRetries] calls all fail, it
    rejects with the error of the last of them, without a wait after
    it.  With [maxRetries] 0, [fn] is never called and [undefined] is
    thrown. *)
Theorem retryWithBackoff_outcome {A} (fn : nat → Outcome A) (maxRetries : nat)
    (baseDelay : Z) :
  calls (retryWithBackoff fn maxRetries baseDelay) ≤ maxRetries
  ∧ (∀ (k : nat) (value : A),
       k < maxRetries →
       (∀ a, 1 ≤ a < 1 + k → ∃ error, fn a = Thrown error) →
       fn (1 + k) = Returned value →
       retryWithBackoff fn maxRetries baseDelay
       = {| settlement := Resolved value;
            delays := map (fun a : nat => (baseDelay * 2 ^ (Z.of_nat a - 1))%Z)
                          (seq 1 k);
            calls := S k |})
  ∧ (∀ (k : nat) (error : string),
       maxRetries = S k →
       (∀ a, 1 ≤ a < 1 + k → ∃ earlier, fn a = Thrown earlier) →
       fn maxRetries = Thrown error →
       retryWithBackoff fn maxRetries baseDelay
       = {| settlement := RejectedWith (Some error);
            delays := map (fun a : nat => (baseDelay * 2 ^ (Z.of_nat a - 1))%Z)
                          (seq 1 k);
            calls := maxRetries |})
  ∧ retryWithBackoff fn 0 baseDelay
    = {| settlement := RejectedWith None; delays := []; calls := 0 |}.
Proof.
  unfold retryWithBackoff. split; [apply retryLoop_calls |]. split; [| split].
  - intros k value Hk Hfail Hok. apply retryLoop_success; [lia | lia | done | done].
  - intros k error -> Hfail Hlast.
    apply retryLoop_failure; [lia | lia | done | done].
  - reflexivity.
Qed.


Lemma swap_Permutation {A} (array : list A) (i j : nat) :
  swap array i j ≡ₚ array.
Proof.
  unfold swap. destruct (array !! i) eqn:Hi; [| done].
  destruct (array !! j) eqn:Hj; [| done].
  by apply Permutation_insert_swap.
Qed.

Lemma shuffleFrom_Permutation {A} (i : nat) (randoms : nat → Q) :
  ∀ (shuffled : list A) (drawn : nat),
    shuffleFrom shuffled i randoms drawn ≡ₚ shuffled.
Proof.
  induction i as [|i IH]; intros shuffled drawn; cbn; [done |].
  by rewrite IH, swap_Permutation.
Qed.

(** The index drawn for position [i] is one of the positions 0 to
    [i]. *)
Lemma drawn_index_range (random : Q) (i : nat) :
  (0 <= random)%Q → (random < 1)%Q →
  Z.to_nat (Qfloor (random * inject_Z (Z.of_nat i + 1))) ≤ i.
Proof.
  intros Hlow Hhigh.
  assert (0 < inject_Z (Z.of_nat i + 1))%Q as Hpos
    by (change 0%Q with (inject_Z 0); rewrite <- Zlt_Qlt; lia).
  assert (random * inject_Z (Z.of_nat i + 1) < inject_Z (Z.of_nat i + 1))%Q as Hlt.
  { rewrite <- (Qmult_1_l (inject_Z (Z.of_nat i + 1))) at 2.
    by apply Qmult_lt_compat_r. }
  pose proof (Qfloor_le (random * inject_Z (Z.of_nat i + 1))) as Hfloor.
  assert (inject_Z (Qfloor (random * inject_Z (Z.of_nat i + 1)))
          < inject_Z (Z.of_nat i + 1))%Q as Hbound by lra.
  rewrite <- Zlt_Qlt in Hbound. lia.
Qed.

Lemma exchanges_range (randoms : nat → Q) (i : nat) :
  (∀ k, (0 <= randoms k)%Q ∧ (randoms k < 1)%Q) →
  ∀ drawn, Forall (fun exchange : nat * nat => exchange.2 ≤ exchange.1 ≤ i)
                  (exchanges i randoms drawn).
Proof.
  intros Hrange. induction i as [|i IH]; intros drawn; cbn [exchanges];
    [constructor |].
  constructor.
  - cbn [fst snd]. split; [| done].
    apply drawn_index_range; apply Hrange.
  - eapply Forall_impl; [apply IH |]. cbn. lia.
Qed.

(** Whatever [Math.random] returns within its range, every exchange
    of the loop is between two positions of the array, the second one
    not after the first, and the shuffled array is a rearrangement of
    the array: the same items, each as often, hence as many. *)
Theorem shuffleArray_Permutation {A} (array : list A) (randoms : nat → Q) :
  (∀ k, (0 <= randoms k)%Q ∧ (randoms k < 1)%Q) →
  Forall (fun exchange : nat * nat =>
            exchange.2 ≤ exchange.1 ∧ exchange.1 < length array)
         (exchanges (length array - 1) randoms 0)
  ∧ shuffleArray array randoms ≡ₚ array
  ∧ length (shuffleArray array randoms) = length array.
Proof.
  intros Hrange.
  assert (shuffleArray array randoms ≡ₚ array) as Hperm
    by apply shuffleFrom_Permutation.
  split; [| split; [done | by rewrite Hperm]].
  destruct array as [|item rest]; [constructor |].
  eapply Forall_impl; [by apply exchanges_range |].
  cbn. intros exchange. lia.
Qed.

Lemma shuffleArray_Permutation_witness :
  shuffleArray [1; 2; 3; 4] (fun k => 1 # Pos.of_nat (k + 2)) ≡ₚ [1; 2; 3; 4].
Proof.
  refine (proj1 (proj2 (shuffleArray_Permutation [1; 2; 3; 4]
                          (fun k => 1 # Pos.of_nat (k + 2)) _))).
  intros k. split; [discriminate |].
  unfold Qlt. cbn. lia.
Defined.

End UtilsFacts.

(** ** Stored preferences: reads, writes and their composition *)

Module PreferenceStoreFacts.
Import Js Firestore PreferenceStore UserPreferencesController.
Import Specification PreferenceFacts.

Section WithClient.
Context {client : Client}.

Lemma set_merge_healthy (store : gmap string (gmap string Value))
    (userId : string) (data : gmap string Value) :
  userId ≠ "" →
  set_merge Healthy store userId data
  = Returned (<[userId := spread (default ∅ (store !! userId)) data]> store).
Proof. intros Hid. unfold set_merge, reach. by rewrite decide_False. Qed.

(** What a read returns in each case. *)
Lemma getUserPreferences_cases (constructedAt : Z) (health : Health) (now : Z)
    (store : gmap string (gmap string Value)) (userId : option string) :
  getUserPreferences constructedAt health now store userId
  = match userId, health with
    | Some (String c rest), Healthy =>
        match store !! String c rest with
        | Some record =>
            <["updatedAt" := or_value (record !! "updatedAt") (VDate now)]>
              (spread (defaultPreferences constructedAt) record)
        | None => defaultPreferences constructedAt
        end
    | _, _ => defaultPreferences constructedAt
    end.
Proof.
  unfold getUserPreferences, Firestore.get, reach.
  destruct userId as [[|c rest]|]; [done | | done].
  destruct health; [| done]. rewrite decide_False by done.
  by destruct (store !! String c rest).
Qed.

(** Whatever the user id, the stored data and the state of the store,
    the record returned by a read carries every field of the default
    record; it is the default record when the user id is absent or
    empty, when the user has no record and when the store fails; and
    for a stored record every field other than [updatedAt] is the
    stored one, or the default one when the record lacks it. *)
Theorem getUserPreferences_complete (constructedAt : Z) (health : Health)
    (now : Z) (store : gmap string (gmap string Value))
    (userId : option string) :
  Forall (fun field =>
            is_Some (getUserPreferences constructedAt health now store userId
                     !! field))
         recordFields
  ∧ (userId = None ∨ userId = Some ""
     ∨ (∃ message, health = Failing message)
     ∨ (∃ id, userId = Some id ∧ store !! id = None) →
     getUserPreferences constructedAt health now store userId
     = defaultPreferences constructedAt)
  ∧ (∀ (id : string) (record : gmap string Value) (field : string),
       userId = Some id → id ≠ "" → health = Healthy →
       store !! id = Some record → field ≠ "updatedAt" →
       getUserPreferences constructedAt health now store userId !! field
       = match record !! field with
         | Some value => Some value
         | None => defaultPreferences constructedAt !! field
         end).
Proof.
  rewrite getUserPreferences_cases. split; [| split].
  - apply Forall_forall. intros field Hfield.
    apply (defaultPreferences_fields constructedAt) in Hfield.
    destruct userId as [[|c rest]|]; [exact Hfield | | exact Hfield].
    destruct health; [| exact Hfield].
    destruct (store !! String c rest) as [record|]; [| exact Hfield].
    destruct (decide (field = "updatedAt")) as [->|];
      [rewrite lookup_insert_eq; by eexists |].
    rewrite lookup_insert_ne by done. unfold spread.
    rewrite lookup_union. destruct Hfield as [value ->].
    destruct (record !! field); by eexists.
  - intros [-> | [-> | [[message ->] | (id & -> & Hnone)]]]; [done | done | |].
    + by destruct userId as [[|c rest]|].
    + destruct id as [|c rest]; [done |]. destruct health; [| done].
      by rewrite Hnone.
  - intros id record field -> Hid -> Hrecord Hfield.
    destruct id as [|c rest]; [done |]. rewrite Hrecord.
    rewrite lookup_insert_ne by done. unfold spread. rewrite lookup_union.
    by destruct (record !! field), (defaultPreferences constructedAt !! field).
Qed.

(** The record a save hands to the store. *)
Lemma preferencesToSave_lookup (constructedAt now : Z) (userId : string)
    (preferences : gmap string Value) (field : string) :
  (<["createdAt" := or_value (preferences !! "createdAt") (VDate now)]>
     (<["updatedAt" := VDate now]>
        (<["userId" := VString userId]>
           (spread (defaultPreferences constructedAt) preferences)))) !! field
  = if decide (field = "createdAt")
    then Some (or_value (preferences !! "createdAt") (VDate now))
    else if decide (field = "updatedAt") then Some (VDate now)
    else if decide (field = "userId") then Some (VString userId)
    else match preferences !! field with
         | Some value => Some value
         | None => defaultPreferences constructedAt !! field
         end.
Proof.
  repeat case_decide; subst.
  - apply lookup_insert_eq.
  - rewrite lookup_insert_ne by done. apply lookup_insert_eq.
  - rewrite !lookup_insert_ne by done. apply lookup_insert_eq.
  - rewrite !lookup_insert_ne by done. unfold spread. rewrite lookup_union.
    by destruct (preferences !! field), (defaultPreferences constructedAt !! field).
Qed.

Lemma or_value_truthy_date (a : option Value) (now : Z) :
  truthy (Some (or_value a (VDate now))) = true.
Proof.
  unfold or_value. destruct a as [value|]; [| done].
  by destruct (truthy (Some value)) eqn:Htruthy.
Qed.

(** A save that reaches the store resolves to the record it wrote:
    the supplied preferences over the defaults, with the user id, the
    time of the save as [updatedAt], and as [createdAt] the supplied
    one if it is truthy, the time of the save otherwise.  The record
    stored afterwards carries its user id, a creation date and every
    default field, holds every field of the returned record, keeps the
    fields of the former record that the returned record lacks, and the
    records of the other users are untouched.  A save that does not
    reach the store rejects and changes nothing. *)
Theorem saveUserPreferences_stores (constructedAt : Z) (health : Health)
    (now : Z) (store : gmap string (gmap string Value)) (userId : string)
    (preferences : gmap string Value) :
  userId ≠ "" →
  match health with
  | Healthy =>
      ∃ saved stored : gmap string Value,
        saveUserPreferences constructedAt health now store userId preferences
        = (Returned saved, <[userId := stored]> store)
        ∧ storedRecord userId stored
        ∧ (∀ field value, saved !! field = Some value →
                          stored !! field = Some value)
        ∧ (∀ field, saved !! field = None →
                    stored !! field = default ∅ (store !! userId) !! field)
        ∧ (∀ field value,
             preferences !! field = Some value →
             field ∉ ["userId"; "updatedAt"; "createdAt"] →
             saved !! field = Some value)
        ∧ saved !! "updatedAt" = Some (VDate now)
        ∧ (∀ other, other ≠ userId →
                    <[userId := stored]> store !! other = store !! other)
  | Failing message =>
      saveUserPreferences constructedAt health now store userId preferences
      = (Thrown ("Failed to save user preferences: " ++ message), store)
  end.
Proof.
  intros Hid. destruct health as [|message]; [| reflexivity].
  unfold saveUserPreferences. rewrite set_merge_healthy by done.
  pose proof (preferencesToSave_lookup constructedAt now userId preferences)
    as Hlookup.
  set (saved := <["createdAt" := _]> _) in *.
  exists saved, (saved ∪ default ∅ (store !! userId)).
  split; [reflexivity |].
  split; [| split; [| split; [| split; [| split]]]].
  - split; [| split].
    + apply lookup_union_Some_l. rewrite Hlookup.
      by rewrite !decide_False, decide_True by done.
    + erewrite lookup_union_Some_l; [| rewrite Hlookup; by rewrite decide_True].
      apply or_value_truthy_date.
    + apply Forall_forall. intros field Hfield.
      apply (defaultPreferences_fields constructedAt) in Hfield.
      destruct Hfield as [value Hvalue].
      assert (is_Some (saved !! field)) as [found Hfound].
      { rewrite Hlookup, Hvalue.
        repeat case_decide; destruct (preferences !! field); by eexists. }
      exists found. by apply lookup_union_Some_l.
  - intros field value Hsaved. by apply lookup_union_Some_l.
  - intros field Hsaved. rewrite lookup_union, Hsaved.
    by destruct (default ∅ (store !! userId) !! field).
  - intros field value Hsupplied Hfield.
    rewrite Hlookup, Hsupplied.
    rewrite !not_elem_of_cons in Hfield. destruct Hfield as (? & ? & ? & _).
    by rewrite !decide_False.
  - rewrite Hlookup. by rewrite decide_False, decide_True.
  - intros other Hother. by rewrite lookup_insert_ne.
Qed.


(** The record found in the store after a save that reached it. *)
Lemma saveUserPreferences_stored (constructedAt now : Z)
    (store : gmap string (gmap string Value)) (userId : string)
    (preferences : gmap string Value) :
  userId ≠ "" →
  ∃ stored : gmap string Value,
    (saveUserPreferences constructedAt Healthy now store userId preferences).2
    !! userId = Some stored
    ∧ ∀ field,
        stored !! field
        = if decide (field = "createdAt")
          then Some (or_value (preferences !! "createdAt") (VDate now))
          else if decide (field = "updatedAt") then Some (VDate now)
          else if decide (field = "userId") then Some (VString userId)
          else match preferences !! field with
               | Some value => Some value
               | None =>
                   match defaultPreferences constructedAt !! field with
                   | Some value => Some value
                   | None => default ∅ (store !! userId) !! field
                   end
               end.
Proof.
  intros Hid. rewrite saveUserPreferences_healthy by done. cbv zeta. cbn [snd].
  eexists. split; [apply lookup_insert_eq |].
  intros field. unfold spread at 1. rewrite lookup_union, preferencesToSave_lookup.
  repeat case_decide;
    destruct (preferences !! field),
      (defaultPreferences constructedAt !! field),
      (default ∅ (store !! userId) !! field); done.
Qed.

Lemma save_then_get_stored (constructedAt savedAt readAt : Z)
    (store : gmap string (gmap string Value)) (userId : string)
    (preferences : gmap string Value) :
  userId ≠ "" →
  ∃ stored : gmap string Value,
    (saveUserPreferences constructedAt Healthy savedAt store userId preferences).2
    !! userId = Some stored
    ∧ getUserPreferences constructedAt Healthy readAt
        (saveUserPreferences constructedAt Healthy savedAt store userId
           preferences).2
        (Some userId)
      = stored
    ∧ truthy (stored !! "userId") = true.
Proof.
  intros Hid.
  destruct (saveUserPreferences_stored constructedAt savedAt store userId
              preferences Hid) as (stored & Hstored & Hfields).
  exists stored. split; [done |]. split.
  - rewrite getUserPreferences_cases.
    destruct userId as [|c rest]; [done |]. rewrite Hstored.
    apply map_eq. intros field.
    destruct (decide (field = "updatedAt")) as [->|Hfield].
    + rewrite lookup_insert_eq, (Hfields "updatedAt").
      by rewrite decide_False, decide_True.
    + rewrite lookup_insert_ne by done. unfold spread. rewrite lookup_union.
      rewrite (Hfields field).
      repeat case_decide;
        destruct (preferences !! field),
          (defaultPreferences constructedAt !! field),
          (default ∅ (store !! String c rest) !! field); done.
  - rewrite Hfields. rewrite !decide_False, decide_True by done.
    cbn. destruct userId; [done | done].
Qed.

(** Round trip: a read that follows a save returns the record the
    save left in the store, whatever the time of the read; the fields
    supplied to the save, other than the three the save sets itself,
    are read back as supplied. *)
Theorem save_then_get (constructedAt savedAt readAt : Z)
    (store : gmap string (gmap string Value)) (userId : string)
    (preferences : gmap string Value) :
  userId ≠ "" →
  ∃ stored : gmap string Value,
    (saveUserPreferences constructedAt Healthy savedAt store userId preferences).2
    !! userId = Some stored
    ∧ getUserPreferences constructedAt Healthy readAt
        (saveUserPreferences constructedAt Healthy savedAt store userId
           preferences).2
        (Some userId)
      = stored
    ∧ ∀ field value,
        preferences !! field = Some value →
        field ∉ ["userId"; "updatedAt"; "createdAt"] →
        stored !! field = Some value.
Proof.
  intros Hid.
  destruct (saveUserPreferences_stored constructedAt savedAt store userId
              preferences Hid) as (stored & Hstored & Hfields).
  exists stored. split; [done |]. split.
  - rewrite getUserPreferences_cases.
    destruct userId as [|c rest]; [done |]. rewrite Hstored.
    apply map_eq. intros field.
    destruct (decide (field = "updatedAt")) as [->|Hfield].
    + rewrite lookup_insert_eq, (Hfields "updatedAt").
      by rewrite decide_False, decide_True.
    + rewrite lookup_insert_ne by done. unfold spread. rewrite lookup_union.
      rewrite (Hfields field).
      repeat case_decide;
        destruct (preferences !! field),
          (defaultPreferences constructedAt !! field),
          (default ∅ (store !! String c rest) !! field); done.
  - intros field value Hsupplied Hfield. rewrite Hfields, Hsupplied.
    rewrite !not_elem_of_cons in Hfield. destruct Hfield as (? & ? & ? & _).
    by rewrite !decide_False.
Qed.

(** A save on its own merges over the defaults, not over the stored
    record: each default field that the supplied preferences lack,
    [interests] among them, is stored with its default value, whatever
    the user's record held before. *)
Theorem saveUserPreferences_resets_unsupplied (constructedAt now : Z)
    (store : gmap string (gmap string Value)) (userId : string)
    (preferences : gmap string Value) :
  userId ≠ "" →
  ∃ stored : gmap string Value,
    (saveUserPreferences constructedAt Healthy now store userId preferences).2
    !! userId = Some stored
    ∧ (preferences !! "interests" = None →
       stored !! "interests"
       = Some (VStrings ["restaurant"; "tourist_attraction"; "shopping_mall"]))
    ∧ ∀ field,
        field ∈ recordFields → field ≠ "createdAt" → field ≠ "updatedAt" →
        preferences !! field = None →
        stored !! field = defaultPreferences constructedAt !! field.
Proof.
  intros Hid.
  destruct (saveUserPreferences_stored constructedAt now store userId
              preferences Hid) as (stored & Hstored & Hfields).
  exists stored. split; [done |]. split.
  - intros Hnone. by rewrite Hfields, Hnone.
  - intros field Hfield Hcreated Hupdated Hnone.
    apply (defaultPreferences_fields constructedAt) in Hfield as [value Hvalue].
    rewrite Hfields, Hnone, Hvalue.
    rewrite !decide_False; [done | | done | done].
    intros ->. discriminate Hvalue.
Qed.

End WithClient.

(** The theorems above at concrete inputs, for a sample client. *)

#[local] Existing Instance Samples.sampleClient.

Lemma saveUserPreferences_stores_witness :
  ∃ saved stored : gmap string Value,
    saveUserPreferences 0 Healthy 5 ∅ "alice" {["ageGroup" := VString "senior"]}
    = (Returned saved, <["alice" := stored]> ∅)
    ∧ storedRecord "alice" stored.
Proof.
  destruct (saveUserPreferences_stores 0 Healthy 5 ∅ "alice"
              {["ageGroup" := VString "senior"]})
    as (saved & stored & Hrun & Hstored & _); [discriminate |].
  by exists saved, stored.
Defined.

Lemma save_then_get_witness :
  ∃ stored : gmap string Value,
    getUserPreferences 0 Healthy 9
      (saveUserPreferences 0 Healthy 5 ∅ "alice"
         {["priceRange" := VString "luxury"]}).2 (Some "alice")
    = stored
    ∧ stored !! "priceRange" = Some (VString "luxury").
Proof.
  destruct (save_then_get 0 5 9 ∅ "alice" {["priceRange" := VString "luxury"]})
    as (stored & _ & Hread & Hfields); [discriminate |].
  exists stored. split; [exact Hread |].
  apply Hfields; [apply lookup_singleton_eq |].
  rewrite !not_elem_of_cons. repeat split; try discriminate. apply not_elem_of_nil.
Defined.

Lemma saveUserPreferences_resets_unsupplied_witness :
  ∃ stored : gmap string Value,
    (saveUserPreferences 0 Healthy 5 {["alice" := Samples.aliceRecord]} "alice"
       {["ageGroup" := VString "senior"]}).2 !! "alice" = Some stored
    ∧ stored !! "interests"
      = Some (VStrings ["restaurant"; "tourist_attraction"; "shopping_mall"]).
Proof.
  destruct (saveUserPreferences_resets_unsupplied 0 5
              {["alice" := Samples.aliceRecord]} "alice"
              {["ageGroup" := VString "senior"]})
    as (stored & Hstored & Hinterests & _); [discriminate |].
  exists stored. split; [exact Hstored |]. by apply Hinterests.
Defined.

End PreferenceStoreFacts.

(** ** The preference handlers *)

Module PreferenceHandlerFacts.
Import Js Firestore PreferenceHandlers PreferenceStore UserPreferencesController.
Import Specification PreferenceFacts PreferenceStoreFacts.

Section WithClient.
Context {client : Client}.






Lemma saveUserPreferences_frame (constructedAt : Z) (health : Health) (now : Z)
    (store : gmap string (gmap string Value)) (userId : string)
    (preferences : gmap string Value) :
  (∀ other, other ≠ userId →
     (saveUserPreferences constructedAt health now store userId preferences).2
     !! other = store !! other)
  ∧ ((∃ message,
        (saveUserPreferences constructedAt health now store userId preferences).1
        = Thrown message) →
     (saveUserPreferences constructedAt health now store userId preferences).2
     = store).
Proof.
  unfold saveUserPreferences, set_merge, reach.
  destruct health; [| done]. case_decide; [done |]. cbn [fst snd]. split.
  - intros other Hother. by rewrite lookup_insert_ne.
  - by intros (? & ?).
Qed.

(** An update touches no record but that of the user named; a request
    without a user id, or with an empty one, and a request whose
    preferences [validatePreferences] rejects, are answered with status
    400; and whenever the answer is not status 200 the store is left
    as it was. *)
Theorem updateUserPreferences_frame (env : UpdateEnv)
    (store : gmap string (gmap string Value))
    (userId : option string) (preferences : option (gmap string Value)) :
  (∀ other, userId ≠ Some other →
     (updateUserPreferences env store userId preferences).2 !! other
     = store !! other)
  ∧ (userId = None ∨ userId = Some "" →
     updateUserPreferences env store userId preferences
     = (Status400 "MISSING_USER_ID", store))
  ∧ (∀ id message,
       userId = Some id → id ≠ "" →
       validatePreferences preferences = Some message →
       updateUserPreferences env store userId preferences
       = (Status400 "VALIDATION_ERROR", store))
  ∧ ((∀ id saved,
        (updateUserPreferences env store userId preferences).1
        ≠ Status200 id saved) →
     (updateUserPreferences env store userId preferences).2 = store).
Proof.
  unfold updateUserPreferences.
  destruct userId as [[|c rest]|].
  { split; [done | split; [done | split; [| done]]].
    by intros id message [= <-]. }
  2: { split; [done | split; [done | split; [| done]]]. by intros id message. }
  destruct (validatePreferences preferences) as [message|] eqn:Hvalid.
  { split; [done | split; [by intros [|] | split; [done | done]]]. }
  destruct preferences as [fields|]; [| done].
  set (merged := <["updatedAt" := _]> _).
  pose proof (saveUserPreferences_frame (constructedAt env) (writeHealth env)
                (savedAt env) store (String c rest) merged) as [Hframe Hfail].
  destruct (saveUserPreferences _ _ _ _ _ _) as [[saved|message] store'];
    cbn [fst snd] in *.
  - split; [| split; [by intros [|] | split; [done |]]].
    + intros other Hother. apply Hframe. congruence.
    + intros Hnot. by destruct (Hnot (String c rest) saved).
  - split; [| split; [by intros [|] | split; [done |]]].
    + intros other Hother. apply Hframe. congruence.
    + intros _. apply Hfail. eauto.
Qed.

(** When the read of the stored record fails and the write succeeds,
    the update merges the supplied fields over the default record: the
    stored [interests] are replaced by the default ones unless the
    update supplies them. *)
Theorem updateUserPreferences_after_failed_read (env : UpdateEnv)
    (store : gmap string (gmap string Value)) (userId : string)
    (fields : gmap string Value) (message : string) :
  userId ≠ "" →
  readHealth env = Failing message → writeHealth env = Healthy →
  validatePreferences (Some fields) = None →
  fields !! "interests" = None →
  ∃ saved stored : gmap string Value,
    updateUserPreferences env store (Some userId) (Some fields)
    = (Status200 userId saved, <[userId := stored]> store)
    ∧ stored !! "interests"
      = Some (VStrings ["restaurant"; "tourist_attraction"; "shopping_mall"]).
Proof.
  intros Hid Hread Hwrite Hvalid Hinterests. unfold updateUserPreferences.
  destruct userId as [|c rest]; [done |]. rewrite Hvalid, Hread, Hwrite.
  rewrite getUserPreferences_cases.
  set (merged := <["updatedAt" := _]> _).
  assert (merged !! "interests"
          = Some (VStrings ["restaurant"; "tourist_attraction"; "shopping_mall"]))
    as Hmerged.
  { subst merged. rewrite lookup_insert_ne by done. unfold spread.
    by rewrite lookup_union, Hinterests. }
  rewrite saveUserPreferences_healthy by done. cbv zeta.
  eexists _, _. split; [reflexivity |].
  unfold spread at 1. apply lookup_union_Some_l.
  by rewrite preferencesToSave_lookup, Hmerged.
Qed.

(** A delete that reaches the store removes the user's record and no
    other; the next read returns the default record and the [GET]
    handler reports it as default.  A delete that does not reach the
    store answers with a failure and changes nothing, and a delete
    without a user id is refused. *)
Theorem deleteUserPreferences_then_get (health : Health)
    (store : gmap string (gmap string Value)) (userId : string)
    (constructedAt readAt : Z) (readHealth : Health) :
  userId ≠ "" →
  match health with
  | Healthy =>
      deleteUserPreferences health store (Some userId)
      = (DeleteOk, base.delete userId store)
      ∧ (∀ other, other ≠ userId →
           base.delete userId store !! other = store !! other)
      ∧ PreferenceStore.getUserPreferences constructedAt readHealth readAt
          (base.delete userId store) (Some userId)
        = defaultPreferences constructedAt
      ∧ PreferenceHandlers.getUserPreferences constructedAt readHealth readAt
          (base.delete userId store) (Some userId)
        = GetOk (defaultPreferences constructedAt) true
  | Failing message =>
      deleteUserPreferences health store (Some userId)
      = (DeleteFailed message, store)
  end
  ∧ deleteUserPreferences health store None = (DeleteMissingUserId, store)
  ∧ deleteUserPreferences health store (Some "") = (DeleteMissingUserId, store).
Proof.
  intros Hid. split; [| done].
  unfold deleteUserPreferences, PreferenceHandlers.getUserPreferences,
    Firestore.delete, reach.
  destruct userId as [|c rest]; [done |].
  destruct health as [|message]; [| done].
  rewrite decide_False by done.
  assert (PreferenceStore.getUserPreferences constructedAt readHealth readAt
            (base.delete (String c rest) store) (Some (String c rest))
          = defaultPreferences constructedAt) as Hread.
  { rewrite getUserPreferences_cases, lookup_delete_eq. by destruct readHealth. }
  split; [done |]. split; [intros other Hother; by rewrite lookup_delete_ne |].
  split; [done |]. by rewrite Hread.
Qed.

(** [POST]: valid preferences are saved under the user id of the body,
    or under the fresh identifier when the body has none, and the
    record is then read back by [GET] as the user's own (not default);
    an empty user id in the body is not replaced by the fresh
    identifier, and the save fails on it with the message the client
    has for an empty document path, behind the prefix of the
    service. *)
Theorem saveUserPreferences_creates (constructedAt now readAt : Z) (uuid : string)
    (store : gmap string (gmap string Value))
    (userId : option string) (fields : gmap string Value) :
  uuid ≠ "" →
  validatePreferences (Some fields) = None →
  (userId ≠ Some "" →
   ∃ saved stored : gmap string Value,
     PreferenceHandlers.saveUserPreferences constructedAt Healthy now uuid store
       userId (Some fields)
     = (SaveCreated (default uuid userId) saved,
        <[default uuid userId := stored]> store)
     ∧ PreferenceHandlers.getUserPreferences constructedAt Healthy readAt
         (<[default uuid userId := stored]> store) (Some (default uuid userId))
       = GetOk stored false)
  ∧ PreferenceHandlers.saveUserPreferences constructedAt Healthy now uuid store
      (Some "") (Some fields)
    = (SaveFailed ("Failed to save user preferences: " ++ invalidPathMessage),
       store).
Proof.
  intros Huuid Hvalid. split.
  - intros Hempty.
    assert (default uuid userId ≠ "") as Hid
      by (destruct userId as [id|]; [cbn; congruence | done]).
    destruct (save_then_get_stored constructedAt now readAt store
                (default uuid userId) fields Hid)
      as (stored & Hstore & Hread & Huser).
    unfold PreferenceHandlers.saveUserPreferences. rewrite Hvalid.
    rewrite saveUserPreferences_healthy in * by done. cbv zeta in *.
    cbn [snd] in *. rewrite lookup_insert_eq in Hstore. injection Hstore as Hstore.
    eexists _, stored. rewrite Hstore. split; [reflexivity |].
    unfold PreferenceHandlers.getUserPreferences.
    destruct (default uuid userId) as [|c rest] eqn:Hdefault; [done |].
    rewrite <- Hstore, Hread, Hstore, Huser. reflexivity.
  - unfold PreferenceHandlers.saveUserPreferences. by rewrite Hvalid.
Qed.

End WithClient.

(** The theorems above at concrete inputs, for a sample client. *)

#[local] Existing Instance Samples.sampleClient.

Lemma updateUserPreferences_after_failed_read_witness :
  ∃ saved stored : gmap string Value,
    updateUserPreferences
      {| constructedAt := 0; readHealth := Failing "UNAVAILABLE"; readAt := 10;
         mergedAt := 11; writeHealth := Healthy; savedAt := 12 |}
      {["alice" := Samples.aliceRecord]} (Some "alice")
      (Some {["ageGroup" := VString "senior"]})
    = (Status200 "alice" saved, <["alice" := stored]> {["alice" := Samples.aliceRecord]})
    ∧ stored !! "interests"
      = Some (VStrings ["restaurant"; "tourist_attraction"; "shopping_mall"]).
Proof.
  apply (updateUserPreferences_after_failed_read
           {| constructedAt := 0; readHealth := Failing "UNAVAILABLE"; readAt := 10;
              mergedAt := 11; writeHealth := Healthy; savedAt := 12 |}
           {["alice" := Samples.aliceRecord]} "alice"
           {["ageGroup" := VString "senior"]} "UNAVAILABLE").
  - discriminate.
  - reflexivity.
  - reflexivity.
  - apply validatePreferences_ageGroup. unfold getAvailableAgeGroups.
    rewrite !elem_of_cons. auto.
  - apply lookup_singleton_ne. discriminate.
Defined.

(** C4 fails for [saveUserPreferences] called on its own, and for an
    update whose read of the stored record fails: for a user whose
    stored interests are [food], a save, or such an update, that
    supplies only [ageGroup] succeeds and leaves the default interests
    in the store; the save returns them as well. *)
Lemma save_ageGroup_only_resets_interests :
  Samples.aliceRecord !! "interests" = Some (VStrings ["food"])
  ∧ (∃ saved stored : gmap string Value,
       PreferenceStore.saveUserPreferences 0 Healthy 5
         {["alice" := Samples.aliceRecord]} "alice"
         {["ageGroup" := VString "senior"]}
       = (Returned saved,
          <["alice" := stored]> {["alice" := Samples.aliceRecord]})
       ∧ saved !! "interests"
         = Some (VStrings ["restaurant"; "tourist_attraction"; "shopping_mall"])
       ∧ stored !! "interests"
         = Some (VStrings ["restaurant"; "tourist_attraction"; "shopping_mall"]))
  ∧ ∃ saved stored : gmap string Value,
      updateUserPreferences
        {| constructedAt := 0; readHealth := Failing "UNAVAILABLE"; readAt := 10;
           mergedAt := 11; writeHealth := Healthy; savedAt := 12 |}
        {["alice" := Samples.aliceRecord]} (Some "alice")
        (Some {["ageGroup" := VString "senior"]})
      = (Status200 "alice" saved,
         <["alice" := stored]> {["alice" := Samples.aliceRecord]})
      ∧ stored !! "interests"
        = Some (VStrings ["restaurant"; "tourist_attraction"; "shopping_mall"]).
Proof.
  split; [reflexivity |]. split.
  - rewrite saveUserPreferences_healthy by discriminate. cbv zeta.
    eexists _, _. split; [reflexivity |]. split.
    + by rewrite preferencesToSave_lookup.
    + unfold spread at 1. by rewrite lookup_union, preferencesToSave_lookup.
  - unfold updateUserPreferences.
    rewrite validatePreferences_ageGroup
      by (unfold getAvailableAgeGroups; rewrite !elem_of_cons; auto).
    cbn [constructedAt readHealth readAt mergedAt writeHealth savedAt].
    rewrite getUserPreferences_cases.
    rewrite saveUserPreferences_healthy by discriminate. cbv zeta.
    eexists _, _. split; [reflexivity |].
    unfold spread at 1. apply lookup_union_Some_l.
    by rewrite preferencesToSave_lookup.
Qed.

Lemma deleteUserPreferences_then_get_witness :
  deleteUserPreferences Healthy {["alice" := Samples.aliceRecord]} (Some "alice")
  = (DeleteOk, base.delete "alice" {["alice" := Samples.aliceRecord]}).
Proof.
  refine (proj1 (proj1 (deleteUserPreferences_then_get Healthy
                          {["alice" := Samples.aliceRecord]} "alice" 0 1 Healthy _))).
  discriminate.
Defined.

Lemma saveUserPreferences_creates_witness :
  PreferenceHandlers.saveUserPreferences 0 Healthy 5 "7f3c" ∅ (Some "")
    (Some {["ageGroup" := VString "senior"]})
  = (SaveFailed ("Failed to save user preferences: " ++ invalidPathMessage), ∅).
Proof.
  refine (proj2 (saveUserPreferences_creates 0 5 9 "7f3c" ∅ None
                   {["ageGroup" := VString "senior"]} _ _)).
  - discriminate.
  - apply validatePreferences_ageGroup. unfold getAvailableAgeGroups.
    rewrite !elem_of_cons. auto.
Defined.

End PreferenceHandlerFacts.

(** ** The area cache: maintenance *)

Module CacheMaintenanceFacts.
Import Js Firestore GooglePlacesService CacheMaintenance CacheFacts.
Local Open Scope nat_scope.

Section WithClient.
Context {client : Client}.

Lemma difference_filter (P : string * CacheEntry → Prop)
    `{!∀ doc, Decision (P doc)} (cache : gmap string CacheEntry) :
  cache ∖ filter P cache = filter (fun doc => ¬ P doc) cache.
Proof.
  apply map_eq. intros key. rewrite lookup_difference.
  destruct (cache !! key) as [entry|] eqn:Hentry.
  - destruct (decide (P (key, entry))) as [HP|HP].
    + rewrite (map_lookup_filter_Some_2 P cache key entry) by done.
      symmetry. apply map_lookup_filter_None. right.
      intros other Hother. rewrite Hentry in Hother.
      injection Hother as <-. tauto.
    + rewrite (proj2 (map_lookup_filter_None P cache key));
        [| right; intros other Hother; rewrite Hentry in Hother;
           by injection Hother as <-].
      symmetry. by apply map_lookup_filter_Some.
  - rewrite (proj2 (map_lookup_filter_None P cache key)) by by left.
    symmetry. apply map_lookup_filter_None. by left.
Qed.

Lemma filter_sizes (P : string * CacheEntry → Prop)
    `{!∀ doc, Decision (P doc)} (cache : gmap string CacheEntry) :
  size (filter P cache) + size (filter (fun doc => ¬ P doc) cache) = size cache.
Proof.
  rewrite <- map_size_disj_union by apply map_disjoint_filter_complement.
  by rewrite map_filter_union_complement.
Qed.

Lemma cleanupExpiredCache_healthy (cacheTTL : Z) (now : Z)
    (cache : gmap string CacheEntry) :
  cleanupExpiredCache cacheTTL Healthy Healthy now cache
  = (Returned
       (size (filter (fun doc : string * CacheEntry =>
                        (cachedAt doc.2 < now - cacheTTL * 60 * 60 * 1000)%Z)
                     cache)),
     filter (fun doc : string * CacheEntry =>
               ¬ (cachedAt doc.2 < now - cacheTTL * 60 * 60 * 1000)%Z)
            cache).
Proof.
  unfold cleanupExpiredCache. cbv zeta.
  set (expired := filter _ cache).
  destruct (Nat.ltb_spec 0 (size expired)) as [Hsome|Hnone].
  - subst expired. by rewrite difference_filter.
  - assert (size expired = 0) as Hzero by lia. rewrite Hzero. f_equal.
    pose proof (filter_sizes
                  (fun doc : string * CacheEntry =>
                     (cachedAt doc.2 < now - cacheTTL * 60 * 60 * 1000)%Z) cache)
      as Hsizes.
    fold expired in Hsizes. apply map_size_empty_inv in Hzero.
    rewrite <- (map_filter_union_complement
                  (fun doc : string * CacheEntry =>
                     (cachedAt doc.2 < now - cacheTTL * 60 * 60 * 1000)%Z) cache)
      at 1.
    fold expired. by rewrite Hzero, (left_id_L ∅ (∪)).
Qed.

(** A clean-up that reaches the store keeps exactly the entries whose
    age at that time is at most the TTL, and returns the number of
    entries it removed; the entries it removes are those that a lookup
    at the same time deletes as expired; and a clean-up whose query or
    commit fails returns 0 and changes nothing. *)
Theorem cleanupExpiredCache_removes_expired (cacheTTL : Z) (now : Z)
    (cache : gmap string CacheEntry) :
  (∀ key entry,
     (cleanupExpiredCache cacheTTL Healthy Healthy now cache).2 !! key
     = Some entry ↔
     cache !! key = Some entry
     ∧ (now - cachedAt entry ≤ cacheTTL * 60 * 60 * 1000)%Z)
  ∧ (∃ removed,
       (cleanupExpiredCache cacheTTL Healthy Healthy now cache).1
       = Returned removed
       ∧ removed
         + size (cleanupExpiredCache cacheTTL Healthy Healthy now cache).2
         = size cache)
  ∧ (∀ key entry,
       key ≠ "" → cache !! key = Some entry →
       ((cleanupExpiredCache cacheTTL Healthy Healthy now cache).2 !! key = None ↔
        getCachedAreaData cacheTTL
          {| readHealth := Healthy; FirebaseService.now := now;
             deleteHealth := Healthy |} cache key
        = (Returned None, base.delete key cache)))
  ∧ (∀ queryHealth commitHealth message,
       queryHealth = Failing message ∨ commitHealth = Failing message →
       cleanupExpiredCache cacheTTL queryHealth commitHealth now cache
       = (Returned 0, cache)).
Proof.
  rewrite cleanupExpiredCache_healthy. cbn [fst snd].
  split; [| split; [| split]].
  - intros key entry. rewrite map_lookup_filter_Some. cbn [snd]. split.
    + intros [? ?]. split; [done | lia].
    + intros [? ?]. split; [done | lia].
  - eexists. split; [reflexivity |]. apply filter_sizes.
  - intros key entry Hkey Hentry.
    rewrite (getCachedAreaData_healthy_read _ _ _ _ entry) by done.
    cbn [FirebaseService.now deleteHealth].
    rewrite map_lookup_filter_None.
    destruct (Z.gtb_spec (now - cachedAt entry) (cacheTTL * 60 * 60 * 1000)).
    + split; [done |]. intros _. right. intros other Hother.
      rewrite Hentry in Hother. injection Hother as <-. cbn. lia.
    + split; [| done]. intros [Hnone | Hexpired]; [congruence |].
      specialize (Hexpired entry Hentry). cbn in Hexpired. lia.
  - intros queryHealth commitHealth message [-> | ->]; unfold cleanupExpiredCache;
      [done |]. cbv zeta.
    destruct queryHealth; [| done].
    destruct (Nat.ltb_spec 0 (size (filter
      (fun doc : string * CacheEntry =>
         (cachedAt doc.2 < now - cacheTTL * 60 * 60 * 1000)%Z) cache)))
      as [Hsome|Hnone]; [done |].
    do 2 f_equal. lia.
Qed.

Lemma getCachedAreaData_subset (cacheTTL : Z) (env : LookupEnv)
    (cache : gmap string CacheEntry) (cacheKey : string) :
  (getCachedAreaData cacheTTL env cache cacheKey).2 = cache
  ∨ (getCachedAreaData cacheTTL env cache cacheKey).2
    = base.delete cacheKey cache.
Proof.
  unfold getCachedAreaData, Firestore.get, Firestore.delete, reach.
  destruct (readHealth env); [| by left].
  destruct (decide (cacheKey = "")); [by left |].
  destruct (cache !! cacheKey) as [entry|]; [| by left].
  destruct (_ >? _)%Z; [| by left].
  destruct (deleteHealth env); [| by left].
  destruct (decide (cacheKey = "")); [by left | by right].
Qed.

Lemma cacheAreaData_result (env : WriteEnv) (cache : gmap string CacheEntry)
    (cacheKey : string) (payload : AreaData) :
  (cacheAreaData env cache cacheKey payload).2 = cache
  ∨ cacheKey ≠ ""
    ∧ (cacheAreaData env cache cacheKey payload).2
      = <[cacheKey := {| areaData := payload;
                         cachedAt := cachedAtNow env;
                         accessCount := 1;
                         lastAccessed := lastAccessedNow env |}]> cache.
Proof.
  unfold cacheAreaData, Firestore.set, reach.
  destruct (writeHealth env); [| by left].
  destruct (decide (cacheKey = "")); [by left | by right].
Qed.

Lemma updateCacheAccess_unchanged (health : Health)
    (cache : gmap string CacheEntry) (cacheKey : string) :
  updateCacheAccess health cache cacheKey = (Returned tt, cache).
Proof.
  unfold updateCacheAccess, reach.
  destruct health; [| done]. by destruct (decide (cacheKey = "")).
Qed.

Lemma cleanupExpiredCache_subset (cacheTTL : Z)
    (queryHealth commitHealth : Health) (now : Z)
    (cache : gmap string CacheEntry) :
  (cleanupExpiredCache cacheTTL queryHealth commitHealth now cache).2 ⊆ cache.
Proof.
  unfold cleanupExpiredCache. cbv zeta.
  destruct queryHealth; [| done].
  destruct (0 <? _); [| done].
  destruct commitHealth; [| done].
  apply map_subseteq_difference_l. done.
Qed.

(** The operations that take a cache key (lookup, write, access
    update) leave the entries stored under every other key as they
    were, whatever the health of the store. *)
Theorem cache_operations_frame (cacheTTL : Z) (lookup : LookupEnv)
    (write : WriteEnv) (health : Health) (cache : gmap string CacheEntry)
    (cacheKey other : string) (payload : AreaData) :
  other ≠ cacheKey →
  (getCachedAreaData cacheTTL lookup cache cacheKey).2 !! other = cache !! other
  ∧ (cacheAreaData write cache cacheKey payload).2 !! other = cache !! other
  ∧ (updateCacheAccess health cache cacheKey).2 !! other = cache !! other.
Proof.
  intros Hother. split; [| split].
  - destruct (getCachedAreaData_subset cacheTTL lookup cache cacheKey)
      as [-> | ->]; [done |]. by apply lookup_delete_ne.
  - destruct (cacheAreaData_result write cache cacheKey payload)
      as [-> | [_ ->]]; [done |]. by apply lookup_insert_ne.
  - by rewrite updateCacheAccess_unchanged.
Qed.

(** Whatever sequence of lookups, writes, access updates and clean-ups
    the cache collection goes through from the empty collection, every
    entry it holds has a non-empty key and an access count of 1: the
    access update never reaches the store, because the value it would
    send is built from [admin], which the module does not bind. *)
Theorem accessCount_stays_1 (cache : gmap string CacheEntry)
    (cacheKey : string) (entry : CacheEntry) :
  rtc CacheStep ∅ cache →
  cache !! cacheKey = Some entry →
  cacheKey ≠ "" ∧ accessCount entry = 1%Z.
Proof.
  intros Hsteps. revert cacheKey entry. revert cache Hsteps.
  apply (rtc_ind_r (fun cache : gmap string CacheEntry =>
                      ∀ cacheKey entry, cache !! cacheKey = Some entry →
                                        cacheKey ≠ "" ∧ accessCount entry = 1%Z)).
  - intros key entry Hentry. by rewrite lookup_empty in Hentry.
  - intros before after Hbefore Hstep IH key entry Hentry.
    destruct Hstep as [ttl env cacheKey cache | env cacheKey payload cache
                       | health cacheKey cache | ttl query commit now cache].
    + destruct (getCachedAreaData_subset ttl env cache cacheKey) as [Heq | Heq];
        rewrite Heq in Hentry; [by apply IH |].
      apply lookup_delete_Some in Hentry as [_ Hentry]. by apply IH.
    + destruct (cacheAreaData_result env cache cacheKey payload)
        as [Heq | [Hid Heq]]; rewrite Heq in Hentry; [by apply IH |].
      apply lookup_insert_Some in Hentry as [[<- <-] | [_ Hentry]];
        [done | by apply IH].
    + rewrite updateCacheAccess_unchanged in Hentry. by apply IH.
    + apply IH.
      by apply (lookup_weaken _ _ _ _ Hentry),
               cleanupExpiredCache_subset.
Qed.

Lemma trackPopularArea_result (readHealth writeHealth : Health)
    (lastSearchedNow createdAtNow : Z) (areas : gmap string PopularArea)
    (coords : Coords) (userInterests : option (list string)) :
  (trackPopularArea readHealth writeHealth lastSearchedNow createdAtNow
     areas coords userInterests).2 = areas
  ∨ areas !! generateCacheKey coords 1000 = None
    ∧ (trackPopularArea readHealth writeHealth lastSearchedNow createdAtNow
         areas coords userInterests).2
      = <[generateCacheKey coords 1000 :=
            {| pa_coordinates := coords;
               searchCount := 1;
               lastSearched := lastSearchedNow;
               averageUserInterests := default [] userInterests;
               pa_createdAt := createdAtNow |}]> areas.
Proof.
  unfold trackPopularArea, Firestore.get, Firestore.set, reach. cbv zeta.
  destruct readHealth; [| by left].
  destruct (decide (generateCacheKey coords 1000 = "")); [by left |].
  destruct (areas !! generateCacheKey coords 1000) eqn:Hexisting; [by left |].
  destruct writeHealth; [| by left].
  destruct (decide (generateCacheKey coords 1000 = "")); [by left |].
  by right.
Qed.

(** Tracking a search never changes a record the popular-areas
    collection already holds (in particular the search count of an
    area that has a record is not incremented: that update is built
    from the unbound [admin]), and the collection after the call holds
    at most one more record, a new one for the area of the search with
    a search count of 1. *)
Theorem trackPopularArea_never_counts (readHealth writeHealth : Health)
    (lastSearchedNow createdAtNow : Z) (areas : gmap string PopularArea)
    (coords : Coords) (userInterests : option (list string)) :
  let areas' :=
    (trackPopularArea readHealth writeHealth lastSearchedNow createdAtNow
       areas coords userInterests).2 in
  (∀ areaId record, areas !! areaId = Some record →
                    areas' !! areaId = Some record)
  ∧ (∀ areaId record,
       areas' !! areaId = Some record → areas !! areaId = None →
       areaId = generateCacheKey coords 1000
       ∧ searchCount record = 1%Z
       ∧ pa_coordinates record = coords
       ∧ averageUserInterests record = default [] userInterests).
Proof.
  intros areas'. subst areas'.
  destruct (trackPopularArea_result readHealth writeHealth lastSearchedNow
              createdAtNow areas coords userInterests) as [-> | [Hnone ->]].
  - split; [done |]. intros areaId record Hsome Hnone. congruence.
  - split.
    + intros areaId record Hrecord.
      rewrite lookup_insert_ne; [done |]. intros <-. congruence.
    + intros areaId record Hrecord Hmissing.
      apply lookup_insert_Some in Hrecord as [[<- <-] | [_ Hrecord]];
        [done | congruence].
Qed.

(** When the store is healthy, the first search in an area creates its
    record and a second search in the same area leaves the collection
    exactly as the first left it. *)
Theorem trackPopularArea_twice (first second : Z * Z)
    (areas : gmap string PopularArea) (coords : Coords)
    (interests interests' : option (list string)) :
  areas !! generateCacheKey coords 1000 = None →
  let once := (trackPopularArea Healthy Healthy first.1 first.2
                 areas coords interests).2 in
  (∃ record, once !! generateCacheKey coords 1000 = Some record
             ∧ searchCount record = 1%Z ∧ lastSearched record = first.1)
  ∧ (trackPopularArea Healthy Healthy second.1 second.2
       once coords interests').2 = once.
Proof.
  intros Hnone once. subst once.
  pose proof (CacheKeyFacts.generateCacheKey_nonempty coords 1000) as Hid.
  assert ((trackPopularArea Healthy Healthy first.1 first.2
             areas coords interests).2
          = <[generateCacheKey coords 1000 :=
                {| pa_coordinates := coords; searchCount := 1;
                   lastSearched := first.1;
                   averageUserInterests := default [] interests;
                   pa_createdAt := first.2 |}]> areas) as ->.
  { unfold trackPopularArea, Firestore.get, Firestore.set. cbv zeta.
    by rewrite !(reach_healthy _ _ Hid), Hnone. }
  split.
  - eexists. split; [apply lookup_insert_eq | done].
  - unfold trackPopularArea, Firestore.get. cbv zeta.
    by rewrite (reach_healthy _ _ Hid), lookup_insert_eq.
Qed.

End WithClient.

(** The theorems above at concrete inputs, for a sample client. *)

#[local] Existing Instance Samples.sampleClient.

Lemma cache_operations_frame_witness :
  "2_2_3000" ≠ "1_1_3000"
  ∧ (getCachedAreaData 24
       {| readHealth := Healthy; now := 0; deleteHealth := Healthy |}
       ∅ "1_1_3000").2 !! "2_2_3000"
    = (∅ : gmap string CacheEntry) !! "2_2_3000".
Proof.
  assert ("2_2_3000" ≠ "1_1_3000") as Hother by discriminate.
  split; [exact Hother |].
  exact (proj1 (cache_operations_frame 24
                  {| readHealth := Healthy; now := 0; deleteHealth := Healthy |}
                  {| cachedAtNow := 0; lastAccessedNow := 0;
                     writeHealth := Healthy |}
                  Healthy ∅ "1_1_3000" "2_2_3000" Samples.emptyArea Hother)).
Defined.

Lemma accessCount_stays_1_witness :
  let env := {| cachedAtNow := 5; lastAccessedNow := 6;
                writeHealth := Healthy |} in
  let cache := (updateCacheAccess Healthy
                  (cacheAreaData env ∅ "1_1_3000" Samples.emptyArea).2
                  "1_1_3000").2 in
  ∃ entry, cache !! "1_1_3000" = Some entry
           ∧ "1_1_3000" ≠ "" ∧ accessCount entry = 1%Z.
Proof.
  intros env cache.
  assert (rtc CacheStep ∅ cache) as Hsteps.
  { eapply rtc_l; [apply (step_write env "1_1_3000" Samples.emptyArea) |].
    eapply rtc_l; [apply (step_touch Healthy "1_1_3000") |].
    apply rtc_refl. }
  assert (cache !! "1_1_3000"
          = Some {| areaData := Samples.emptyArea; cachedAt := 5;
                    accessCount := 1; lastAccessed := 6 |}) as Hentry
    by reflexivity.
  eexists. split; [exact Hentry |].
  exact (accessCount_stays_1 cache "1_1_3000" _ Hsteps Hentry).
Defined.

Lemma trackPopularArea_twice_witness :
  let coords := {| lat := 1; lng := 1 |} in
  (∅ : gmap string PopularArea) !! generateCacheKey coords 1000 = None
  ∧ (trackPopularArea Healthy Healthy 9 9
       (trackPopularArea Healthy Healthy 5 5 ∅ coords None).2 coords None).2
    = (trackPopularArea Healthy Healthy 5 5 ∅ coords None).2.
Proof.
  intros coords.
  assert ((∅ : gmap string PopularArea) !! generateCacheKey coords 1000 = None)
    as Hnone by apply lookup_empty.
  split; [exact Hnone |].
  exact (proj2 (trackPopularArea_twice (5, 5)%Z (9, 9)%Z ∅ coords None None
                  Hnone)).
Defined.

End CacheMaintenanceFacts.

(** ** Relevant types, time windows and the recommendations summary *)

Module RecommendationFacts.
Import Js Recommendations RelevantTypesFacts.
Local Open Scope list_scope.

(** The relevant types are the union of the types the interests map
    to: a type is relevant exactly when one of the interests maps to
    it (an interest outside the table maps to itself), and no type is
    listed twice. *)
Theorem getRelevantPlaceTypes_union (interests : list string) :
  NoDup (getRelevantPlaceTypes interests)
  ∧ ∀ t, t ∈ getRelevantPlaceTypes interests
         ↔ ∃ interest,
             interest ∈ interests
             ∧ (interestMapping !! interest = None ∧ t = interest
                ∨ ∃ ts, interestMapping !! interest = Some ts ∧ t ∈ ts).
Proof.
  split.
  - apply (proj1 (foldl_mappedTypes interests [])), NoDup_nil_2.
  - intros t. rewrite elem_of_getRelevantPlaceTypes.
    split; intros (interest & Hin & Hmapped); exists interest; (split; [done |]);
      unfold mappedTypes in *.
    + destruct (interestMapping !! interest) as [ts|].
      * right. by exists ts.
      * left. by apply list_elem_of_singleton in Hmapped.
    + destruct Hmapped as [[-> ->] | (ts & -> & ?)];
        [by apply list_elem_of_singleton | done].
Qed.

Lemma includes_ext (l l' : list string) :
  (∀ x, x ∈ l ↔ x ∈ l') → ∀ x, includes l x = includes l' x.
Proof.
  intros Hsame x. unfold includes. apply bool_decide_ext, Hsame.
Qed.

Lemma filter_ext_bool {A} (f g : A → bool) (l : list A) :
  (∀ x, f x = g x) → List.filter f l = List.filter g l.
Proof.
  intros Hfg. induction l as [|x l IH]; [done |].
  cbn. by rewrite Hfg, IH.
Qed.

(** The engine reads the interests as a set: two preference records
    that differ only in the order and the repetitions of their
    interests give the same personalized list. *)
Theorem personalizePlaces_interests_as_set (places : list Place)
    (preferences : Preferences) (tags interests' : list string)
    (context : Context) :
  interests preferences = Some tags →
  (∀ interest, interest ∈ tags ↔ interest ∈ interests') →
  personalizePlaces places
    {| interests := Some interests';
       ageGroup := ageGroup preferences;
       preferredEnvironment := preferredEnvironment preferences;
       priceRange := priceRange preferences;
       timePreference := timePreference preferences;
       maxResults := maxResults preferences |} context
  = personalizePlaces places preferences context.
Proof.
  intros Htags Hsame. unfold personalizePlaces.
  rewrite Htags. cbn [interests ageGroup maxResults].
  do 4 f_equal. apply map_ext. intros place.
  unfold scorePlace.
  cbn [priceRange preferredEnvironment timePreference].
  assert (List.filter (includes (getRelevantPlaceTypes interests')) (types place)
          = List.filter (includes (getRelevantPlaceTypes tags)) (types place))
    as ->; [| done].
  apply filter_ext_bool, includes_ext. intros t.
  rewrite !elem_of_getRelevantPlaceTypes.
  split; intros (interest & Hin & ?); exists interest;
    (split; [by apply Hsame | done]).
Qed.

Lemma personalizePlaces_interests_as_set_witness :
  let cafe :=
    {| place_id := "cafe-1"; rating := Some 4%R;
       user_ratings_total := Some 120%N; price_level := Some 2%Z;
       types := ["cafe"; "food"]; business_status := Some "OPERATIONAL" |} in
  let preferences :=
    {| interests := Some ["food"; "nature"]; ageGroup := "adult";
       preferredEnvironment := "mixed"; priceRange := "medium";
       timePreference := "flexible"; maxResults := None |} in
  personalizePlaces [cafe]
    {| interests := Some ["nature"; "food"; "nature"]; ageGroup := "adult";
       preferredEnvironment := "mixed"; priceRange := "medium";
       timePreference := "flexible"; maxResults := None |}
    {| currentTime := None |}
  = personalizePlaces [cafe] preferences {| currentTime := None |}.
Proof.
  intros cafe preferences.
  apply (personalizePlaces_interests_as_set [cafe] preferences
           ["food"; "nature"] ["nature"; "food"; "nature"]
           {| currentTime := None |}); [reflexivity |].
  intros interest. rewrite !elem_of_cons, !elem_of_nil. tauto.
Defined.

Lemma getTimeScore_named (place : Place) (now : Date) :
  getTimeScore place now "morning"
  = (if (6 <=? getHours now)%Z && (getHours now <? 12)%Z then 1 else 0)%R
  ∧ getTimeScore place now "afternoon"
    = (if (12 <=? getHours now)%Z && (getHours now <? 17)%Z then 1 else 0)%R
  ∧ getTimeScore place now "evening"
    = (if (17 <=? getHours now)%Z && (getHours now <? 22)%Z then 1 else 0)%R
  ∧ getTimeScore place now "night"
    = (if (22 <=? getHours now)%Z || (getHours now <? 6)%Z then 1 else 0)%R.
Proof. by repeat split. Qed.

(** The four named time preferences split the day: at every hour
    exactly one of them scores 1 and the three others score 0; any
    other preference scores one half at every hour. *)
Theorem getTimeScore_windows (place : Place) (now : Date) :
  (∃ window,
     window ∈ ["morning"; "afternoon"; "evening"; "night"]
     ∧ getTimeScore place now window = 1%R
     ∧ ∀ other, other ∈ ["morning"; "afternoon"; "evening"; "night"] →
                other ≠ window → getTimeScore place now other = 0%R)
  ∧ ∀ preference,
      preference ∉ ["morning"; "afternoon"; "evening"; "night"] →
      getTimeScore place now preference = (1 / 2)%R.
Proof.
  split.
  - destruct (getTimeScore_named place now)
      as (Hmorning & Hafternoon & Hevening & Hnight).
    assert ((6 ≤ getHours now < 12) ∨ (12 ≤ getHours now < 17)
            ∨ (17 ≤ getHours now < 22)
            ∨ (22 ≤ getHours now ∨ getHours now < 6))%Z as Hhour by lia.
    revert Hmorning Hafternoon Hevening Hnight.
    destruct (Z.leb_spec 6 (getHours now)), (Z.ltb_spec (getHours now) 12),
      (Z.leb_spec 12 (getHours now)), (Z.ltb_spec (getHours now) 17),
      (Z.leb_spec 17 (getHours now)), (Z.ltb_spec (getHours now) 22),
      (Z.leb_spec 22 (getHours now)), (Z.ltb_spec (getHours now) 6);
      try lia; cbn [andb orb]; intros Hmorning Hafternoon Hevening Hnight;
      first [exists "morning"; split; [rewrite !elem_of_cons; tauto |];
               split; [assumption |]
            | exists "afternoon"; split; [rewrite !elem_of_cons; tauto |];
               split; [assumption |]
            | exists "evening"; split; [rewrite !elem_of_cons; tauto |];
               split; [assumption |]
            | exists "night"; split; [rewrite !elem_of_cons; tauto |];
               split; [assumption |]];
      intros other Hother Hne; rewrite !elem_of_cons, elem_of_nil in Hother;
      destruct Hother as [-> | [-> | [-> | [-> | []]]]]; done.
  - intros preference Hnot. rewrite !not_elem_of_cons in Hnot.
    destruct Hnot as (? & ? & ? & ? & _).
    unfold getTimeScore. by repeat (case_decide; [done |]).
Qed.

Lemma categorize_lookup (categories : gmap string (list ScoredPlace))
    (scored : ScoredPlace) (category : string) :
  categorize categories scored !! category
  = if decide (getPrimaryPlaceType (types (place scored)) = category)
    then Some (default [] (categories !! category) ++ [scored])
    else categories !! category.
Proof.
  unfold categorize. cbv zeta.
  destruct (decide (getPrimaryPlaceType (types (place scored)) = category))
    as [<- | Hother].
  - rewrite lookup_alter_eq.
    destruct (decide (is_Some _)) as [[members Hmembers] | Hnone].
    + by rewrite Hmembers.
    + apply eq_None_not_Some in Hnone.
      by rewrite lookup_insert_eq, Hnone.
  - rewrite lookup_alter_ne by done.
    destruct (decide (is_Some _)); [done |]. by rewrite lookup_insert_ne.
Qed.

Lemma foldl_categorize (places : list ScoredPlace)
    (categories : gmap string (list ScoredPlace)) (category : string) :
  foldl categorize categories places !! category
  = match filter (fun scored =>
                    getPrimaryPlaceType (types (place scored)) = category)
                 places with
    | [] => categories !! category
    | members => Some (default [] (categories !! category) ++ members)
    end.
Proof.
  revert categories. induction places as [|scored places IH];
    intros categories; cbn [foldl]; [done |].
  rewrite IH, categorize_lookup, filter_cons.
  destruct (decide (getPrimaryPlaceType (types (place scored)) = category)).
  - destruct (filter _ places) as [|first members];
      cbn [default from_option Datatypes.id]; [done |].
    by rewrite <- app_assoc.
  - done.
Qed.

(** The summary counts all the places, keeps the first five as the top
    recommendations, and groups these five by primary type: the group
    of a category is the list of the top places of this primary type,
    in their order, and a category without a top place has no group. *)
Theorem generateRecommendationsSummary_groups
    (personalizedPlaces : list ScoredPlace) (userPreferences : Preferences) :
  let summary :=
    generateRecommendationsSummary personalizedPlaces userPreferences in
  totalRecommendations summary = length personalizedPlaces
  ∧ topRecommendations summary = take 5 personalizedPlaces
  ∧ (∀ category,
       categorizedRecommendations summary !! category
       = match filter (fun scored =>
                         getPrimaryPlaceType (types (place scored)) = category)
                      (take 5 personalizedPlaces) with
         | [] => None
         | members => Some members
         end)
  ∧ (∀ scored, scored ∈ take 5 personalizedPlaces →
       ∃ members,
         categorizedRecommendations summary
           !! getPrimaryPlaceType (types (place scored)) = Some members
         ∧ scored ∈ members).
Proof.
  cbv zeta. unfold generateRecommendationsSummary.
  cbn [totalRecommendations topRecommendations categorizedRecommendations].
  split; [done |]. split; [done |].
  assert (∀ category,
            foldl categorize ∅ (take 5 personalizedPlaces) !! category
            = match filter (fun scored =>
                              getPrimaryPlaceType (types (place scored)) = category)
                           (take 5 personalizedPlaces) with
              | [] => None
              | members => Some members
              end) as Hgroups.
  { intros category. rewrite foldl_categorize, lookup_empty.
    by destruct (filter _ _). }
  split; [exact Hgroups |].
  intros scored Hin. rewrite Hgroups.
  assert (scored ∈ filter (fun other =>
                             getPrimaryPlaceType (types (place other))
                             = getPrimaryPlaceType (types (place scored)))
                          (take 5 personalizedPlaces)) as Hmember
    by by apply list_elem_of_filter.
  destruct (filter _ _) as [|first members]; [by apply elem_of_nil in Hmember |].
  by eexists.
Qed.

End RecommendationFacts.

(** ** The figures of the answer *)

Module AreaFiguresFacts.
Import Js AreaFigures.
Local Open Scope nat_scope.

Lemma countPriceLevel_byLevel (distribution : PriceDistribution) (place : Place)
    (priceLevel : Z) :
  byLevel (countPriceLevel distribution place) !! priceLevel
  = if decide (price_level place = Some priceLevel ∧ (0 ≤ priceLevel ≤ 4)%Z)
    then Some (S (default 0 (byLevel distribution !! priceLevel)))
    else byLevel distribution !! priceLevel.
Proof.
  unfold countPriceLevel.
  destruct (price_level place) as [level|].
  - destruct (Z.leb_spec 0 level), (Z.leb_spec level 4); cbn [andb byLevel];
      try (case_decide as Hcase; [destruct Hcase as [[= ->] ?]; lia | done]).
    destruct (decide (level = priceLevel)) as [-> | Hne].
    + rewrite lookup_insert_eq. case_decide as Hcase; [done |].
      exfalso. apply Hcase. split; [done | lia].
    + rewrite lookup_insert_ne by done.
      case_decide as Hcase; [| done]. destruct Hcase as [? _]. congruence.
  - cbn [byLevel]. case_decide as Hcase; [| done]. by destruct Hcase.
Qed.

Lemma countPriceLevel_unknown (distribution : PriceDistribution) (place : Place) :
  unknown (countPriceLevel distribution place)
  = if decide (price_level place ∈ [Some 0; Some 1; Some 2; Some 3; Some 4]%Z)
    then unknown distribution
    else S (unknown distribution).
Proof.
  unfold countPriceLevel.
  destruct (price_level place) as [level|].
  - destruct (Z.leb_spec 0 level), (Z.leb_spec level 4); cbn [andb unknown];
      case_decide as Hcase; try done;
      try (rewrite !elem_of_cons, elem_of_nil in Hcase;
           destruct Hcase
             as [[= ->] | [[= ->] | [[= ->] | [[= ->] | [[= ->] | []]]]]]; lia).
    exfalso. apply Hcase. rewrite !elem_of_cons.
    assert (level = 0 ∨ level = 1 ∨ level = 2 ∨ level = 3 ∨ level = 4)%Z
      as [-> | [-> | [-> | [-> | ->]]]] by lia; tauto.
  - cbn [unknown]. case_decide as Hcase; [| done].
    rewrite !elem_of_cons, elem_of_nil in Hcase.
    by destruct Hcase as [? | [? | [? | [? | [? | []]]]]].
Qed.

Lemma foldl_countPriceLevel (places : list Place)
    (distribution : PriceDistribution) :
  (∀ priceLevel,
     byLevel (foldl countPriceLevel distribution places) !! priceLevel
     = match filter (fun place => price_level place = Some priceLevel
                                  ∧ (0 ≤ priceLevel ≤ 4)%Z) places with
       | [] => byLevel distribution !! priceLevel
       | counted =>
           Some (default 0 (byLevel distribution !! priceLevel) + length counted)
       end)
  ∧ unknown (foldl countPriceLevel distribution places)
    = unknown distribution
      + length (filter (fun place =>
                          price_level place
                          ∉ [Some 0; Some 1; Some 2; Some 3; Some 4]%Z) places).
Proof.
  revert distribution. induction places as [|place places IH];
    intros distribution; cbn [foldl].
  - split; [done |]. cbn. lia.
  - destruct (IH (countPriceLevel distribution place)) as [IHlevel IHunknown].
    split.
    + intros priceLevel.
      rewrite IHlevel, countPriceLevel_byLevel, filter_cons.
      case_decide; [| done].
      destruct (filter (fun other => price_level other = Some priceLevel ∧ _)
                       places) as [|first counted];
        cbn [default from_option Datatypes.id length]; f_equal; lia.
    + rewrite IHunknown, countPriceLevel_unknown, filter_cons.
      destruct (decide (price_level place
                        ∈ [Some 0; Some 1; Some 2; Some 3; Some 4]%Z))
        as [Hin | Hout].
      * by rewrite (decide_False (P := price_level place ∉ _)) by tauto.
      * rewrite (decide_True (P := price_level place ∉ _)) by done.
        cbn [length]. lia.
Qed.

Lemma price_levels_split (places : list Place) :
  length (filter (fun place => price_level place = Some 0%Z) places)
  + length (filter (fun place => price_level place = Some 1%Z) places)
  + length (filter (fun place => price_level place = Some 2%Z) places)
  + length (filter (fun place => price_level place = Some 3%Z) places)
  + length (filter (fun place => price_level place = Some 4%Z) places)
  + length (filter (fun place =>
                      price_level place
                      ∉ [Some 0; Some 1; Some 2; Some 3; Some 4]%Z) places)
  = length places.
Proof.
  induction places as [|place places IH]; [done |].
  rewrite !filter_cons. cbn [length]. rewrite <- IH.
  destruct (decide (price_level place
                    ∈ [Some 0; Some 1; Some 2; Some 3; Some 4]%Z))
    as [Hin | Hout].
  - rewrite (decide_False (P := price_level place ∉ _)) by tauto.
    rewrite !elem_of_cons, elem_of_nil in Hin.
    destruct Hin as [-> | [-> | [-> | [-> | [-> | []]]]]];
      repeat (case_decide; try done); cbn [length]; lia.
  - rewrite (decide_True (P := price_level place ∉ _)) by done.
    rewrite !not_elem_of_cons in Hout. destruct Hout as (? & ? & ? & ? & ? & _).
    repeat (case_decide; try done); cbn [length]; lia.
Qed.

(** The price distribution has a counter for each of the levels 0 to
    4 and for no other level; the counter of a level is the number of
    places of this level, the counter [unknown] is the number of
    places without a price level or with one outside 0 to 4; the six
    counters add up to the number of places. *)
Theorem calculatePriceDistribution_counts (places : list Place) :
  let distribution := calculatePriceDistribution places in
  (∀ priceLevel,
     byLevel distribution !! priceLevel
     = if decide (0 ≤ priceLevel ≤ 4)%Z
       then Some (length (filter (fun place =>
                                    price_level place = Some priceLevel) places))
       else None)
  ∧ unknown distribution
    = length (filter (fun place =>
                        price_level place
                        ∉ [Some 0; Some 1; Some 2; Some 3; Some 4]%Z) places)
  ∧ ∃ n0 n1 n2 n3 n4,
      byLevel distribution !! 0%Z = Some n0
      ∧ byLevel distribution !! 1%Z = Some n1
      ∧ byLevel distribution !! 2%Z = Some n2
      ∧ byLevel distribution !! 3%Z = Some n3
      ∧ byLevel distribution !! 4%Z = Some n4
      ∧ n0 + n1 + n2 + n3 + n4 + unknown distribution = length places.
Proof.
  cbv zeta. unfold calculatePriceDistribution.
  destruct (foldl_countPriceLevel places emptyDistribution)
    as [Hlevel Hunknown].
  assert (∀ priceLevel,
            byLevel (foldl countPriceLevel emptyDistribution places) !! priceLevel
            = if decide (0 ≤ priceLevel ≤ 4)%Z
              then Some (length (filter (fun place =>
                                           price_level place = Some priceLevel)
                                        places))
              else None) as Hcounts.
  { intros priceLevel. rewrite Hlevel. case_decide as Hrange.
    - rewrite (list_filter_iff _ (fun place => price_level place = Some priceLevel))
        by (intros place; tauto).
      assert (byLevel emptyDistribution !! priceLevel = Some 0) as ->.
      { assert (priceLevel = 0 ∨ priceLevel = 1 ∨ priceLevel = 2
                ∨ priceLevel = 3 ∨ priceLevel = 4)%Z
          as [-> | [-> | [-> | [-> | ->]]]] by lia; reflexivity. }
      by destruct (filter (fun place => price_level place = Some priceLevel)
                          places).
    - rewrite (list_filter_iff _ (fun _ => False)) by (intros place; tauto).
      rewrite (EngineFacts.filter_none (fun _ => False)) by tauto.
      unfold emptyDistribution. cbn [byLevel].
      apply not_elem_of_list_to_map_1. cbn. rewrite !not_elem_of_cons.
      repeat split; try lia. apply not_elem_of_nil. }
  split; [exact Hcounts |].
  split; [by rewrite Hunknown |].
  do 5 eexists.
  repeat (split; [by rewrite Hcounts |]).
  rewrite Hunknown. cbn [unknown emptyDistribution]. apply price_levels_split.
Qed.

Lemma existsb_subseteq {A} (f : A → bool) (l l' : list A) :
  l ⊆ l' → existsb f l = true → existsb f l' = true.
Proof.
  intros Hsub. rewrite !existsb_exists.
  intros (x & Hx%list_elem_of_In & ?). exists x.
  split; [by apply list_elem_of_In, Hsub | done].
Qed.

(** The activity level is never below 30, so that the lower clamp at
    10 never applies, and it does not drop when places are added:
    at every hour the level for a list of places is at most the level
    for any list that contains them. *)
Theorem calculateHourlyActivity_floor_monotone (hour : Z)
    (places places' : list Place) :
  places ⊆ places' →
  (30 ≤ calculateHourlyActivity hour places
   ≤ calculateHourlyActivity hour places')%Z.
Proof.
  intros Hsub. unfold calculateHourlyActivity. cbv zeta.
  pose proof (existsb_subseteq (fun p => includes (types p) "restaurant")
                _ _ Hsub) as Hrestaurants.
  pose proof (existsb_subseteq
                (fun p => includes (types p) "night_club"
                          || includes (types p) "bar") _ _ Hsub) as Hnightlife.
  revert Hrestaurants Hnightlife.
  generalize (existsb (fun p => includes (types p) "restaurant") places),
    (existsb (fun p => includes (types p) "restaurant") places'),
    (existsb (fun p => includes (types p) "night_club"
                       || includes (types p) "bar") places),
    (existsb (fun p => includes (types p) "night_club"
                       || includes (types p) "bar") places').
  intros hasRestaurants hasRestaurants' hasNightlife hasNightlife'
    Hrestaurants Hnightlife.
  generalize ((9 <=? hour)%Z && (hour <=? 21)%Z),
    ((12 <=? hour)%Z && (hour <=? 14)%Z),
    ((18 <=? hour)%Z && (hour <=? 20)%Z),
    ((hour =? 12)%Z || (hour =? 13)%Z), (21 <=? hour)%Z.
  intros daytime lunch dinner noon late.
  destruct hasRestaurants, hasRestaurants';
    try discriminate (Hrestaurants eq_refl);
    destruct hasNightlife, hasNightlife';
    try discriminate (Hnightlife eq_refl);
    destruct daytime, lunch, dinner, noon, late; cbn [andb orb]; lia.
Qed.

Lemma calculateHourlyActivity_floor_monotone_witness :
  let bar :=
    {| place_id := "bar-1"; rating := None; user_ratings_total := None;
       price_level := None; types := ["bar"]; business_status := None |} in
  ([] : list Place) ⊆ [bar]
  ∧ (30 ≤ calculateHourlyActivity 22 []
     ≤ calculateHourlyActivity 22 [bar])%Z.
Proof.
  intros bar.
  assert (([] : list Place) ⊆ [bar]) as Hsub by apply list_subseteq_nil.
  split; [exact Hsub |].
  exact (calculateHourlyActivity_floor_monotone 22 [] [bar] Hsub).
Defined.

Lemma calculateHourlyActivity_no_places (hour : Z) :
  calculateHourlyActivity hour []
  = (if decide (12 ≤ hour ≤ 14) then 90
     else if decide (18 ≤ hour ≤ 20) then 100
     else if decide (9 ≤ hour ≤ 21) then 70
     else 30)%Z.
Proof.
  unfold calculateHourlyActivity. cbn [existsb andb].
  destruct (Z.leb_spec 9 hour), (Z.leb_spec hour 21), (Z.leb_spec 12 hour),
    (Z.leb_spec hour 14), (Z.leb_spec 18 hour), (Z.leb_spec hour 20);
    try lia; cbn [andb orb]; repeat case_decide; lia.
Qed.

Lemma getCurrentCrowdLevel_by_hour (hour : Z) :
  getCurrentCrowdLevel hour
  = if decide (12 ≤ hour ≤ 14 ∨ 18 ≤ hour ≤ 20)%Z then "Very High"
    else if decide (9 ≤ hour ≤ 21)%Z then "High"
    else "Moderate".
Proof.
  unfold getCurrentCrowdLevel. cbv zeta.
  rewrite calculateHourlyActivity_no_places.
  repeat case_decide; try reflexivity; lia.
Qed.

(** The crowd level of an hour is read from the activity of an area
    without places: it is [Very High] from 12 to 14 and from 18 to 20,
    [High] at the other hours from 9 to 21, and [Moderate] at every
    other hour; it is never [Low]. *)
Theorem getCurrentCrowdLevel_table (hour : Z) :
  getCurrentCrowdLevel hour
  = (if decide (12 ≤ hour ≤ 14 ∨ 18 ≤ hour ≤ 20)%Z then "Very High"
     else if decide (9 ≤ hour ≤ 21)%Z then "High"
     else "Moderate")
  ∧ getCurrentCrowdLevel hour ≠ "Low".
Proof.
  split; [apply getCurrentCrowdLevel_by_hour |].
  rewrite getCurrentCrowdLevel_by_hour. by repeat case_decide.
Qed.

(** Read at an hour of the day, the predicted crowd levels are those
    of the six hours that follow on the 24-hour clock, in order, each
    with the crowd level of its hour. *)
Theorem getPredictedCrowdLevels_next_six (currentHour : Z) :
  (0 ≤ currentHour < 24)%Z →
  length (getPredictedCrowdLevels currentHour) = 6
  ∧ ∀ i entry,
      getPredictedCrowdLevels currentHour !! i = Some entry →
      cl_hour entry = ((currentHour + 1 + Z.of_nat i) `mod` 24)%Z
      ∧ (0 ≤ cl_hour entry < 24)%Z
      ∧ level entry = getCurrentCrowdLevel (cl_hour entry)
      ∧ level entry ∈ ["Moderate"; "High"; "Very High"].
Proof.
  intros Hhour. split; [reflexivity |].
  intros i entry Hentry. unfold getPredictedCrowdLevels in Hentry.
  rewrite list_lookup_fmap in Hentry.
  destruct (seq 0 6 !! i) as [index|] eqn:Hindex; [| done].
  apply lookup_seq in Hindex as [-> _]. cbn in Hentry.
  injection Hentry as <-. cbn [cl_hour level].
  rewrite Z.rem_mod_nonneg by lia.
  replace (currentHour + Z.of_nat i + 1)%Z with (currentHour + 1 + Z.of_nat i)%Z
    by lia.
  split; [done |]. split; [by apply Z.mod_pos_bound |]. split; [done |].
  rewrite getCurrentCrowdLevel_by_hour.
  repeat case_decide; rewrite !elem_of_cons; tauto.
Qed.

Lemma getPredictedCrowdLevels_next_six_witness :
  (0 ≤ 22 < 24)%Z
  ∧ length (getPredictedCrowdLevels 22) = 6.
Proof.
  assert (0 ≤ 22 < 24)%Z as Hhour by lia.
  split; [exact Hhour |].
  exact (proj1 (getPredictedCrowdLevels_next_six 22 Hhour)).
Defined.

End AreaFiguresFacts.

(** ** Filtered places *)

Module PlacesFiltersFacts.
Import Js PlacesFilters SortFacts.

Lemma byPopularity_positive (a b : Place) :
  (byPopularity a b > 0)%R ↔ (popularity a < popularity b)%R.
Proof. unfold byPopularity. split; lra. Qed.

Lemma keepPlace_true (filters : Filters) (place : Place) :
  keepPlace filters place = true ↔
  (∀ minimum r, minRating filters = Some minimum → minimum ≠ 0%R →
                rating place = Some r → (minimum <= r)%R)
  ∧ (∀ minimum n, minReviews filters = Some minimum → minimum ≠ 0%N →
                  user_ratings_total place = Some n → (minimum ≤ n)%N)
  ∧ (openOnly filters = true → business_status place = Some "OPERATIONAL")
  ∧ (∀ wanted, f_types filters = Some wanted → wanted ≠ [] →
               ∃ type, type ∈ wanted ∧ type ∈ types place)
  ∧ (∀ maximum level, maxPriceLevel filters = Some maximum → maximum ≠ 0%Z →
                      price_level place = Some level → (level ≤ maximum)%Z).
Proof.
  unfold keepPlace.
  destruct filters as [minRating minReviews openOnly wanted maxPriceLevel].
  destruct place as [id rating reviews level types status].
  cbn [PlacesFilters.minRating PlacesFilters.minReviews PlacesFilters.openOnly
       f_types PlacesFilters.maxPriceLevel PersonalizationService.rating
       user_ratings_total price_level PersonalizationService.types
       business_status].
  split.
  - intros Hkeep. repeat split.
    + intros minimum r [= ->] Hne [= ->].
      rewrite bool_decide_eq_false_2 in Hkeep by done. cbn [negb andb] in Hkeep.
      case_bool_decide; [done | lra].
    + intros minimum n [= ->] Hne [= ->].
      destruct (minRating) as [m|];
        [destruct (negb (bool_decide (m = 0%R)) && _); [done |] |];
        (destruct (N.eqb_spec minimum 0); [done |]);
        cbn [negb andb] in Hkeep;
        (destruct (N.ltb_spec n minimum); [done | lia]).
    + intros ->.
      repeat match type of Hkeep with
             | (if ?b then false else _) = true =>
                 destruct b eqn:?; [done |]
             end.
      match goal with
      | H : true && negb (bool_decide _) = false |- _ =>
          cbn [andb] in H; apply negb_false_iff, bool_decide_eq_true in H
      end.
      done.
    + intros wanted' [= ->] Hne.
      repeat match type of Hkeep with
             | (if ?b then false else _) = true =>
                 destruct b eqn:?; [done |]
             end.
      match goal with
      | H : (0 <? length wanted')%nat && negb (existsb _ wanted') = false |- _ =>
          rename H into Hwanted
      end.
      destruct wanted' as [|first rest]; [done |]. cbn [length andb] in Hwanted.
      change (0 <? S (length rest))%nat with true in Hwanted.
      cbn [andb] in Hwanted. apply negb_false_iff, existsb_exists in Hwanted.
      destruct Hwanted as (type & Hin%list_elem_of_In & Hincluded).
      exists type. split; [done |]. by apply bool_decide_eq_true in Hincluded.
    + intros maximum level' [= ->] Hne [= ->].
      repeat match type of Hkeep with
             | (if ?b then false else _) = true =>
                 destruct b eqn:?; [done |]
             end.
      match goal with
      | H : negb (maximum =? 0)%Z && (maximum <? level')%Z = false |- _ =>
          rename H into Hmax
      end.
      destruct (Z.eqb_spec maximum 0); [done |]. cbn [negb andb] in Hmax.
      by apply Z.ltb_ge in Hmax.
  - intros (Hrating & Hreviews & Hopen & Htypes & Hprice).
    assert (match minRating with
            | Some minimum =>
                negb (bool_decide (minimum = 0%R))
                && match rating with
                   | Some r => bool_decide (r < minimum)%R
                   | None => false
                   end
            | None => false
            end = false) as ->.
    { destruct minRating as [minimum|]; [| done].
      case_bool_decide as Hzero; [done |]. cbn [negb andb].
      destruct rating as [r|]; [| done].
      apply bool_decide_eq_false_2.
      specialize (Hrating minimum r eq_refl Hzero eq_refl). lra. }
    assert (match minReviews with
            | Some minimum =>
                negb (minimum =? 0)%N
                && match reviews with
                   | Some n => (n <? minimum)%N
                   | None => false
                   end
            | None => false
            end = false) as ->.
    { destruct minReviews as [minimum|]; [| done].
      destruct (N.eqb_spec minimum 0) as [| Hzero]; [done |]. cbn [negb andb].
      destruct reviews as [n|]; [| done].
      apply N.ltb_ge. by apply (Hreviews minimum n). }
    assert (openOnly && negb (bool_decide (status = Some "OPERATIONAL")) = false)
      as ->.
    { destruct openOnly; [| done]. cbn [andb].
      by rewrite bool_decide_eq_true_2 by by apply Hopen. }
    assert (match wanted with
            | Some wanted =>
                (0 <? length wanted)%nat
                && negb (existsb (includes types) wanted)
            | None => false
            end = false) as ->.
    { destruct wanted as [[|first rest]|]; [done | | done].
      change (0 <? length (first :: rest))%nat with true. cbn [andb].
      apply negb_false_iff, existsb_exists.
      destruct (Htypes (first :: rest) eq_refl) as (type & Hin & Hincluded);
        [done |].
      exists type. split; [by apply list_elem_of_In |].
      by apply bool_decide_eq_true. }
    assert (match maxPriceLevel with
            | Some maximum =>
                negb (maximum =? 0)%Z
                && match level with
                   | Some level => (maximum <? level)%Z
                   | None => false
                   end
            | None => false
            end = false) as ->.
    { destruct maxPriceLevel as [maximum|]; [| done].
      destruct (Z.eqb_spec maximum 0) as [| Hzero]; [done |]. cbn [negb andb].
      destruct level as [l|]; [| done].
      apply Z.ltb_ge. by apply (Hprice maximum l). }
    done.
Qed.

(** When the search succeeds, the filtered places are the places of
    the answer that pass every criterion, ordered by decreasing
    popularity (rating times the logarithm of the review count).  A
    criterion constrains a place only when it was given, is not 0 (for
    the three numeric ones) or empty (for the types), and the place
    has the field it reads: a place without a rating passes every
    minimum rating, and a maximum price level of 0 removes nothing.
    When the search fails, the call fails with the message of the
    search behind its own prefix. *)
Theorem getFilteredPlaces_selection (provider : Provider) (defaultRadius : Z)
    (coords : Coords) (filters : Filters) :
  match searchNearbyPlaces provider coords None defaultRadius with
  | Returned places =>
      ∃ selected,
        getFilteredPlaces provider defaultRadius coords filters
        = Returned selected
        ∧ StronglySorted (fun a b => (popularity a >= popularity b)%R) selected
        ∧ ∀ place,
            place ∈ selected ↔
            place ∈ places
            ∧ (∀ minimum r, minRating filters = Some minimum → minimum ≠ 0%R →
                            rating place = Some r → (minimum <= r)%R)
            ∧ (∀ minimum n, minReviews filters = Some minimum → minimum ≠ 0%N →
                            user_ratings_total place = Some n → (minimum ≤ n)%N)
            ∧ (openOnly filters = true →
               business_status place = Some "OPERATIONAL")
            ∧ (∀ wanted, f_types filters = Some wanted → wanted ≠ [] →
                         ∃ type, type ∈ wanted ∧ type ∈ types place)
            ∧ (∀ maximum level, maxPriceLevel filters = Some maximum →
                                maximum ≠ 0%Z →
                                price_level place = Some level →
                                (level ≤ maximum)%Z)
  | Thrown message =>
      getFilteredPlaces provider defaultRadius coords filters
      = Thrown ("Failed to get filtered places: " ++ message)
  end.
Proof.
  unfold getFilteredPlaces.
  destruct (searchNearbyPlaces provider coords None defaultRadius)
    as [places | message]; [| done].
  eexists. split; [reflexivity |].
  split; [apply (sort_sorted popularity _ byPopularity_positive) |].
  intros place. rewrite (sort_perm byPopularity).
  rewrite list_elem_of_In, filter_In, <- list_elem_of_In.
  by rewrite keepPlace_true.
Qed.

End PlacesFiltersFacts.

(** ** Where the area data of an answer come from *)

Module AreaInsightsHandlerFacts.
Import Js Firestore AreaInsightsHandler.
Import AreaInsightsFacts CacheKeyFacts CacheFacts CacheMaintenanceFacts.

Section WithClient.
Context {client : Client}.

Lemma coordsOf_valid (body : option Json) :
  isValid (validateRequest body) = true →
  ∃ coords, coordsOf body = Some coords
            ∧ (-90 <= lat coords)%Q ∧ (lat coords <= 90)%Q
            ∧ (-180 <= lng coords)%Q ∧ (lng coords <= 180)%Q.
Proof.
  intros (lat & lng & Hlat & Hlng & Hbounds)%validateRequest_valid_iff.
  exists {| lat := lat; lng := lng |}. unfold coordsOf.
  by rewrite Hlat, Hlng.
Qed.

Lemma getAreaInsights_returns (provider : Provider) (radius : Z)
    (coords : Coords) :
  ∃ areaData,
    GooglePlacesService.getAreaInsights provider radius coords
    = Returned areaData.
Proof. eexists. reflexivity. Qed.

Lemma getCachedAreaData_cases (ttl : Z) (env : LookupEnv)
    (cache : gmap string CacheEntry) (cacheKey : string) :
  (∃ entry,
     cache !! cacheKey = Some entry
     ∧ readHealth env = Healthy
     ∧ (now env - cachedAt entry ≤ ttl * 60 * 60 * 1000)%Z
     ∧ getCachedAreaData ttl env cache cacheKey
       = (Returned (Some (areaData entry)), cache))
  ∨ (getCachedAreaData ttl env cache cacheKey).1 = Returned None.
Proof.
  unfold getCachedAreaData, Firestore.get, Firestore.delete, reach.
  destruct (readHealth env); [| by right].
  destruct (decide (cacheKey = "")); [by right |].
  destruct (cache !! cacheKey) as [entry|]; [| by right].
  destruct (Z.gtb_spec (now env - cachedAt entry) (ttl * 60 * 60 * 1000)).
  - right. destruct (deleteHealth env); [| done].
    by destruct (decide (cacheKey = "")).
  - left. exists entry. repeat split; [lia].
Qed.

(** A request whose body fails the validation is answered as a bad
    request with the validation message and leaves the cache alone.
    Every other request gets its area data, whatever the store and the
    provider do: either from the cache, and then they are the data of
    the entry stored under the key of the coordinates, which is not
    older than the TTL, and the cache is left as it was; or from the
    provider, and then they are the bundle the places service
    returns for the coordinates. *)
Theorem loadAreaData_origin (env : RequestEnv)
    (cache : gmap string CacheEntry) (body : option Json) :
  if isValid (validateRequest body) then
    ∃ coords areaData fromCache,
      coordsOf body = Some coords
      ∧ (loadAreaData env cache body).1 = AreaLoaded areaData fromCache
      ∧ (fromCache = true →
         (∃ entry,
            cache !! generateCacheKey coords defaultRadius = Some entry
            ∧ FirebaseService.areaData entry = areaData
            ∧ (now (atLookup env) - cachedAt entry
               ≤ ttl env * 60 * 60 * 1000)%Z)
         ∧ (loadAreaData env cache body).2 = cache)
      ∧ (fromCache = false →
         GooglePlacesService.getAreaInsights
           (provider env) (searchRadiusOfService env) coords
         = Returned areaData)
  else
    loadAreaData env cache body
    = (BadRequest (message (validateRequest body)), cache).
Proof.
  unfold loadAreaData. cbv zeta.
  destruct (isValid (validateRequest body)) eqn:Hvalid; [| done].
  destruct (coordsOf_valid body Hvalid) as (coords & Hcoords & _).
  rewrite Hcoords. cbn [negb]. exists coords.
  destruct (getCachedAreaData_cases (ttl env) (atLookup env) cache
              (generateCacheKey coords defaultRadius))
    as [(entry & Hentry & _ & Hage & ->) | Hmiss].
  - rewrite updateCacheAccess_unchanged.
    exists (FirebaseService.areaData entry), true.
    repeat split; [| done]. by exists entry.
  - destruct (getCachedAreaData _ _ _ _) as [[[cached|]|message] cache'];
      try done.
    destruct (getAreaInsights_returns (provider env)
                (searchRadiusOfService env) coords) as [areaData HareaData].
    rewrite HareaData.
    exists areaData, false.
    repeat split; [| done | done].
    unfold cacheAreaData.
    by destruct (Firestore.set _ _ _ _).
Qed.

(** A request that had to ask the provider and could write to the
    store is followed, for as long as the TTL, by requests that are
    answered from the cache with the same area data, without the
    provider, for every body whose coordinates round to the same
    thousandths of a degree. *)
Theorem loadAreaData_again_from_cache (first second : RequestEnv)
    (cache : gmap string CacheEntry) (body body' : option Json)
    (coords coords' : Coords) (areaData : AreaData) :
  coordsOf body = Some coords → coordsOf body' = Some coords' →
  isValid (validateRequest body') = true →
  Math_round (times (lat coords) 1000) = Math_round (times (lat coords') 1000) →
  Math_round (times (lng coords) 1000) = Math_round (times (lng coords') 1000) →
  (loadAreaData first cache body).1 = AreaLoaded areaData false →
  writeHealth (atWrite first) = Healthy →
  readHealth (atLookup second) = Healthy →
  (now (atLookup second) - cachedAtNow (atWrite first)
   ≤ ttl second * 60 * 60 * 1000)%Z →
  loadAreaData second (loadAreaData first cache body).2 body'
  = (AreaLoaded areaData true, (loadAreaData first cache body).2).
Proof.
  intros Hcoords Hcoords' Hvalid' Hlat Hlng Hfirst Hwrite Hread Hage.
  pose proof (generateCacheKey_nonempty coords defaultRadius) as Hid.
  assert (generateCacheKey coords' defaultRadius
          = generateCacheKey coords defaultRadius) as Hkey.
  { by rewrite (generateCacheKey_rounded coords' defaultRadius _ _
                  (eq_sym Hlat) (eq_sym Hlng)). }
  assert ((loadAreaData first cache body).2
          !! generateCacheKey coords defaultRadius
          = Some {| FirebaseService.areaData := areaData;
                    cachedAt := cachedAtNow (atWrite first);
                    accessCount := 1;
                    lastAccessed := lastAccessedNow (atWrite first) |})
    as Hstored.
  { revert Hfirst. unfold loadAreaData. cbv zeta.
    destruct (isValid (validateRequest body)); [| done]. cbn [negb].
    rewrite Hcoords.
    destruct (getCachedAreaData _ _ _ _) as [[[cached|]|message] cache'].
    - rewrite updateCacheAccess_unchanged. by intros [= _ ?].
    - destruct (GooglePlacesService.getAreaInsights _ _ _) as [fresh|];
        [| done].
      rewrite (cacheAreaData_healthy _ _ _ _ Hid Hwrite). cbn [fst snd].
      intros [= ->]. apply lookup_insert_eq.
    - done. }
  unfold loadAreaData at 1. cbv zeta.
  rewrite Hvalid', Hcoords', Hkey. cbn [negb].
  rewrite (getCachedAreaData_healthy_read _ _ _ _ _ Hid Hread Hstored).
  cbn [cachedAt FirebaseService.areaData].
  destruct (Z.gtb_spec (now (atLookup second) - cachedAtNow (atWrite first))
              (ttl second * 60 * 60 * 1000)); [lia |].
  by rewrite updateCacheAccess_unchanged.
Qed.

End WithClient.

(** The theorems above at concrete inputs, for a sample client. *)

#[local] Existing Instance Samples.sampleClient.

Lemma loadAreaData_again_from_cache_witness :
  let healthy :=
    {| ttl := 24;
       atLookup := {| readHealth := Healthy; now := 3600000;
                      deleteHealth := Healthy |};
       atWrite := {| cachedAtNow := 0; lastAccessedNow := 0;
                     writeHealth := Healthy |};
       atAccessUpdate := Healthy;
       provider := fun _ _ _ => RequestFailed "timeout of 10000ms exceeded";
       searchRadiusOfService := 3000 |} in
  let body :=
    Samples.coordsBody (JNumber (double (407128 # 10000)))
                       (JNumber (double (-740060 # 10000))) in
  let body' :=
    Samples.coordsBody (JNumber (double (407131 # 10000)))
                       (JNumber (double (-740062 # 10000))) in
  ∃ areaData,
    (loadAreaData healthy ∅ body).1 = AreaLoaded areaData false
    ∧ loadAreaData healthy (loadAreaData healthy ∅ body).2 body'
      = (AreaLoaded areaData true, (loadAreaData healthy ∅ body).2).
Proof.
  intros healthy body body'.
  assert ((loadAreaData healthy ∅ body).1
          = AreaLoaded
              {| landmarks := []; restaurants := []; attractions := [];
                 entertainment := []; shopping := [];
                 coordinates := {| lat := double (407128 # 10000);
                                   lng := double (-740060 # 10000) |};
                 searchRadius := 3000 |} false) as Hfirst
    by (vm_compute; reflexivity).
  eexists. split; [exact Hfirst |].
  apply (loadAreaData_again_from_cache healthy healthy ∅ body body'
           {| lat := double (407128 # 10000); lng := double (-740060 # 10000) |}
           {| lat := double (407131 # 10000); lng := double (-740062 # 10000) |}
           _);
    [reflexivity | reflexivity | reflexivity | reflexivity | reflexivity
    | exact Hfirst | reflexivity | reflexivity | cbn; lia].
Defined.

End AreaInsightsHandlerFacts.

(** ** Periods of the day *)

Module TimePeriodFacts.
Import Js TimePeriods.

(** The period of the day the helpers name for an hour is the time
    preference the engine rewards at this hour, except at 5 and at 21
    o'clock: there the helpers say morning and night, and the engine
    rewards night and evening. *)
Theorem getTimePeriod_against_getTimeScore (place : Place) (hour : Z) :
  (getTimeScore place {| getHours := hour |} (getTimePeriod hour) = 1%R
   ↔ hour ≠ 5%Z ∧ hour ≠ 21%Z)
  ∧ getTimePeriod 5 = "morning"
  ∧ getTimeScore place {| getHours := 5 |} "morning" = 0%R
  ∧ getTimeScore place {| getHours := 5 |} "night" = 1%R
  ∧ getTimePeriod 21 = "night"
  ∧ getTimeScore place {| getHours := 21 |} "night" = 0%R
  ∧ getTimeScore place {| getHours := 21 |} "evening" = 1%R.
Proof.
  split; [| by repeat split].
  unfold getTimePeriod.
  destruct (Z.leb_spec 5 hour), (Z.ltb_spec hour 12), (Z.leb_spec 12 hour),
    (Z.ltb_spec hour 17), (Z.leb_spec 17 hour), (Z.ltb_spec hour 21);
    try lia; cbn [andb];
    unfold getTimeScore; cbn [getHours];
    repeat (case_decide; try done);
    repeat match goal with
           | |- context [(?a <=? ?b)%Z] => destruct (Z.leb_spec a b)
           | |- context [(?a <? ?b)%Z] => destruct (Z.ltb_spec a b)
           end; cbn [andb orb]; try lia;
    (split; [intros ?; try lia; exfalso; lra | intros ?; try lia; try done]).
Qed.

End TimePeriodFacts.
